(** * Inventory lending tracker: the action handler over a relational store

    A shallow embedding of [src/pages/api/actions.ts] (the snapshot reader
    and the action dispatcher) together with the part of the relational
    schema, read off the SQL migrations, that the handler relies on.

    Modelling conventions.
    - Tables are finite maps from the primary key to the remaining columns;
      the implicit many-to-many table [_ItemToCategory] is a finite set of
      pairs (A = category id, B = item id).
    - INTEGER columns hold 32-bit integers: the client refuses an [Int]
      argument outside that range, and takes the integer part of a number
      that is not integral.  Every SERIAL column draws its value from a
      sequence that is never rolled back and that fails once 2147483647
      was handed out.
    - A JavaScript [Date] is its time value in milliseconds since the epoch;
      a DATE column is a day number since the epoch, and CURRENT_DATE is
      the day of the clock in UTC.  The invalid date is not modelled.
    - A query without [orderBy] returns the rows in the order of the map.
    - The audit columns [created_at] / [updated_at] are left out: the
      handler never reads them and they live in the rows it writes.
    - The handler runs in a state-and-exception monad over the database;
      [res.status(..).json(..)] is the returned [Response]. *)

From stdpp Require Import gmap strings list fin_maps sorting.
From Stdlib Require Import Ascii ZArith Lia.

Local Open Scope Z_scope.
#[local] Set Warnings "-clear-no-such-hyp".

(** ** JavaScript strings (code units below 256) *)

Module Js.

(** White space and line terminators removed by [String.prototype.trim]. *)
Definition is_ws (a : ascii) : bool :=
  let n := Z.of_nat (nat_of_ascii a) in
  (9 <=? n) && (n <=? 13) || (n =? 32) || (n =? 160).

Fixpoint trimStart (s : string) : string :=
  match s with
  | String a r => if is_ws a then trimStart r else s
  | EmptyString => EmptyString
  end.

Fixpoint trimEnd (s : string) : string :=
  match s with
  | String a r =>
      match trimEnd r with
      | EmptyString => if is_ws a then EmptyString else String a EmptyString
      | r' => String a r'
      end
  | EmptyString => EmptyString
  end.

Definition trim (s : string) : string := trimEnd (trimStart s).

(** [s.split(sep)] for a one-character separator. *)
Fixpoint split (sep : ascii) (s : string) : list string :=
  match s with
  | EmptyString => [EmptyString]
  | String a r =>
      if Ascii.eqb a sep then EmptyString :: split sep r
      else match split sep r with
           | hd :: tl => String a hd :: tl
           | [] => [String a EmptyString]
           end
  end.

Definition startsWith (s p : string) : bool := String.prefix p s.

End Js.

(** ** Values of a parsed JSON body *)

#[warnings="-register-all"]
Inductive json : Type :=
| JUndefined
| JNull
| JBool (b : bool)
| JNum (n : Z)      (* a number with an integral value *)
| JFloat (whole : Z) (* a number that is not integral; [whole] is its integer part *)
| JStr (s : string)
| JArr (elems : list json)
| JObj (fields : list (string * json)).

Fixpoint assoc (k : string) (fs : list (string * json)) : json :=
  match fs with
  | [] => JUndefined
  | (k', v) :: r => if String.eqb k k' then v else assoc k r
  end.

(** Property read [v.k] on a value that is neither null nor undefined. *)
Definition get_field (v : json) (k : string) : json :=
  match v with
  | JObj fs => assoc k fs
  | _ => JUndefined
  end.

Definition truthy (v : json) : bool :=
  match v with
  | JUndefined | JNull => false
  | JBool b => b
  | JNum n => negb (n =? 0)
  | JFloat _ => true
  | JStr s => negb (String.eqb s "")
  | JArr _ | JObj _ => true
  end.

(** [typeof v !== 'number' || isNaN(v)] is false exactly on numbers: a JSON
    body carries no NaN. *)
Definition is_number (v : json) : bool :=
  match v with
  | JNum _ | JFloat _ => true
  | _ => false
  end.

(** ** Exceptions *)

Inductive exn : Type :=
| PrismaKnown (code : string) (message : string)  (* PrismaClientKnownRequestError *)
| PrismaUnknown (message : string)                (* PrismaClientUnknownRequestError *)
| PrismaValidation (message : string)             (* PrismaClientValidationError *)
| JsError (message : string).                     (* Error, TypeError *)

Definition exn_message (e : exn) : string :=
  match e with
  | PrismaKnown _ m | PrismaUnknown m | PrismaValidation m | JsError m => m
  end.

Definition P2002 : exn := PrismaKnown "P2002" "Unique constraint failed".
Definition P2003 : exn := PrismaKnown "P2003" "Foreign key constraint violated".
Definition P2020 : exn := PrismaKnown "P2020" "Value out of range for the type".
Definition P2025 : exn :=
  PrismaKnown "P2025"
    "An operation failed because it depends on one or more records that were required but not found.".

(** ** Rows and tables *)

Module ItemType.
Record t : Type := mk { code : string; name : string }.
End ItemType.

Module Category.
Record t : Type := mk { code : string; name : string; parentId : option Z }.
End Category.

Module Item.
Record t : Type := mk {
  title : string;
  itemTypeId : Z;
  requestedBy : option string;
  currentLoanId : option Z;
  metadata : option json }.
Definition with_currentLoanId (v : option Z) (r : t) : t :=
  mk (title r) (itemTypeId r) (requestedBy r) v (metadata r).
End Item.

Module Loan.
Record t : Type := mk {
  itemId : Z;
  patronName : string;
  checkoutDate : Z;           (* DATE: days since the epoch *)
  returnedAt : option Z }.    (* TIMESTAMPTZ: milliseconds since the epoch *)
Definition with_returnedAt (v : option Z) (r : t) : t :=
  mk (itemId r) (patronName r) (checkoutDate r) v.
End Loan.

Record Store : Type := mkStore {
  itemTypes : gmap Z ItemType.t;
  categories : gmap Z Category.t;
  items : gmap Z Item.t;
  loans : gmap Z Loan.t;
  itemToCategory : gset (Z * Z) }.

Record Sequences : Type := mkSeq {
  item_type_id_seq : Z;
  category_id_seq : Z;
  item_id_seq : Z;
  loan_id_seq : Z }.

Record Db : Type := mkDb { rows : Store; seqs : Sequences }.

Definition set_itemTypes (f : gmap Z ItemType.t → gmap Z ItemType.t) (s : Store) : Store :=
  mkStore (f (itemTypes s)) (categories s) (items s) (loans s) (itemToCategory s).
Definition set_categories (f : gmap Z Category.t → gmap Z Category.t) (s : Store) : Store :=
  mkStore (itemTypes s) (f (categories s)) (items s) (loans s) (itemToCategory s).
Definition set_items (f : gmap Z Item.t → gmap Z Item.t) (s : Store) : Store :=
  mkStore (itemTypes s) (categories s) (f (items s)) (loans s) (itemToCategory s).
Definition set_loans (f : gmap Z Loan.t → gmap Z Loan.t) (s : Store) : Store :=
  mkStore (itemTypes s) (categories s) (items s) (f (loans s)) (itemToCategory s).
Definition set_itemToCategory (f : gset (Z * Z) → gset (Z * Z)) (s : Store) : Store :=
  mkStore (itemTypes s) (categories s) (items s) (loans s) (f (itemToCategory s)).

Definition set_rows (f : Store → Store) (db : Db) : Db := mkDb (f (rows db)) (seqs db).

(** ** The state-and-exception monad of database code *)

Definition M (A : Type) : Type := Db → (exn + A) * Db.

#[global] Instance M_ret : MRet M := λ A a db, (inr a, db).
#[global] Instance M_bind : MBind M := λ A B f m db,
  match m db with
  | (inl e, db') => (inl e, db')
  | (inr a, db') => f a db'
  end.

Definition throw {A} (e : exn) : M A := λ db, (inl e, db).

(** The values of an INTEGER column. *)
Definition INT_MAX : Z := 2147483647.
Definition int4 (n : Z) : bool := (- INT_MAX - 1 <=? n) && (n <=? INT_MAX).

(** A SERIAL sequence that has handed out its last value. *)
Definition sequence_exhausted : exn :=
  PrismaUnknown "nextval: reached maximum value of sequence (2147483647)".

(** [nextval] of the four SERIAL sequences: the value to hand out next is
    kept in the state; past INT_MAX the call fails and nothing moves. *)
Definition nextval_item_type : M Z := λ db,
  let q := seqs db in
  if item_type_id_seq q <=? INT_MAX then
    (inr (item_type_id_seq q),
     mkDb (rows db) (mkSeq (item_type_id_seq q + 1) (category_id_seq q) (item_id_seq q) (loan_id_seq q)))
  else (inl sequence_exhausted, db).
Definition nextval_category : M Z := λ db,
  let q := seqs db in
  if category_id_seq q <=? INT_MAX then
    (inr (category_id_seq q),
     mkDb (rows db) (mkSeq (item_type_id_seq q) (category_id_seq q + 1) (item_id_seq q) (loan_id_seq q)))
  else (inl sequence_exhausted, db).
Definition nextval_item : M Z := λ db,
  let q := seqs db in
  if item_id_seq q <=? INT_MAX then
    (inr (item_id_seq q),
     mkDb (rows db) (mkSeq (item_type_id_seq q) (category_id_seq q) (item_id_seq q + 1) (loan_id_seq q)))
  else (inl sequence_exhausted, db).
Definition nextval_loan : M Z := λ db,
  let q := seqs db in
  if loan_id_seq q <=? INT_MAX then
    (inr (loan_id_seq q),
     mkDb (rows db) (mkSeq (item_type_id_seq q) (category_id_seq q) (item_id_seq q) (loan_id_seq q + 1)))
  else (inl sequence_exhausted, db).

(** A statement that reads the rows and either fails, leaving them as they
    are, or replaces them. *)
Definition statement {A} (f : Store → exn + (A * Store)) : M A := λ db,
  match f (rows db) with
  | inl e => (inl e, db)
  | inr (a, s') => (inr a, mkDb s' (seqs db))
  end.

(** [prisma.$transaction(async tx => ..)]: an exception thrown by the body
    rolls the rows back and is rethrown. *)
Definition transaction {A} (body : M A) : M A := λ db,
  match body db with
  | (inl e, db') => (inl e, mkDb (rows db) (seqs db'))
  | (inr a, db') => (inr a, db')
  end.

(** ** The Prisma client calls made by the handler

    Each call is one SQL statement: it either fails, leaving every row as it
    was, or applies its effect.  The constraints checked are those of the
    migrations: primary keys, the unique indexes on [code] and on
    [current_loan_id], and the foreign keys with their delete actions. *)

Module prisma.

(** Conversion of a JavaScript value to an [Int] argument: a number is cut
    to its integer part, which has to fit the INTEGER column. *)
Definition int_arg (v : json) : M Z :=
  match v with
  | JNum n | JFloat n => if int4 n then mret n else throw P2020
  | _ => throw (PrismaValidation "Invalid value provided. Expected Int.")
  end.

(** [prisma.itemType.create({ data: { code, name } })] *)
Definition itemType_create (code name : string) : M unit :=
  id ← nextval_item_type;
  statement (λ s,
    if decide (is_Some (itemTypes s !! id)) then inl P2002
    else if decide (map_Exists (λ _ r, ItemType.code r = code) (itemTypes s)) then inl P2002
    else inr ((), set_itemTypes <[id := ItemType.mk code name]> s)).

(** [prisma.category.create({ data: { code, name, parentId } })] *)
Definition category_create (code name : string) (parentId : option Z) : M unit :=
  id ← nextval_category;
  statement (λ s,
    if decide (is_Some (categories s !! id)) then inl P2002
    else if decide (map_Exists (λ _ r, Category.code r = code) (categories s)) then inl P2002
    else
      let s' := set_categories <[id := Category.mk code name parentId]> s in
      match parentId with
      | Some p => if decide (is_Some (categories s' !! p)) then inr ((), s') else inl P2003
      | None => inr ((), s')
      end).

(** [prisma.item.create({ data: { title, itemTypeId, requestedBy } })] *)
Definition item_create (title : string) (itemTypeId : Z) (requestedBy : option string) : M unit :=
  id ← nextval_item;
  statement (λ s,
    if decide (is_Some (items s !! id)) then inl P2002
    else if decide (is_Some (itemTypes s !! itemTypeId)) then
      inr ((), set_items <[id := Item.mk title itemTypeId requestedBy None None]> s)
    else inl P2003).

(** [prisma.item.update({ where: { id }, data: { categories: { connect: { id: categoryId } } } })] *)
Definition item_connect_category (id categoryId : Z) : M unit :=
  statement (λ s,
    match items s !! id, categories s !! categoryId with
    | Some _, Some _ => inr ((), set_itemToCategory (λ j, {[ (categoryId, id) ]} ∪ j) s)
    | _, _ => inl P2025
    end).

(** [prisma.item.update({ where: { id }, data: { categories: { disconnect: { id: categoryId } } } })] *)
Definition item_disconnect_category (id categoryId : Z) : M unit :=
  statement (λ s,
    match items s !! id with
    | Some _ => inr ((), set_itemToCategory (λ j, j ∖ {[ (categoryId, id) ]}) s)
    | None => inl P2025
    end).

(** [tx.loan.create({ data: { itemId, patronName } })]; the checkout date
    defaults to CURRENT_DATE.  Returns [loan.id]. *)
Definition loan_create (today : Z) (itemId : Z) (patronName : string) : M Z :=
  id ← nextval_loan;
  statement (λ s,
    if decide (is_Some (loans s !! id)) then inl P2002
    else if decide (is_Some (items s !! itemId)) then
      inr (id, set_loans <[id := Loan.mk itemId patronName today None]> s)
    else inl P2003).

(** [tx.item.updateMany({ where: { id, currentLoanId: expected }, data: { currentLoanId: v } })];
    returns [updated.count]. *)
Definition item_updateMany_currentLoanId (id : Z) (expected v : option Z) : M Z :=
  statement (λ s,
    match items s !! id with
    | Some it =>
        if decide (Item.currentLoanId it = expected) then
          let s' := set_items <[id := Item.with_currentLoanId v it]> s in
          match v with
          | Some l =>
              if decide (map_Exists (λ k r, k ≠ id ∧ Item.currentLoanId r = Some l) (items s))
              then inl P2002
              else if decide (is_Some (loans s !! l)) then inr (1, s') else inl P2003
          | None => inr (1, s')
          end
        else inr (0, s)
    | None => inr (0, s)
    end).

(** [prisma.item.findUnique({ where: { id }, select: { currentLoanId: true } })] *)
Definition item_findUnique (id : Z) : M (option (option Z)) :=
  statement (λ s, inr (Item.currentLoanId <$> items s !! id, s)).

(** [tx.loan.update({ where: { id }, data: { returnedAt } })] *)
Definition loan_update_returnedAt (id : Z) (returnedAt : Z) : M unit :=
  statement (λ s,
    match loans s !! id with
    | Some ln => inr ((), set_loans <[id := Loan.with_returnedAt (Some returnedAt) ln]> s)
    | None => inl P2025
    end).

(** The item's [current_loan_id] after the loans of item [gone] were deleted
    (ON DELETE SET NULL). *)
Definition current_loan_set_null (ls : gmap Z Loan.t) (gone : Z) (it : Item.t) : Item.t :=
  match Item.currentLoanId it with
  | Some l =>
      match ls !! l with
      | Some ln => if decide (Loan.itemId ln = gone) then Item.with_currentLoanId None it else it
      | None => it
      end
  | None => it
  end.

(** [prisma.item.delete({ where: { id } })]: the loans of the item and its
    category links go with it (ON DELETE CASCADE). *)
Definition item_delete (id : Z) : M unit :=
  statement (λ s,
    match items s !! id with
    | Some _ =>
        inr ((), mkStore (itemTypes s) (categories s)
                   (current_loan_set_null (loans s) id <$> delete id (items s))
                   (filter (λ kv, Loan.itemId kv.2 ≠ id) (loans s))
                   (filter (λ p, p.2 ≠ id) (itemToCategory s)))
    | None => inl P2025
    end).

End prisma.

(** ** Dates *)

Module Date.

Definition msPerDay : Z := 86400000.

(** Year, month and day of a day number (proleptic Gregorian calendar). *)
Definition civil (day : Z) : Z * Z * Z :=
  let z := day + 719468 in
  let era := z / 146097 in
  let doe := z - era * 146097 in
  let yoe := (doe - doe / 1460 + doe / 36524 - doe / 146096) / 365 in
  let doy := doe - (365 * yoe + yoe / 4 - yoe / 100) in
  let mp := (5 * doy + 2) / 153 in
  let d := doy - (153 * mp + 2) / 5 + 1 in
  let m := if mp <? 10 then mp + 3 else mp - 9 in
  let y := yoe + era * 400 + (if m <=? 2 then 1 else 0) in
  (y, m, d).

Definition digit (n : Z) : ascii := ascii_of_nat (48 + Z.to_nat (n mod 10)).

(** The [k] low decimal digits of [n], most significant first. *)
Fixpoint pad (k : nat) (n : Z) : string :=
  match k with
  | O => EmptyString
  | S k' => pad k' (n / 10) +:+ String (digit n) EmptyString
  end.

Definition year_string (y : Z) : string :=
  if (0 <=? y) && (y <=? 9999) then pad 4 y
  else (if y <? 0 then "-" else "+") +:+ pad 6 (Z.abs y).

(** [new Date(t).toISOString()] *)
Definition toISOString (t : Z) : string :=
  let '(y, m, d) := civil (t / msPerDay) in
  let ms := t mod msPerDay in
  year_string y +:+ "-" +:+ pad 2 m +:+ "-" +:+ pad 2 d +:+ "T" +:+
  pad 2 (ms / 3600000) +:+ ":" +:+ pad 2 (ms / 60000 mod 60) +:+ ":" +:+
  pad 2 (ms / 1000 mod 60) +:+ "." +:+ pad 3 (ms mod 1000) +:+ "Z".

(** The [Date] the client builds for a DATE column: midnight UTC. *)
Definition of_day (day : Z) : Z := day * msPerDay.

(** CURRENT_DATE at the instant [t]. *)
Definition day_of (t : Z) : Z := t / msPerDay.

End Date.

(** ** The snapshot (src/lib/types.ts) *)

Module Types.

Module ItemType.
Record t : Type := mk { id : Z; code : string; name : string }.
End ItemType.

Module Category.
Record t : Type := mk { id : Z; code : string; name : string; parentId : option Z }.
End Category.

(** [{ id, name }] of a related item type or category. *)
Module Ref.
Record t : Type := mk { id : Z; name : string }.
End Ref.

(** The selected loan, with the checkout date as the client returns it
    ([D] = time value) or as the snapshot carries it ([D] = string). *)
Module Loan.
Record t (D : Type) : Type := mk { id : Z; patronName : string; checkoutDate : D }.
Arguments mk {D}.
Arguments id {D}.
Arguments patronName {D}.
Arguments checkoutDate {D}.
End Loan.

Module Item.
Record t (D : Type) : Type := mk {
  id : Z;
  title : string;
  requestedBy : option string;
  itemType : Ref.t;
  categories : list Ref.t;
  currentLoan : option (Loan.t D) }.
Arguments mk {D}.
Arguments id {D}.
Arguments title {D}.
Arguments requestedBy {D}.
Arguments itemType {D}.
Arguments categories {D}.
Arguments currentLoan {D}.
End Item.

Record Snapshot : Type := mkSnapshot {
  itemTypes : list ItemType.t;
  categories : list Category.t;
  items : list (Item.t string) }.

Record ApiResponse : Type := mkApiResponse {
  ok : bool;
  message : option string;
  snapshot : option Snapshot }.

End Types.

(** ** getSnapshot *)

Fixpoint traverse {A B} (f : A → exn + B) (l : list A) : exn + list B :=
  match l with
  | [] => inr []
  | x :: r =>
      match f x with
      | inl e => inl e
      | inr y => match traverse f r with
                 | inl e => inl e
                 | inr ys => inr (y :: ys)
                 end
      end
  end.

(** One row of [prisma.item.findMany({ select: .. })] with its relations. *)
Definition select_item (s : Store) (row : Z * Item.t) : exn + Types.Item.t Z :=
  let '(id, it) := row in
  match itemTypes s !! Item.itemTypeId it with
  | Some ty =>
      inr (Types.Item.mk id (Item.title it) (Item.requestedBy it)
             (Types.Ref.mk (Item.itemTypeId it) (ItemType.name ty))
             ((λ c, Types.Ref.mk c.1 (Category.name c.2)) <$>
                filter (λ c, (c.1, id) ∈ itemToCategory s) (map_to_list (categories s)))
             (match Item.currentLoanId it with
              | Some l =>
                  (λ ln, Types.Loan.mk l (Loan.patronName ln) (Date.of_day (Loan.checkoutDate ln)))
                    <$> loans s !! l
              | None => None
              end))
  | None => inl (JsError "Inconsistent query result: Field itemType is required to return data, got `null` instead.")
  end.

(** The post-processing step: [checkoutDate] becomes an ISO string. *)
Definition isoItem (i : Types.Item.t Z) : Types.Item.t string :=
  Types.Item.mk (Types.Item.id i) (Types.Item.title i) (Types.Item.requestedBy i)
    (Types.Item.itemType i) (Types.Item.categories i)
    (match Types.Item.currentLoan i with
     | Some ln =>
         Some (Types.Loan.mk (Types.Loan.id ln) (Types.Loan.patronName ln)
                 (Date.toISOString (Types.Loan.checkoutDate ln)))
     | None => None
     end).

Definition by_id (a b : Z * Item.t) : Prop := a.1 ≤ b.1.

#[global] Instance by_id_dec a b : Decision (by_id a b) := Z.le_dec a.1 b.1.

Definition getSnapshot : M Types.Snapshot :=
  statement (λ s,
    let itemTypes :=
      (λ r, Types.ItemType.mk r.1 (ItemType.code r.2) (ItemType.name r.2))
        <$> map_to_list (itemTypes s) in
    let categories :=
      (λ r, Types.Category.mk r.1 (Category.code r.2) (Category.name r.2) (Category.parentId r.2))
        <$> map_to_list (categories s) in
    match traverse (select_item s) (merge_sort by_id (map_to_list (items s))) with
    | inr items => inr (Types.mkSnapshot itemTypes categories (isoItem <$> items), s)
    | inl e => inl e
    end).

(** ** The handler *)

Record Env : Type := mkEnv {
  NEXT_PUBLIC_DEMO_AUTH_TOKEN : option string;   (* process.env *)
  now : Z }.                                     (* the clock, in milliseconds *)

Record Request : Type := mkRequest {
  method : string;
  authorization : option string;                 (* req.headers.authorization *)
  body : json }.

Record Response : Type := mkResponse { status : Z; json_body : Types.ApiResponse }.

Definition failure (code : Z) (msg : string) : Response :=
  mkResponse code (Types.mkApiResponse false (Some msg) None).

Definition success (snapshot : Types.Snapshot) : Response :=
  mkResponse 200 (Types.mkApiResponse true None (Some snapshot)).

(** How a [case] of the switch ends: [return res...] or [break]. *)
Inductive outcome : Type :=
| Return (r : Response)
| Break.

(** [!v || v.trim().length === 0]; [trim] is a method of strings only. *)
Definition blank (v : json) : M bool :=
  if negb (truthy v) then mret true
  else match v with
       | JStr s => mret (Nat.eqb (String.length (Js.trim s)) 0)
       | _ => throw (JsError "trim is not a function")
       end.

Definition string_arg (v : json) : M string :=
  match v with
  | JStr s => mret s
  | _ => throw (PrismaValidation "Invalid value provided. Expected String.")
  end.

(** An optional argument: [v ?? null] handed to the client. *)
Definition nullable {A} (arg : json → M A) (v : json) : M (option A) :=
  match v with
  | JUndefined | JNull => mret None
  | _ => a ← arg v; mret (Some a)
  end.

Definition createItemType (payload : json) : M outcome :=
  let code := get_field payload "code" in
  let name := get_field payload "name" in
  b ← blank code;
  if b : bool then mret (Return (failure 400 "Item type code is required.")) else
  b ← blank name;
  if b : bool then mret (Return (failure 400 "Item type name is required.")) else
  c ← string_arg code;
  n ← string_arg name;
  prisma.itemType_create c n;;
  mret Break.

Definition createCategory (payload : json) : M outcome :=
  let code := get_field payload "code" in
  let name := get_field payload "name" in
  let parentId := get_field payload "parentId" in
  b ← blank code;
  if b : bool then mret (Return (failure 400 "Category code is required.")) else
  b ← blank name;
  if b : bool then mret (Return (failure 400 "Category name is required.")) else
  c ← string_arg code;
  n ← string_arg name;
  p ← nullable prisma.int_arg parentId;
  prisma.category_create c n p;;
  mret Break.

(** [(typeof v === 'string' && v.trim().length === 0) ? null : (v ?? null)] *)
Definition requestedBy_arg (v : json) : json :=
  match v with
  | JStr s => if Nat.eqb (String.length (Js.trim s)) 0 then JNull else v
  | _ => v
  end.

Definition createItem (payload : json) : M outcome :=
  let title := get_field payload "title" in
  let itemTypeId := get_field payload "itemTypeId" in
  let requestedBy := get_field payload "requestedBy" in
  b ← blank title;
  if b : bool then mret (Return (failure 400 "Item title is required.")) else
  if negb (is_number itemTypeId)
  then mret (Return (failure 400 "Item type ID is required and must be a number.")) else
  t ← string_arg title;
  ty ← prisma.int_arg itemTypeId;
  r ← nullable string_arg (requestedBy_arg requestedBy);
  prisma.item_create t ty r;;
  mret Break.

Definition linkCategory (payload : json) : M outcome :=
  let itemId := get_field payload "itemId" in
  let categoryId := get_field payload "categoryId" in
  if negb (is_number itemId)
  then mret (Return (failure 400 "Item ID is required and must be a number.")) else
  if negb (is_number categoryId)
  then mret (Return (failure 400 "Category ID is required and must be a number.")) else
  i ← prisma.int_arg itemId;
  c ← prisma.int_arg categoryId;
  prisma.item_connect_category i c;;
  mret Break.

Definition unlinkCategory (payload : json) : M outcome :=
  let itemId := get_field payload "itemId" in
  let categoryId := get_field payload "categoryId" in
  if negb (is_number itemId)
  then mret (Return (failure 400 "Item ID is required and must be a number.")) else
  if negb (is_number categoryId)
  then mret (Return (failure 400 "Category ID is required and must be a number.")) else
  i ← prisma.int_arg itemId;
  c ← prisma.int_arg categoryId;
  prisma.item_disconnect_category i c;;
  mret Break.

Definition checkout (env : Env) (payload : json) : M outcome :=
  let itemId := get_field payload "itemId" in
  let patronName := get_field payload "patronName" in
  if negb (is_number itemId)
  then mret (Return (failure 400 "Item ID is required and must be a number.")) else
  b ← blank patronName;
  if b : bool then mret (Return (failure 400 "Patron name is required.")) else
  transaction (
    i ← prisma.int_arg itemId;
    p ← string_arg patronName;
    loan ← prisma.loan_create (Date.day_of (now env)) i p;
    count ← prisma.item_updateMany_currentLoanId i None (Some loan);
    if count =? 0 then throw (JsError "Item already loaned or does not exist")
    else mret ());;
  mret Break.

Definition return_ (env : Env) (payload : json) : M outcome :=
  let itemId := get_field payload "itemId" in
  if negb (is_number itemId)
  then mret (Return (failure 400 "Item ID is required and must be a number.")) else
  i ← prisma.int_arg itemId;
  item ← prisma.item_findUnique i;
  (* !item?.currentLoanId : no row, a null id, or the id 0 *)
  match item with
  | Some (Some l) =>
      if l =? 0 then throw (JsError "No active loan for this item") else
      transaction (
        prisma.loan_update_returnedAt l (now env);;
        count ← prisma.item_updateMany_currentLoanId i (Some l) None;
        if count =? 0
        then throw (JsError "Failed to return item. It may have been returned by another process.")
        else mret ());;
      mret Break
  | _ => throw (JsError "No active loan for this item")
  end.

Definition deleteItem (payload : json) : M outcome :=
  let id := get_field payload "id" in
  if negb (is_number id)
  then mret (Return (failure 400 "Item ID is required and must be a number.")) else
  i ← prisma.int_arg id;
  prisma.item_delete i;;
  mret Break.

(** [switch (action) { .. }]: the cases compare with [===]. *)
Definition switch (env : Env) (action payload : json) : M outcome :=
  match action with
  | JStr a =>
      if String.eqb a "createItemType" then createItemType payload
      else if String.eqb a "createCategory" then createCategory payload
      else if String.eqb a "createItem" then createItem payload
      else if String.eqb a "linkCategory" then linkCategory payload
      else if String.eqb a "unlinkCategory" then unlinkCategory payload
      else if String.eqb a "checkout" then checkout env payload
      else if String.eqb a "return" then return_ env payload
      else if String.eqb a "deleteItem" then deleteItem payload
      else mret (Return (failure 400 "Unknown action"))
  | _ => mret (Return (failure 400 "Unknown action"))
  end.

(** [!authHeader || !authHeader.startsWith('Bearer ') || token !== expected]
    with [token = authHeader?.split(' ')[1]]. *)
Definition unauthorized (authHeader : option string) (expected : string) : bool :=
  match authHeader with
  | None => true
  | Some h =>
      String.eqb h ""
      || negb (Js.startsWith h "Bearer ")
      || match Js.split " " h !! 1%nat with
         | Some token => negb (String.eqb token expected)
         | None => true
         end
  end.

(** The body of the [try]. *)
Definition try_block (env : Env) (req : Request) : M Response :=
  match NEXT_PUBLIC_DEMO_AUTH_TOKEN env with
  | None | Some EmptyString =>
      mret (failure 500 "Server configuration error: Authentication token not set.")
  | Some expected =>
      if String.eqb (method req) "GET" then
        snapshot ← getSnapshot; mret (success snapshot)
      else if negb (String.eqb (method req) "POST") then
        mret (failure 405 "Method not allowed")
      else if unauthorized (authorization req) expected then
        mret (failure 401 "Unauthorized: Invalid or missing token.")
      else
        match body req with
        | JUndefined | JNull =>
            throw (JsError "Cannot destructure property 'action' of 'req.body'.")
        | b =>
            let action := get_field b "action" in
            let payload := get_field b "payload" in
            if negb (truthy action) || negb (truthy payload) then
              mret (failure 400 "Action and payload are required.")
            else
              o ← switch env action payload;
              match o with
              | Return r => mret r
              | Break => snapshot ← getSnapshot; mret (success snapshot)
              end
        end
  end.

(** The [catch]: P2025 becomes 404, every other exception 400 with its message. *)
Definition catch_block (e : exn) : Response :=
  match e with
  | PrismaKnown code m =>
      if String.eqb code "P2025" then failure 404 "Record not found" else failure 400 m
  | _ => failure 400 (exn_message e)
  end.

Definition handler (env : Env) (req : Request) (db : Db) : Response * Db :=
  match try_block env req db with
  | (inr r, db') => (r, db')
  | (inl e, db') => (catch_block e, db')
  end.

(** ** Integrity constraints and the loan invariant *)

(** The part of the schema the proofs rely on: the SERIAL sequences start
    at 1 and end with INT_MAX, the keys of the four tables lie below their
    sequence (so they are INTEGER values), and the foreign keys
    item -> item_type, item -> loan ([current_loan_id]) and loan -> item hold. *)
Record integrity (db : Db) : Prop := mkIntegrity {
  serial_start : 1 ≤ item_id_seq (seqs db) ∧ 1 ≤ loan_id_seq (seqs db);
  serial_range :
    1 ≤ item_type_id_seq (seqs db) ≤ INT_MAX + 1 ∧
    1 ≤ category_id_seq (seqs db) ≤ INT_MAX + 1 ∧
    item_id_seq (seqs db) ≤ INT_MAX + 1 ∧ loan_id_seq (seqs db) ≤ INT_MAX + 1;
  item_type_pkey : ∀ k r,
    itemTypes (rows db) !! k = Some r → 1 ≤ k < item_type_id_seq (seqs db);
  category_pkey : ∀ k r,
    categories (rows db) !! k = Some r → 1 ≤ k < category_id_seq (seqs db);
  item_pkey : ∀ i it, items (rows db) !! i = Some it → 1 ≤ i < item_id_seq (seqs db);
  item_item_type_id_fkey : ∀ i it,
    items (rows db) !! i = Some it → is_Some (itemTypes (rows db) !! Item.itemTypeId it);
  item_current_loan_id_fkey : ∀ i it l,
    items (rows db) !! i = Some it → Item.currentLoanId it = Some l →
    is_Some (loans (rows db) !! l);
  loan_pkey : ∀ l ln, loans (rows db) !! l = Some ln → 1 ≤ l < loan_id_seq (seqs db);
  loan_item_id_fkey : ∀ l ln,
    loans (rows db) !! l = Some ln → is_Some (items (rows db) !! Loan.itemId ln) }.

(** An open loan of item [i]. *)
Definition open_loan (s : Store) (i l : Z) : Prop :=
  ∃ ln, loans s !! l = Some ln ∧ Loan.itemId ln = i ∧ Loan.returnedAt ln = None.

(** The item is on loan when some open loan references it. *)
Definition on_loan (s : Store) (i : Z) : Prop := ∃ l, open_loan s i l.

(** The loan invariant: for every item, currentLoanId is non-null iff the
    item is on loan; when non-null it names an open loan of that item; and
    the item has at most one open loan. *)
Definition state_invariant (s : Store) : Prop :=
  ∀ i it, items s !! i = Some it →
    (is_Some (Item.currentLoanId it) ↔ on_loan s i) ∧
    (∀ l, Item.currentLoanId it = Some l → open_loan s i l) ∧
    (∀ l1 l2, open_loan s i l1 → open_loan s i l2 → l1 = l2).

(** ** Requests that reach the switch *)

(** The request is a POST carrying the configured bearer token, and its body
    names [action] with [payload]. *)
Definition accepted (env : Env) (req : Request) (action payload : json) : Prop :=
  (∃ expected, NEXT_PUBLIC_DEMO_AUTH_TOKEN env = Some expected ∧ expected ≠ EmptyString ∧
               unauthorized (authorization req) expected = false) ∧
  method req = "POST"%string ∧
  get_field (body req) "action" = action ∧
  get_field (body req) "payload" = payload ∧
  truthy action = true ∧ truthy payload = true.

(** The action names of the switch. *)
Definition known_actions : list string :=
  ["createItemType"; "createCategory"; "createItem"; "linkCategory";
   "unlinkCategory"; "checkout"; "return"; "deleteItem"]%string.

(** ** Sample data: the seed data, as the seed script inserts it into a
    fresh database *)

Definition seed : Db :=
  mkDb
    (mkStore
       (list_to_map [(1, ItemType.mk "BOOK" "Book"); (2, ItemType.mk "ELEC" "Electronics")])
       (list_to_map [(1, Category.mk "FICT" "Fiction" None);
                     (2, Category.mk "SCIFI" "Science Fiction" (Some 1))])
       (list_to_map [(1, Item.mk "The Hitchhiker's Guide to the Galaxy" 1 None (Some 1) None);
                     (2, Item.mk "Laptop Pro X" 2 (Some "Ford Prefect"%string) None None);
                     (3, Item.mk "Learning Prisma" 1 None None None)])
       (list_to_map [(1, Loan.mk 1 "Arthur Dent" 20301 None)])
       (list_to_set [(1, 1); (2, 1); (1, 3)]))
    (mkSeq 3 3 4 2).

(** The seed once the loan sequence has handed out its last value. *)
Definition seed_exhausted : Db := mkDb (rows seed) (mkSeq 3 3 4 (INT_MAX + 1)).

Definition demo_env : Env := mkEnv (Some "demo-token"%string) 1754042400000.

(** A POST of [{ action, payload }] with the demo token. *)
Definition post (action : string) (payload : list (string * json)) : Request :=
  mkRequest "POST" (Some "Bearer demo-token"%string)
    (JObj [("action"%string, JStr action); ("payload"%string, JObj payload)]).

(** ** Derived notions used by the statements *)

(** The rows the items query visits: every item, by ascending id. *)
Definition item_rows (s : Store) : list (Z * Item.t) :=
  merge_sort by_id (map_to_list (items s)).

Definition configured (env : Env) (expected : string) : Prop :=
  NEXT_PUBLIC_DEMO_AUTH_TOKEN env = Some expected ∧ expected ≠ EmptyString.

(** What the handler answers once the switch has run. *)
Definition respond (r : (exn + outcome) * Db) : Response * Db :=
  match r with
  | (inl e, db') => (catch_block e, db')
  | (inr (Return resp), db') => (resp, db')
  | (inr Break, db') =>
      match getSnapshot db' with
      | (inr snapshot, db'') => (success snapshot, db'')
      | (inl e, db'') => (catch_block e, db'')
      end
  end.

(** The database once [nextval] of the loan sequence was taken. *)
Definition loan_seq_advanced (db : Db) : Db := (nextval_loan db).2.

(** The rows after a successful checkout of item [i] to [p] under loan id [l]. *)
Definition checked_out (today i : Z) (it : Item.t) (p : string) (l : Z) (s : Store) : Store :=
  set_items <[i := Item.with_currentLoanId (Some l) it]>
    (set_loans <[l := Loan.mk i p today None]> s).

(** The rows after loan [l] of item [i] was returned at time [t]. *)
Definition returned (t i : Z) (it : Item.t) (l : Z) (ln : Loan.t) (s : Store) : Store :=
  set_items <[i := Item.with_currentLoanId None it]>
    (set_loans <[l := Loan.with_returnedAt (Some t) ln]> s).

(** The Loan rows of item [i]. *)
Definition loans_of (s : Store) (i : Z) : gmap Z Loan.t :=
  filter (λ kv, Loan.itemId kv.2 = i) (loans s).

(** The rows after item [i] was deleted. *)
Definition deleted (i : Z) (s : Store) : Store :=
  mkStore (itemTypes s) (categories s)
    (prisma.current_loan_set_null (loans s) i <$> delete i (items s))
    (filter (λ kv, Loan.itemId kv.2 ≠ i) (loans s))
    (filter (λ p, p.2 ≠ i) (itemToCategory s)).

(** The changes one request can make to the rows. *)
Inductive step (s : Store) : Store → Prop :=
| step_stay :
    step s s
| step_catalogue s' :
    (* createItemType, createCategory, linkCategory, unlinkCategory *)
    items s' = items s → loans s' = loans s → step s s'
| step_createItem k r :
    items s !! k = None → Item.currentLoanId r = None →
    step s (set_items <[k := r]> s)
| step_checkout today i it p l :
    items s !! i = Some it → Item.currentLoanId it = None → loans s !! l = None →
    step s (checked_out today i it p l s)
| step_return t i it l ln :
    items s !! i = Some it → Item.currentLoanId it = Some l → loans s !! l = Some ln →
    step s (returned t i it l ln s)
| step_deleteItem i it :
    items s !! i = Some it → step s (deleted i s).

(** The invariant, said once: the open loans of an item are exactly the one
    its currentLoanId names. *)
Definition pointer_invariant (s : Store) : Prop :=
  ∀ i it l, items s !! i = Some it → (Item.currentLoanId it = Some l ↔ open_loan s i l).

(** The action names as the specification spells them. *)
Definition spec_action_names : list string :=
  ["create-item-type"; "create-category"; "create-item"; "link-category";
   "unlink-category"; "checkout"; "return"; "delete-item"]%string.

(** The states the handler can reach from [db0]. *)
Inductive reachable (db0 : Db) : Db → Prop :=
| reachable_start : reachable db0 db0
| reachable_request env req db :
    reachable db0 db → reachable db0 (handler env req db).2.

(** The database right after the migrations. *)
Definition empty_db : Db := mkDb (mkStore ∅ ∅ ∅ ∅ ∅) (mkSeq 1 1 1 1).

(** ** Notions used by the further properties *)

(** No sequence has moved backwards. *)
Definition seqs_le (q q' : Sequences) : Prop :=
  item_type_id_seq q ≤ item_type_id_seq q' ∧ category_id_seq q ≤ category_id_seq q' ∧
  item_id_seq q ≤ item_id_seq q' ∧ loan_id_seq q ≤ loan_id_seq q'.

(** How a case of the switch can end: an exception or a [return] with status
    400, both with the rows as they were, or a [break]. *)
Definition case_ends (db : Db) (x : (exn + outcome) * Db) : Prop :=
  seqs_le (seqs db) (seqs x.2) ∧
  match x.1 with
  | inl _ => rows x.2 = rows db
  | inr (Return r) => x.2 = db ∧ ∃ msg, r = failure 400 msg
  | inr Break => True
  end.

(** The character occurs in the string. *)
Fixpoint contains (c : ascii) (s : string) : bool :=
  match s with
  | EmptyString => false
  | String a r => Ascii.eqb a c || contains c r
  end.

(** Every character of the string is white space. *)
Fixpoint all_ws (s : string) : bool :=
  match s with
  | EmptyString => true
  | String a r => Js.is_ws a && all_ws r
  end.

(** The integer the client makes of a number. *)
Definition integer_of (v : json) : option Z :=
  match v with
  | JNum n | JFloat n => Some n
  | _ => None
  end.

(** The optional id a JSON value stands for: absent, an integer, or neither. *)
Definition optional_id (v : json) : option (option Z) :=
  match v with
  | JUndefined | JNull => Some None
  | JNum n => Some (Some n)
  | _ => None
  end.

(** The optional text a JSON value stands for once white-space-only strings
    count as absent. *)
Definition optional_text (v : json) : option (option string) :=
  match v with
  | JUndefined | JNull => Some None
  | JStr s => Some (if all_ws s then None else Some s)
  | _ => None
  end.

(** The optional id an optional [Int] argument stands for. *)
Definition optional_int (v : json) : option (option Z) :=
  match v with
  | JUndefined | JNull => Some None
  | _ => Some <$> integer_of v
  end.

(** What the mutation of each action name does to the rows, with the
    arguments the payload carries: the row a create action adds gets a key
    that was free, a link or unlink moves one pair of an existing item, and
    checkout, return and delete act on the item the payload names. *)
Inductive mutation (env : Env) (payload : json) : string → Store → Store → Prop :=
| mutation_createItemType s k c n :
    itemTypes s !! k = None →
    get_field payload "code" = JStr c → get_field payload "name" = JStr n →
    mutation env payload "createItemType" s (set_itemTypes <[k := ItemType.mk c n]> s)
| mutation_createCategory s k c n po :
    categories s !! k = None →
    get_field payload "code" = JStr c → get_field payload "name" = JStr n →
    optional_int (get_field payload "parentId") = Some po →
    mutation env payload "createCategory" s (set_categories <[k := Category.mk c n po]> s)
| mutation_createItem s k t ty r :
    items s !! k = None →
    get_field payload "title" = JStr t →
    integer_of (get_field payload "itemTypeId") = Some ty →
    optional_text (get_field payload "requestedBy") = Some r →
    mutation env payload "createItem" s (set_items <[k := Item.mk t ty r None None]> s)
| mutation_linkCategory s i c :
    integer_of (get_field payload "itemId") = Some i →
    integer_of (get_field payload "categoryId") = Some c →
    is_Some (items s !! i) → is_Some (categories s !! c) →
    mutation env payload "linkCategory" s (set_itemToCategory (λ j, {[ (c, i) ]} ∪ j) s)
| mutation_unlinkCategory s i c :
    integer_of (get_field payload "itemId") = Some i →
    integer_of (get_field payload "categoryId") = Some c →
    is_Some (items s !! i) →
    mutation env payload "unlinkCategory" s (set_itemToCategory (λ j, j ∖ {[ (c, i) ]}) s)
| mutation_checkout s i it p l :
    integer_of (get_field payload "itemId") = Some i →
    get_field payload "patronName" = JStr p →
    items s !! i = Some it → Item.currentLoanId it = None → loans s !! l = None →
    mutation env payload "checkout" s (checked_out (Date.day_of (now env)) i it p l s)
| mutation_return s i it l ln :
    integer_of (get_field payload "itemId") = Some i →
    items s !! i = Some it → Item.currentLoanId it = Some l → loans s !! l = Some ln →
    mutation env payload "return" s (returned (now env) i it l ln s)
| mutation_deleteItem s i :
    integer_of (get_field payload "id") = Some i →
    is_Some (items s !! i) →
    mutation env payload "deleteItem" s (deleted i s).

(** ** The shared client (src/lib/prisma.ts)

    A [PrismaClient] is named by the order of its construction; the process
    holds [globalThis.prisma], the number of clients constructed so far and
    NODE_ENV. *)

Module PrismaModule.

Record Process : Type := mkProcess {
  globalForPrisma : option nat;      (* globalThis.prisma *)
  constructed : nat;                 (* calls of [new PrismaClient()] so far *)
  NODE_ENV : option string }.

(** One evaluation of the module: the exported [prisma] and the process after. *)
Definition load (p : Process) : nat * Process :=
  let '(prisma, n) :=
    match globalForPrisma p with
    | Some c => (c, constructed p)
    | None => (constructed p, S (constructed p))
    end in
  (prisma,
   if decide (NODE_ENV p = Some "production"%string)
   then mkProcess (globalForPrisma p) n (NODE_ENV p)
   else mkProcess (Some prisma) n (NODE_ENV p)).

(** [n] evaluations in a row (hot reloads): the clients exported, in order. *)
Fixpoint reload (n : nat) (p : Process) : list nat * Process :=
  match n with
  | O => ([], p)
  | S n' => let '(c, p') := load p in
            let '(cs, p'') := reload n' p' in (c :: cs, p'')
  end.

End PrismaModule.

(** ** The page (src/pages/index.tsx): its state and what it sends *)

Module Home.

Record State : Type := mkState {
  snap : option Types.Snapshot;
  busy : bool;
  error : option string }.

(** [data.message || fallback] *)
Definition message_or (m : option string) (fallback : string) : string :=
  match m with
  | Some (String a r) => String a r
  | _ => fallback
  end.

(** What [refresh] and [submit] do with the parsed response: on ok the
    snapshot replaces [snap] and [error] stays cleared; otherwise the message
    becomes [error]; [busy] is reset in both cases. *)
Definition receive (fallback : string) (data : Types.ApiResponse) (st : State) : State :=
  if Types.ok data then mkState (Types.snapshot data) false None
  else mkState (snap st) false (Some (message_or (Types.message data) fallback)).

(** [fetch('/api/actions')] *)
Definition refresh (env : Env) (st : State) (db : Db) : State * Db :=
  let '(res, db') := handler env (mkRequest "GET" None JUndefined) db in
  (receive "Failed to load" (json_body res) st, db').

(** The request [submit] sends; the token is inlined into the page, and an
    undefined one prints as "undefined". *)
Definition submit_request (env : Env) (action : string) (payload : list (string * json))
  : Request :=
  mkRequest "POST"
    (Some ("Bearer " +:+ default "undefined"%string (NEXT_PUBLIC_DEMO_AUTH_TOKEN env)))
    (JObj [("action"%string, JStr action); ("payload"%string, JObj payload)]).

Definition submit (env : Env) (action : string) (payload : list (string * json))
  (st : State) (db : Db) : State * Db :=
  let '(res, db') := handler env (submit_request env action payload) db in
  (receive "Request failed" (json_body res) st, db').

(** [(snap?.items || []).filter(i => !i.currentLoan)] *)
Definition availableItems (snap : option Types.Snapshot) : list (Types.Item.t string) :=
  filter (λ i, Types.Item.currentLoan i = None)
    (match snap with Some s => Types.items s | None => [] end).

(** [items.filter(i => !!i.currentLoan)] of the return form *)
Definition withLoans (items : list (Types.Item.t string)) : list (Types.Item.t string) :=
  filter (λ i, is_Some (Types.Item.currentLoan i)) items.

(** [Number(id)] on the [number | null] a select holds. *)
Definition Number (v : option Z) : Z := default 0 v.

(** What the forms hand to [submit]. *)
Definition onCheckout (itemId : option Z) (patronName : string) : list (string * json) :=
  [("itemId"%string, JNum (Number itemId)); ("patronName"%string, JStr patronName)].
Definition onReturn (itemId : option Z) : list (string * json) :=
  [("itemId"%string, JNum (Number itemId))].
Definition onLink (itemId categoryId : option Z) : list (string * json) :=
  [("itemId"%string, JNum (Number itemId)); ("categoryId"%string, JNum (Number categoryId))].

(** The badge of an item in the list. *)
Definition loan_badge (i : Types.Item.t string) : string :=
  match Types.Item.currentLoan i with
  | Some ln => "Loaned to " +:+ Types.Loan.patronName ln
  | None => "Available"
  end.

(** The page shows the database as it is: its snapshot, when set, is the
    snapshot of the rows. *)
Definition in_sync (st : State) (db : Db) : Prop :=
  ∀ s, snap st = Some s → getSnapshot db = (inr s, db).

End Home.

(** * Properties *)

(** ** The monad *)

Lemma db_eta (db : Db) : mkDb (rows db) (seqs db) = db.
Proof. by destruct db. Qed.

(** Unfolds the monad and the statement combinators. *)
Ltac run :=
  unfold mbind, M_bind, mret, M_ret, throw, statement, transaction,
    nextval_item_type, nextval_category, nextval_item, nextval_loan in *;
  cbn [rows seqs fst snd item_type_id_seq category_id_seq item_id_seq loan_id_seq] in *.

(** ** INTEGER arguments and keys *)

Lemma int4_spec (n : Z) : int4 n = true ↔ - INT_MAX - 1 ≤ n ≤ INT_MAX.
Proof. unfold int4. rewrite andb_true_iff, !Z.leb_le. tauto. Qed.

Lemma integer_of_JNum (v : json) (n : Z) : v = JNum n → integer_of v = Some n.
Proof. by intros ->. Qed.

#[local] Hint Extern 0 (integer_of _ = Some _) => apply integer_of_JNum; assumption : core.

Lemma is_number_integer_of (v : json) : is_number v = bool_decide (is_Some (integer_of v)).
Proof. destruct v; cbn; try done; by rewrite bool_decide_eq_false_2 by by intros [??]. Qed.

Lemma int_arg_run (v : json) (n : Z) (db : Db) :
  integer_of v = Some n →
  prisma.int_arg v db = (if int4 n then inr n else inl P2020, db).
Proof. destruct v; intros [= ->]; cbn; by destruct (int4 n). Qed.

(** Keys are INTEGER values. *)
Lemma item_type_int4 db k r :
  integrity db → itemTypes (rows db) !! k = Some r → int4 k = true.
Proof.
  intros Hdb Hk. apply (item_type_pkey _ Hdb) in Hk.
  pose proof (serial_range _ Hdb). apply int4_spec. unfold INT_MAX in *. lia.
Qed.

Lemma category_int4 db k r :
  integrity db → categories (rows db) !! k = Some r → int4 k = true.
Proof.
  intros Hdb Hk. apply (category_pkey _ Hdb) in Hk.
  pose proof (serial_range _ Hdb). apply int4_spec. unfold INT_MAX in *. lia.
Qed.

Lemma item_int4 db k r :
  integrity db → items (rows db) !! k = Some r → int4 k = true.
Proof.
  intros Hdb Hk. apply (item_pkey _ Hdb) in Hk.
  pose proof (serial_range _ Hdb). apply int4_spec. unfold INT_MAX in *. lia.
Qed.

(** ** The snapshot reader *)

Section traverse.
Context {A B : Type} (f : A → exn + B).

Lemma traverse_inr l ys :
  traverse f l = inr ys → Forall2 (λ x y, f x = inr y) l ys.
Proof.
  revert ys. induction l as [|x l IH]; intros ys; simpl.
  - intros [= <-]. constructor.
  - destruct (f x) as [e|y] eqn:Hx; [done|].
    destruct (traverse f l) as [e|ys'] eqn:Hl; [done|].
    intros [= <-]. constructor; auto.
Qed.

Lemma traverse_total l :
  (∀ x, x ∈ l → ∃ y, f x = inr y) → ∃ ys, traverse f l = inr ys.
Proof.
  induction l as [|x l IH]; intros Hl; simpl; [by eexists|].
  destruct (Hl x) as [y ->]; [by left|].
  destruct IH as [ys ->]; [|by eexists].
  intros x' Hx'. apply Hl. by right.
Qed.
End traverse.

Lemma select_item_total (s : Store) (row : Z * Item.t) :
  is_Some (itemTypes s !! Item.itemTypeId row.2) → ∃ y, select_item s row = inr y.
Proof.
  destruct row as [k it]. simpl. intros [ty Hty].
  unfold select_item. rewrite Hty. by eexists.
Qed.

Lemma select_item_inr (s : Store) (k : Z) (it : Item.t) (y : Types.Item.t Z) :
  select_item s (k, it) = inr y →
  Types.Item.id y = k ∧
  Types.Item.currentLoan y =
    match Item.currentLoanId it with
    | Some l =>
        (λ ln, Types.Loan.mk l (Loan.patronName ln) (Date.of_day (Loan.checkoutDate ln)))
          <$> loans s !! l
    | None => None
    end.
Proof.
  unfold select_item. destruct (itemTypes s !! Item.itemTypeId it); [|done].
  by intros [= <-].
Qed.

Lemma getSnapshot_unchanged (db : Db) r db' : getSnapshot db = (r, db') → db' = db.
Proof.
  unfold getSnapshot. run.
  destruct (traverse _ _); intros [= _ <-]; [done|apply db_eta].
Qed.

Lemma elem_of_item_rows (s : Store) k it :
  (k, it) ∈ item_rows s ↔ items s !! k = Some it.
Proof.
  unfold item_rows. rewrite merge_sort_Permutation. apply elem_of_map_to_list.
Qed.

#[global] Instance by_id_total : Total by_id.
Proof. intros a b. unfold by_id. lia. Qed.



Lemma getSnapshot_inr (db : Db) snap db' :
  getSnapshot db = (inr snap, db') →
  ∃ sel,
    Forall2 (λ row y, select_item (rows db) row = inr y) (item_rows (rows db)) sel ∧
    snap =
      Types.mkSnapshot
        ((λ r, Types.ItemType.mk r.1 (ItemType.code r.2) (ItemType.name r.2))
           <$> map_to_list (itemTypes (rows db)))
        ((λ r, Types.Category.mk r.1 (Category.code r.2) (Category.name r.2)
                 (Category.parentId r.2))
           <$> map_to_list (categories (rows db)))
        (isoItem <$> sel).
Proof.
  unfold getSnapshot. run. fold (item_rows (rows db)).
  destruct (traverse _ _) as [e|sel] eqn:Hsel; [done|].
  intros [= <- _]. exists sel. split; [by apply traverse_inr|done].
Qed.

Lemma getSnapshot_ok (db : Db) :
  (∀ i it, items (rows db) !! i = Some it →
           is_Some (itemTypes (rows db) !! Item.itemTypeId it)) →
  ∃ snap, getSnapshot db = (inr snap, db).
Proof.
  intros Hfk. unfold getSnapshot. run. fold (item_rows (rows db)).
  destruct (traverse_total (select_item (rows db)) (item_rows (rows db))) as [sel ->].
  - intros [k it] Hin. apply select_item_total. simpl.
    apply elem_of_item_rows in Hin. eauto.
  - rewrite db_eta. by eexists.
Qed.

(** ** Dates *)

Lemma string_app_length (s1 s2 : string) :
  String.length (s1 +:+ s2) = (String.length s1 + String.length s2)%nat.
Proof. induction s1 as [|a s1 IH]; simpl; [done|]. by rewrite IH. Qed.

Lemma pad_length k n : String.length (Date.pad k n) = k.
Proof.
  revert n. induction k as [|k IH]; intros n; simpl; [done|].
  rewrite string_app_length, IH. simpl. lia.
Qed.

(** The rendering has a fixed width: 24 characters for the years 0 to 9999,
    27 with the signed six-digit year. *)
Lemma toISOString_length (t : Z) :
  String.length (Date.toISOString t) =
    let y := (Date.civil (t / Date.msPerDay)).1.1 in
    if (0 <=? y) && (y <=? 9999) then 24%nat else 27%nat.
Proof.
  unfold Date.toISOString. destruct (Date.civil _) as [[y m] d]. cbn [fst snd].
  rewrite !string_app_length, !pad_length. unfold Date.year_string.
  destruct ((0 <=? y) && (y <=? 9999)).
  - by rewrite pad_length.
  - rewrite string_app_length, pad_length. by destruct (y <? 0).
Qed.


Lemma isoItem_id (y : Types.Item.t Z) : Types.Item.id (isoItem y) = Types.Item.id y.
Proof. done. Qed.

Lemma selected_ids (s : Store) rws (sel : list (Types.Item.t Z)) :
  Forall2 (λ row y, select_item s row = inr y) rws sel →
  Types.Item.id <$> (isoItem <$> sel) = rws.*1.
Proof.
  induction 1 as [|[k it] y rws sel Hy _ IH]; [done|].
  csimpl. apply select_item_inr in Hy as [-> _]. by rewrite IH.
Qed.


Lemma integrity_seed : integrity seed.
Proof.
  split; [done|by vm_compute|..]; intros k r; [| | | |intros l| |];
    (intros Hk; apply elem_of_map_to_list in Hk;
     let lt := eval vm_compute in (map_to_list (itemTypes (rows seed))) in
     let lc := eval vm_compute in (map_to_list (categories (rows seed))) in
     let ls := eval vm_compute in (map_to_list (items (rows seed))) in
     let ll := eval vm_compute in (map_to_list (loans (rows seed))) in
     first [change (map_to_list (itemTypes (rows seed))) with lt in Hk
           |change (map_to_list (categories (rows seed))) with lc in Hk
           |change (map_to_list (items (rows seed))) with ls in Hk
           |change (map_to_list (loans (rows seed))) with ll in Hk];
     set_unfold in Hk; destruct_or?; simplify_eq; cbn; try done; try lia;
     try (intros [= <-]); by vm_compute; eauto).
Qed.

Lemma integrity_seed_exhausted : integrity seed_exhausted.
Proof.
  pose proof integrity_seed as H.
  split; try apply H; cbn; try done.
  intros l ln Hl. apply (loan_pkey _ H) in Hl. cbn in Hl. unfold INT_MAX. lia.
Qed.


(** ** The gate in front of the switch *)

Lemma handler_GET env req expected db :
  configured env expected → method req = "GET"%string →
  handler env req db =
    match getSnapshot db with
    | (inr snapshot, db') => (success snapshot, db')
    | (inl e, db') => (catch_block e, db')
    end.
Proof.
  intros [Htok Hne] Hget. unfold handler, try_block. rewrite Htok, Hget.
  destruct expected; [done|]. run. cbn. by destruct (getSnapshot db) as [[e|snap] db'].
Qed.

Lemma handler_unauthorized env req expected db :
  configured env expected → method req = "POST"%string →
  unauthorized (authorization req) expected = true →
  handler env req db = (failure 401 "Unauthorized: Invalid or missing token.", db).
Proof.
  intros [Htok Hne] Hpost Hun. unfold handler, try_block. rewrite Htok, Hpost.
  destruct expected; [done|]. cbn. by rewrite Hun.
Qed.

Lemma handler_accepted env req action payload db :
  accepted env req action payload →
  handler env req db = respond (switch env action payload db).
Proof.
  intros ((expected & Htok & Hne & Hauth) & Hpost & Hact & Hpay & Ha & Hp).
  unfold handler, try_block. rewrite Htok, Hpost.
  destruct expected; [done|]. cbn. rewrite Hauth. subst action payload.
  destruct (body req) as [| | | | | | |fields]; try done.
  cbn [get_field] in *. rewrite Ha, Hp. run. cbn [negb orb].
  destruct (switch env _ _ db) as [[e|[r|]] db']; cbn; try done.
  by destruct (getSnapshot db') as [[e'|snap] db''].
Qed.



(** ** Validation of text fields *)

Lemma length_eqb_0 (s : string) : Nat.eqb (String.length s) 0 = bool_decide (s = EmptyString).
Proof. by destruct s. Qed.

Lemma blank_JStr (p : string) (db : Db) :
  blank (JStr p) db = (inr (bool_decide (Js.trim p = EmptyString)), db).
Proof.
  unfold blank. cbn [truthy]. destruct p as [|a p]; [done|].
  cbn [String.eqb negb]. run. by rewrite length_eqb_0.
Qed.

Lemma blank_ok (p : string) (db : Db) :
  Js.trim p ≠ EmptyString → blank (JStr p) db = (inr false, db).
Proof. intros Hp. rewrite blank_JStr. by rewrite bool_decide_eq_false_2. Qed.

(** Whatever the value, the test throws, or answers without touching the
    database. *)
Lemma blank_cases (v : json) (db : Db) :
  (∃ e, blank v db = (inl e, db) ∧ catch_block e = failure 400 (exn_message e)) ∨
  blank v db = (inr true, db) ∨
  (∃ p, v = JStr p ∧ Js.trim p ≠ EmptyString ∧ blank v db = (inr false, db)).
Proof.
  destruct v as [| |[]|n| |p| |].
  7: { rewrite blank_JStr.
       destruct (decide (Js.trim p = EmptyString)) as [Hp|Hp].
       - rewrite bool_decide_eq_true_2 by done. by right; left.
       - rewrite bool_decide_eq_false_2 by done. right; right. by exists p. }
  all: unfold blank; cbn [truthy negb]; run;
    try (by right; left); try (by left; eexists).
  destruct (n =? 0); cbn [negb]; [by right; left|by left; eexists].
Qed.

(** ** checkout *)

Lemma checkout_run env payload db i p :
  integer_of (get_field payload "itemId") = Some i →
  get_field payload "patronName" = JStr p →
  Js.trim p ≠ EmptyString →
  checkout env payload db =
    if negb (int4 i) then (inl P2020, db)
    else if negb (loan_id_seq (seqs db) <=? INT_MAX) then (inl sequence_exhausted, db)
    else
    let l := loan_id_seq (seqs db) in
    let q := seqs (loan_seq_advanced db) in
    match loans (rows db) !! l, items (rows db) !! i with
    | Some _, _ => (inl P2002, mkDb (rows db) q)
    | None, None => (inl P2003, mkDb (rows db) q)
    | None, Some it =>
        match Item.currentLoanId it with
        | Some _ => (inl (JsError "Item already loaned or does not exist"), mkDb (rows db) q)
        | None =>
            if decide (map_Exists (λ k r, k ≠ i ∧ Item.currentLoanId r = Some l)
                         (items (rows db)))
            then (inl P2002, mkDb (rows db) q)
            else (inr Break, mkDb (checked_out (Date.day_of (now env)) i it p l (rows db)) q)
        end
    end.
Proof.
  intros Hi Hp Hne. unfold checkout. rewrite is_number_integer_of, Hi, Hp.
  rewrite bool_decide_eq_true_2 by eauto. cbn [negb].
  unfold mbind at 1, M_bind at 1. rewrite blank_ok by done.
  unfold mbind at 1, M_bind at 1, transaction.
  unfold mbind at 1, M_bind at 1. rewrite (int_arg_run _ i) by done.
  destruct (int4 i); cbn [negb]; [|by rewrite db_eta].
  unfold prisma.loan_create, prisma.item_updateMany_currentLoanId, string_arg.
  unfold loan_seq_advanced. run.
  destruct (loan_id_seq (seqs db) <=? INT_MAX); cbn [negb]; [|by rewrite db_eta].
  cbn.
  destruct (loans (rows db) !! loan_id_seq (seqs db)) as [ln|] eqn:Hl.
  { by rewrite decide_True by eauto. }
  rewrite decide_False by (by intros [? ?]).
  destruct (items (rows db) !! i) as [it|] eqn:Hit.
  2: { by rewrite decide_False by (by intros [? ?]). }
  rewrite decide_True by eauto. cbn. rewrite Hit.
  destruct (Item.currentLoanId it) as [l'|] eqn:Hcur.
  { by rewrite decide_False by done. }
  rewrite decide_True by done.
  destruct (decide (map_Exists _ _)); [done|].
  rewrite lookup_insert_eq. by rewrite decide_True by eauto.
Qed.

Lemma loan_seq_advanced_seqs db :
  loan_id_seq (seqs db) ≤ INT_MAX →
  seqs (loan_seq_advanced db) =
    mkSeq (item_type_id_seq (seqs db)) (category_id_seq (seqs db)) (item_id_seq (seqs db))
      (loan_id_seq (seqs db) + 1).
Proof.
  intros Hseq. unfold loan_seq_advanced, nextval_loan.
  by rewrite (proj2 (Z.leb_le _ _) Hseq).
Qed.

Lemma fresh_loan_id db : integrity db → loans (rows db) !! loan_id_seq (seqs db) = None.
Proof.
  intros Hdb. destruct (loans (rows db) !! _) as [ln|] eqn:Hl; [|done].
  apply (loan_pkey _ Hdb) in Hl. lia.
Qed.

Lemma fresh_loan_unreferenced db i :
  integrity db →
  ¬ map_Exists (λ k r, k ≠ i ∧ Item.currentLoanId r = Some (loan_id_seq (seqs db)))
      (items (rows db)).
Proof.
  intros Hdb (k & r & Hk & _ & Hcur).
  destruct (item_current_loan_id_fkey _ Hdb _ _ _ Hk Hcur) as [ln Hln].
  by rewrite fresh_loan_id in Hln.
Qed.

Lemma checkout_available env payload db i it p :
  integrity db →
  loan_id_seq (seqs db) ≤ INT_MAX →
  get_field payload "itemId" = JNum i →
  get_field payload "patronName" = JStr p →
  Js.trim p ≠ EmptyString →
  items (rows db) !! i = Some it → Item.currentLoanId it = None →
  checkout env payload db =
    (inr Break,
     mkDb (checked_out (Date.day_of (now env)) i it p (loan_id_seq (seqs db)) (rows db))
          (seqs (loan_seq_advanced db))).
Proof.
  intros Hdb Hseq Hi Hp Hne Hit Hcur. rewrite (checkout_run env payload db i p) by done.
  rewrite (item_int4 db i it), (proj2 (Z.leb_le _ _) Hseq) by done. cbn [negb].
  cbv zeta. rewrite fresh_loan_id, Hit, Hcur by done.
  by rewrite decide_False by by apply fresh_loan_unreferenced.
Qed.

Lemma checkout_on_loan env payload db i it l p :
  integrity db →
  loan_id_seq (seqs db) ≤ INT_MAX →
  get_field payload "itemId" = JNum i →
  get_field payload "patronName" = JStr p →
  Js.trim p ≠ EmptyString →
  items (rows db) !! i = Some it → Item.currentLoanId it = Some l →
  checkout env payload db =
    (inl (JsError "Item already loaned or does not exist"),
     mkDb (rows db) (seqs (loan_seq_advanced db))).
Proof.
  intros Hdb Hseq Hi Hp Hne Hit Hcur. rewrite (checkout_run env payload db i p) by done.
  rewrite (item_int4 db i it), (proj2 (Z.leb_le _ _) Hseq) by done. cbn [negb].
  cbv zeta. by rewrite fresh_loan_id, Hit, Hcur by done.
Qed.

(** With the loan sequence exhausted, a checkout that passes the validation
    fails on [nextval] and nothing moves. *)
Lemma checkout_exhausted env payload db i it p :
  integrity db →
  INT_MAX < loan_id_seq (seqs db) →
  get_field payload "itemId" = JNum i →
  get_field payload "patronName" = JStr p →
  Js.trim p ≠ EmptyString →
  items (rows db) !! i = Some it →
  checkout env payload db = (inl sequence_exhausted, db).
Proof.
  intros Hdb Hseq Hi Hp Hne Hit. rewrite (checkout_run env payload db i p) by done.
  rewrite (item_int4 db i it) by done. cbn [negb].
  by rewrite (proj2 (Z.leb_gt _ _) Hseq).
Qed.

(** A checkout whose patron name does not pass the validation answers 400
    and leaves the database as it is. *)
Lemma checkout_patron_refused env payload db i :
  get_field payload "itemId" = JNum i →
  (∀ p, get_field payload "patronName" = JStr p → Js.trim p = EmptyString) →
  ∃ msg, respond (checkout env payload db) = (failure 400 msg, db).
Proof.
  intros Hi Hp. unfold checkout. rewrite Hi. cbn [is_number negb].
  unfold mbind at 1, M_bind at 1.
  destruct (blank_cases (get_field payload "patronName") db)
    as [(e & -> & He)|[->|(p & Hpn & Hne & _)]].
  - cbn. rewrite He. by eexists.
  - cbn. by eexists.
  - by apply Hp in Hpn.
Qed.

(** Integrity survives a successful checkout. *)
Lemma checkout_integrity today db i it p :
  integrity db →
  loan_id_seq (seqs db) ≤ INT_MAX →
  items (rows db) !! i = Some it →
  integrity (mkDb (checked_out today i it p (loan_id_seq (seqs db)) (rows db))
               (seqs (loan_seq_advanced db))).
Proof.
  intros Hdb Hseq Hit. pose proof (fresh_loan_id db Hdb) as Hfresh.
  pose proof (serial_start _ Hdb) as [? ?]. pose proof (serial_range _ Hdb) as (? & ? & ? & ?).
  split; unfold loan_seq_advanced, nextval_loan;
    rewrite (proj2 (Z.leb_le _ _) Hseq); cbn.
  - lia.
  - lia.
  - apply Hdb.
  - apply Hdb.
  - intros k r. rewrite lookup_insert. case_decide; intros; simplify_eq.
    + by apply (item_pkey _ Hdb) in Hit.
    + by eapply (item_pkey _ Hdb).
  - intros k r. rewrite lookup_insert. case_decide; intros; simplify_eq.
    + by apply (item_item_type_id_fkey _ Hdb) in Hit.
    + by eapply (item_item_type_id_fkey _ Hdb).
  - intros k r l. rewrite lookup_insert. case_decide; intros ? Hcur; simplify_eq.
    + cbn in Hcur. simplify_eq. rewrite lookup_insert_eq. by eexists.
    + rewrite lookup_insert. case_decide; [by eexists|].
      by eapply (item_current_loan_id_fkey _ Hdb).
  - intros l ln. rewrite lookup_insert. case_decide; intros Hl; simplify_eq; [lia|].
    apply (loan_pkey _ Hdb) in Hl. lia.
  - intros l ln. rewrite lookup_insert. case_decide; intros Hl; simplify_eq; cbn.
    + rewrite lookup_insert_eq. by eexists.
    + rewrite lookup_insert. case_decide; [by eexists|].
      by eapply (loan_item_id_fkey _ Hdb).
Qed.

Lemma respond_Break db :
  integrity db →
  ∃ snapshot, getSnapshot db = (inr snapshot, db) ∧
              respond (inr Break, db) = (success snapshot, db).
Proof.
  intros Hdb. destruct (getSnapshot_ok db) as [snap Hsnap]; [apply Hdb|].
  exists snap. split; [done|]. cbn. by rewrite Hsnap.
Qed.

(** C1, as amended: for every item whose currentLoanId is null, a checkout
    whose patron name is a string that is not empty after trimming succeeds
    as long as the loan id sequence has a value left: exactly one Loan row is
    added, under a fresh id, for that item, with returnedAt null, and the
    item's currentLoanId becomes that id; nothing else changes. *)
Theorem checkout_available_succeeds env req payload db i it p :
  integrity db →
  loan_id_seq (seqs db) ≤ INT_MAX →
  accepted env req (JStr "checkout") payload →
  get_field payload "itemId" = JNum i →
  get_field payload "patronName" = JStr p →
  Js.trim p ≠ EmptyString →
  items (rows db) !! i = Some it →
  Item.currentLoanId it = None →
  ∃ snapshot db',
    handler env req db = (success snapshot, db') ∧
    loans (rows db) !! loan_id_seq (seqs db) = None ∧
    loans (rows db') =
      <[loan_id_seq (seqs db) := Loan.mk i p (Date.day_of (now env)) None]> (loans (rows db)) ∧
    items (rows db') =
      <[i := Item.with_currentLoanId (Some (loan_id_seq (seqs db))) it]> (items (rows db)) ∧
    itemTypes (rows db') = itemTypes (rows db) ∧
    categories (rows db') = categories (rows db) ∧
    itemToCategory (rows db') = itemToCategory (rows db).
Proof.
  intros Hdb Hseq Hreq Hi Hp Hne Hit Hcur.
  rewrite (handler_accepted _ _ _ _ _ Hreq). cbn [switch String.eqb Ascii.eqb Bool.eqb].
  rewrite (checkout_available env payload db i it p) by done.
  destruct (respond_Break _ (checkout_integrity (Date.day_of (now env)) db i it p Hdb Hseq Hit))
    as (snap & _ & ->).
  eexists _, _. split; [done|]. split; [by apply fresh_loan_id|done].
Qed.

Lemma checkout_available_succeeds_witness :
  ∃ snapshot db',
    handler demo_env (post "checkout" [("itemId", JNum 2); ("patronName", JStr "Bob")]%string) seed
      = (success snapshot, db') ∧
    loans (rows db') = <[2 := Loan.mk 2 "Bob" 20301 None]> (loans (rows seed)).
Proof.
  destruct (checkout_available_succeeds demo_env
              (post "checkout" [("itemId", JNum 2); ("patronName", JStr "Bob")]%string)
              (JObj [("itemId", JNum 2); ("patronName", JStr "Bob")]%string)
              seed 2 (Item.mk "Laptop Pro X" 2 (Some "Ford Prefect"%string) None None) "Bob")
    as (snap & db' & H & _ & Hl & _).
  - apply integrity_seed.
  - by vm_compute.
  - split; [exists "demo-token"%string; split_and!; [reflexivity|done|reflexivity]|].
    split_and!; reflexivity.
  - reflexivity.
  - reflexivity.
  - done.
  - reflexivity.
  - reflexivity.
  - by exists snap, db'.
Defined.

(** C1 as stated fails twice over: a patron name of white space only is not
    empty, yet the checkout of an available item is refused; and once the
    loan id sequence has handed out its last value, a checkout of an
    available item with a proper patron name is refused too. *)
Lemma checkout_refused_counterexample :
  (∃ it, items (rows seed) !! 2 = Some it ∧ Item.currentLoanId it = None) ∧
  " "%string ≠ EmptyString ∧
  handler demo_env (post "checkout" [("itemId", JNum 2); ("patronName", JStr " ")]%string) seed
    = (failure 400 "Patron name is required.", seed) ∧
  integrity seed_exhausted ∧
  (∃ it, items (rows seed_exhausted) !! 2 = Some it ∧ Item.currentLoanId it = None) ∧
  status (handler demo_env
            (post "checkout" [("itemId", JNum 2); ("patronName", JStr "Bob")]%string)
            seed_exhausted).1
    = 400.
Proof.
  split_and!; [by eexists|done|by vm_compute|apply integrity_seed_exhausted|by eexists|
               by vm_compute].
Qed.

(** C2, as amended: a checkout of an item whose currentLoanId is non-null is
    refused (status 400) and leaves every row as it was: the Loan row created
    inside the transaction is rolled back and the item keeps its
    currentLoanId.  When the patron name passes the validation and the loan
    id sequence has a value left, the message is the already-loaned one. *)
Theorem checkout_on_loan_rejected env req payload db i it l :
  integrity db →
  accepted env req (JStr "checkout") payload →
  get_field payload "itemId" = JNum i →
  items (rows db) !! i = Some it →
  Item.currentLoanId it = Some l →
  ∃ msg db',
    handler env req db = (failure 400 msg, db') ∧
    rows db' = rows db ∧
    loans (rows db') = loans (rows db) ∧
    items (rows db') !! i = Some it ∧
    (∀ p, get_field payload "patronName" = JStr p → Js.trim p ≠ EmptyString →
          loan_id_seq (seqs db) ≤ INT_MAX →
          msg = "Item already loaned or does not exist"%string).
Proof.
  intros Hdb Hreq Hi Hit Hcur.
  rewrite (handler_accepted _ _ _ _ _ Hreq). cbn [switch String.eqb Ascii.eqb Bool.eqb].
  destruct (get_field payload "patronName") as [| | | | |p| |] eqn:Hp;
    try (destruct (checkout_patron_refused env payload db i Hi) as [msg ->];
         [by rewrite Hp|by exists msg, db]).
  destruct (decide (Js.trim p = EmptyString)) as [Hblank|Hne].
  - destruct (checkout_patron_refused env payload db i Hi) as [msg ->].
    + rewrite Hp. by intros ? [= <-].
    + exists msg, db. split_and!; try done. intros ? [= <-]. done.
  - destruct (Z.le_gt_cases (loan_id_seq (seqs db)) INT_MAX) as [Hseq|Hseq].
    + rewrite (checkout_on_loan env payload db i it l p) by done.
      eexists _, _. split; [reflexivity|]. split_and!; try done.
    + rewrite (checkout_exhausted env payload db i it p) by done.
      eexists _, _. split; [reflexivity|]. split_and!; try done. intros; lia.
Qed.

Lemma checkout_on_loan_rejected_witness :
  ∃ db',
    handler demo_env (post "checkout" [("itemId", JNum 1); ("patronName", JStr "Bob")]%string) seed
      = (failure 400 "Item already loaned or does not exist", db') ∧
    rows db' = rows seed.
Proof.
  destruct (checkout_on_loan_rejected demo_env
              (post "checkout" [("itemId", JNum 1); ("patronName", JStr "Bob")]%string)
              (JObj [("itemId", JNum 1); ("patronName", JStr "Bob")]%string)
              seed 1 (Item.mk "The Hitchhiker's Guide to the Galaxy" 1 None (Some 1) None) 1)
    as (msg & db' & H & Hrows & _ & _ & Hmsg).
  - apply integrity_seed.
  - split; [exists "demo-token"%string; split_and!; [reflexivity|done|reflexivity]|].
    split_and!; reflexivity.
  - reflexivity.
  - reflexivity.
  - reflexivity.
  - exists db'. rewrite <- (Hmsg "Bob"%string) by (done || by vm_compute). done.
Defined.

(** C2 as stated fails: the refusal is not always the already-loaned one.  A
    patron name that does not pass the validation is reported first, and so
    is a loan id sequence that has handed out its last value. *)
Lemma checkout_other_refusal_counterexample :
  (∃ it, items (rows seed) !! 1 = Some it ∧ is_Some (Item.currentLoanId it)) ∧
  handler demo_env (post "checkout" [("itemId", JNum 1); ("patronName", JStr " ")]%string) seed
    = (failure 400 "Patron name is required.", seed) ∧
  integrity seed_exhausted ∧
  (∃ it, items (rows seed_exhausted) !! 1 = Some it ∧ is_Some (Item.currentLoanId it)) ∧
  Types.message
    (json_body
       (handler demo_env
          (post "checkout" [("itemId", JNum 1); ("patronName", JStr "Bob")]%string)
          seed_exhausted).1)
    ≠ Some "Item already loaned or does not exist"%string.
Proof.
  split_and!; [by eexists|by vm_compute|apply integrity_seed_exhausted|by eexists|
               by vm_compute].
Qed.

(** ** return *)

Lemma return_run env payload db i :
  integer_of (get_field payload "itemId") = Some i →
  return_ env payload db =
    if negb (int4 i) then (inl P2020, db) else
    match items (rows db) !! i with
    | Some it =>
        match Item.currentLoanId it with
        | Some l =>
            if l =? 0 then (inl (JsError "No active loan for this item"), db)
            else
              match loans (rows db) !! l with
              | Some ln => (inr Break, mkDb (returned (now env) i it l ln (rows db)) (seqs db))
              | None => (inl P2025, db)
              end
        | None => (inl (JsError "No active loan for this item"), db)
        end
    | None => (inl (JsError "No active loan for this item"), db)
    end.
Proof.
  intros Hi. unfold return_. rewrite is_number_integer_of, Hi.
  rewrite bool_decide_eq_true_2 by eauto. cbn [negb].
  unfold mbind at 1, M_bind at 1. rewrite (int_arg_run _ i) by done.
  destruct (int4 i); cbn [negb]; [|done].
  unfold prisma.item_findUnique, prisma.loan_update_returnedAt,
    prisma.item_updateMany_currentLoanId.
  destruct db as [s q]. run. cbn.
  destruct (items s !! i) as [it|] eqn:Hit; cbn; [|done].
  destruct (Item.currentLoanId it) as [l|] eqn:Hcur; [|done].
  destruct (l =? 0); [done|]. cbn.
  destruct (loans s !! l) as [ln|] eqn:Hl; [|done].
  cbn. rewrite Hit. by rewrite decide_True by done.
Qed.

Lemma return_integrity t db i it l ln :
  integrity db →
  items (rows db) !! i = Some it →
  loans (rows db) !! l = Some ln →
  integrity (mkDb (returned t i it l ln (rows db)) (seqs db)).
Proof.
  intros Hdb Hit Hl. split; cbn.
  - apply Hdb.
  - apply Hdb.
  - apply Hdb.
  - apply Hdb.
  - intros k r. rewrite lookup_insert. case_decide; intros; simplify_eq.
    + by apply (item_pkey _ Hdb) in Hit.
    + by eapply (item_pkey _ Hdb).
  - intros k r. rewrite lookup_insert. case_decide; intros; simplify_eq.
    + by apply (item_item_type_id_fkey _ Hdb) in Hit.
    + by eapply (item_item_type_id_fkey _ Hdb).
  - intros k r l'. rewrite lookup_insert. case_decide; intros ? Hcur; simplify_eq.
    rewrite lookup_insert. case_decide; [by eexists|].
    by eapply (item_current_loan_id_fkey _ Hdb).
  - intros l' ln'. rewrite lookup_insert. case_decide; intros Hl'; simplify_eq.
    + by apply (loan_pkey _ Hdb) in Hl.
    + by apply (loan_pkey _ Hdb) in Hl'.
  - intros l' ln'. rewrite lookup_insert. case_decide; intros Hl'; simplify_eq; cbn.
    + rewrite lookup_insert. case_decide; [by eexists|].
      by eapply (loan_item_id_fkey _ Hdb).
    + rewrite lookup_insert. case_decide; [by eexists|].
      by eapply (loan_item_id_fkey _ Hdb).
Qed.



(** ** checkout, return, checkout *)

(** C5, as amended: from any state where an item is available, checkout,
    return and checkout on that item, the two checkouts succeeding, add
    exactly two Loan rows for the item, under two distinct fresh ids, to the
    rows it already had: the first closed, the second open and equal to the
    item's currentLoanId.  The return in between succeeds of itself. *)
Theorem checkout_return_checkout env1 env2 env3 req1 req2 req3 pl1 pl2 pl3 db i it p1 p3 :
  integrity db →
  items (rows db) !! i = Some it →
  Item.currentLoanId it = None →
  accepted env1 req1 (JStr "checkout") pl1 →
  get_field pl1 "itemId" = JNum i →
  get_field pl1 "patronName" = JStr p1 → Js.trim p1 ≠ EmptyString →
  accepted env2 req2 (JStr "return") pl2 →
  get_field pl2 "itemId" = JNum i →
  accepted env3 req3 (JStr "checkout") pl3 →
  get_field pl3 "itemId" = JNum i →
  get_field pl3 "patronName" = JStr p3 → Js.trim p3 ≠ EmptyString →
  Types.ok (json_body (handler env1 req1 db).1) = true →
  Types.ok (json_body
              (handler env3 req3 (handler env2 req2 (handler env1 req1 db).2).2).1) = true →
  ∃ s1 s2 s3 db1 db2 db3 l1 l2 ln1 ln2,
    handler env1 req1 db = (success s1, db1) ∧
    handler env2 req2 db1 = (success s2, db2) ∧
    handler env3 req3 db2 = (success s3, db3) ∧
    l1 ≠ l2 ∧
    loans (rows db) !! l1 = None ∧ loans (rows db) !! l2 = None ∧
    loans (rows db3) = <[l2 := ln2]> (<[l1 := ln1]> (loans (rows db))) ∧
    loans_of (rows db3) i = <[l2 := ln2]> (<[l1 := ln1]> (loans_of (rows db) i)) ∧
    size (loans_of (rows db3) i) = S (S (size (loans_of (rows db) i))) ∧
    Loan.itemId ln1 = i ∧ is_Some (Loan.returnedAt ln1) ∧
    Loan.itemId ln2 = i ∧ Loan.returnedAt ln2 = None ∧
    Item.currentLoanId <$> items (rows db3) !! i = Some (Some l2).
Proof.
  intros Hdb Hit Hcur Hreq1 Hi1 Hp1 Hne1 Hreq2 Hi2 Hreq3 Hi3 Hp3 Hne3 Hok1 Hok3.
  pose proof (fresh_loan_id db Hdb) as Hfresh.
  pose proof (serial_start _ Hdb) as [_ Hpos].
  assert (loan_id_seq (seqs db) ≤ INT_MAX) as Hseq1.
  { destruct (Z.le_gt_cases (loan_id_seq (seqs db)) INT_MAX) as [?|Hgt]; [done|].
    rewrite (handler_accepted _ _ _ _ _ Hreq1) in Hok1.
    cbn [switch String.eqb Ascii.eqb Bool.eqb] in Hok1.
    rewrite (checkout_exhausted env1 pl1 db i it p1) in Hok1 by (done || lia). done. }
  pose proof (loan_seq_advanced_seqs db Hseq1) as Hadv.
  set (l1 := loan_id_seq (seqs db)) in *.
  (* first checkout *)
  set (ln0 := Loan.mk i p1 (Date.day_of (now env1)) None).
  set (it1 := Item.with_currentLoanId (Some l1) it).
  set (db1 := mkDb (checked_out (Date.day_of (now env1)) i it p1 l1 (rows db))
                (seqs (loan_seq_advanced db))).
  assert (integrity db1) as Hdb1 by by apply checkout_integrity.
  assert (handler env1 req1 db = respond (inr Break, db1)) as H1.
  { rewrite (handler_accepted _ _ _ _ _ Hreq1). cbn [switch String.eqb Ascii.eqb Bool.eqb].
    by rewrite (checkout_available env1 pl1 db i it p1). }
  destruct (respond_Break db1 Hdb1) as (s1 & _ & Hs1). rewrite Hs1 in H1.
  (* return *)
  assert (items (rows db1) !! i = Some it1) as Hit1 by apply lookup_insert_eq.
  assert (loans (rows db1) !! l1 = Some ln0) as Hl1 by apply lookup_insert_eq.
  set (ln1 := Loan.with_returnedAt (Some (now env2)) ln0).
  set (it2 := Item.with_currentLoanId None it1).
  set (db2 := mkDb (returned (now env2) i it1 l1 ln0 (rows db1)) (seqs db1)).
  assert (integrity db2) as Hdb2 by by apply return_integrity.
  assert (handler env2 req2 db1 = respond (inr Break, db2)) as H2.
  { rewrite (handler_accepted _ _ _ _ _ Hreq2). cbn [switch String.eqb Ascii.eqb Bool.eqb].
    rewrite (return_run env2 pl2 db1 i), Hit1 by done.
    rewrite (item_int4 db i it) by done.
    cbn [negb Item.currentLoanId it1 Item.with_currentLoanId].
    rewrite (proj2 (Z.eqb_neq l1 0)) by lia. by rewrite Hl1. }
  destruct (respond_Break db2 Hdb2) as (s2 & _ & Hs2). rewrite Hs2 in H2.
  (* second checkout *)
  assert (items (rows db2) !! i = Some it2) as Hit2 by apply lookup_insert_eq.
  set (l2 := loan_id_seq (seqs db2)).
  assert (l2 = l1 + 1) as Hl2.
  { unfold l2, db2, db1. cbn [seqs]. by rewrite Hadv. }
  rewrite H1 in Hok3. cbn [snd] in Hok3. rewrite H2 in Hok3. cbn [snd] in Hok3.
  assert (loan_id_seq (seqs db2) ≤ INT_MAX) as Hseq2.
  { destruct (Z.le_gt_cases (loan_id_seq (seqs db2)) INT_MAX) as [?|Hgt]; [done|].
    rewrite (handler_accepted _ _ _ _ _ Hreq3) in Hok3.
    cbn [switch String.eqb Ascii.eqb Bool.eqb] in Hok3.
    rewrite (checkout_exhausted env3 pl3 db2 i it2 p3) in Hok3 by (done || lia). done. }
  set (ln2 := Loan.mk i p3 (Date.day_of (now env3)) None).
  set (db3 := mkDb (checked_out (Date.day_of (now env3)) i it2 p3 l2 (rows db2))
                (seqs (loan_seq_advanced db2))).
  assert (integrity db3) as Hdb3 by by apply checkout_integrity.
  assert (handler env3 req3 db2 = respond (inr Break, db3)) as H3.
  { rewrite (handler_accepted _ _ _ _ _ Hreq3). cbn [switch String.eqb Ascii.eqb Bool.eqb].
    by rewrite (checkout_available env3 pl3 db2 i it2 p3). }
  destruct (respond_Break db3 Hdb3) as (s3 & _ & Hs3). rewrite Hs3 in H3.
  assert (loans (rows db) !! l2 = None) as Hfresh2.
  { destruct (loans (rows db) !! l2) as [ln|] eqn:Hl; [|done].
    apply (loan_pkey _ Hdb) in Hl. lia. }
  assert (loans (rows db3) = <[l2 := ln2]> (<[l1 := ln1]> (loans (rows db)))) as Hloans.
  { cbn. by rewrite insert_insert_eq. }
  assert (loans_of (rows db3) i = <[l2 := ln2]> (<[l1 := ln1]> (loans_of (rows db) i))) as Hof.
  { unfold loans_of. rewrite Hloans. by rewrite !map_filter_insert_True. }
  exists s1, s2, s3, db1, db2, db3, l1, l2, ln1, ln2.
  split_and!; try done.
  - lia.
  - rewrite Hof. rewrite !map_size_insert_None; [done| |].
    + apply map_lookup_filter_None. by left.
    + rewrite lookup_insert_ne by lia. apply map_lookup_filter_None. by left.
  - cbn. by rewrite lookup_insert_eq.
Qed.

Lemma accepted_post (action : string) (fields : list (string * json)) :
  action ≠ EmptyString →
  accepted demo_env (post action fields) (JStr action) (JObj fields).
Proof.
  intros Hne.
  split; [exists "demo-token"%string; split_and!; [reflexivity|done|reflexivity]|].
  split_and!; try reflexivity. cbn. by destruct action.
Qed.

Lemma checkout_return_checkout_witness :
  ∃ db3 l1 l2 ln1 ln2,
    l1 ≠ l2 ∧
    loans (rows db3) = <[l2 := ln2]> (<[l1 := ln1]> (loans (rows seed))) ∧
    is_Some (Loan.returnedAt ln1) ∧ Loan.returnedAt ln2 = None ∧
    Item.currentLoanId <$> items (rows db3) !! 2 = Some (Some l2).
Proof.
  destruct (checkout_return_checkout demo_env demo_env demo_env
              (post "checkout" [("itemId", JNum 2); ("patronName", JStr "Bob")]%string)
              (post "return" [("itemId", JNum 2)]%string)
              (post "checkout" [("itemId", JNum 2); ("patronName", JStr "Alice")]%string)
              (JObj [("itemId", JNum 2); ("patronName", JStr "Bob")]%string)
              (JObj [("itemId", JNum 2)]%string)
              (JObj [("itemId", JNum 2); ("patronName", JStr "Alice")]%string)
              seed 2 (Item.mk "Laptop Pro X" 2 (Some "Ford Prefect"%string) None None)
              "Bob" "Alice")
    as (s1 & s2 & s3 & db1 & db2 & db3 & l1 & l2 & ln1 & ln2 &
        _ & _ & _ & Hne & _ & _ & Hloans & _ & _ & _ & Hclosed & _ & Hopen & Hcur).
  - apply integrity_seed.
  - reflexivity.
  - reflexivity.
  - by apply accepted_post.
  - reflexivity.
  - reflexivity.
  - done.
  - by apply accepted_post.
  - reflexivity.
  - by apply accepted_post.
  - reflexivity.
  - reflexivity.
  - done.
  - by vm_compute.
  - by vm_compute.
  - by exists db3, l1, l2, ln1, ln2.
Defined.

(** C5 as stated fails: an available item may already have closed loans, and
    then the three calls leave more than two Loan rows for it.  Here item 1
    of the seed has been returned once before. *)
Lemma checkout_return_checkout_counterexample :
  let db0 := (handler demo_env (post "return" [("itemId", JNum 1)]%string) seed).2 in
  let r1 := handler demo_env
              (post "checkout" [("itemId", JNum 1); ("patronName", JStr "Bob")]%string) db0 in
  let r2 := handler demo_env (post "return" [("itemId", JNum 1)]%string) r1.2 in
  let r3 := handler demo_env
              (post "checkout" [("itemId", JNum 1); ("patronName", JStr "Alice")]%string) r2.2 in
  Item.currentLoanId <$> items (rows db0) !! 1 = Some None ∧
  status r1.1 = 200 ∧ status r2.1 = 200 ∧ status r3.1 = 200 ∧
  size (loans_of (rows r3.2) 1) = 3%nat ∧
  size (loans_of (rows r3.2) 1) ≠ 2%nat.
Proof. by vm_compute. Qed.

(** ** deleteItem *)

Lemma deleteItem_run payload db i :
  integer_of (get_field payload "id") = Some i →
  deleteItem payload db =
    if negb (int4 i) then (inl P2020, db) else
    match items (rows db) !! i with
    | Some _ => (inr Break, mkDb (deleted i (rows db)) (seqs db))
    | None => (inl P2025, db)
    end.
Proof.
  intros Hi. unfold deleteItem. rewrite is_number_integer_of, Hi.
  rewrite bool_decide_eq_true_2 by eauto. cbn [negb].
  unfold mbind at 1, M_bind at 1. rewrite (int_arg_run _ i) by done.
  destruct (int4 i); cbn [negb]; [|done].
  unfold prisma.item_delete. run. cbn.
  by destruct (items (rows db) !! i).
Qed.

(** Under the loan invariant no other item points at a loan of item [i], so
    ON DELETE SET NULL touches no remaining item. *)
Lemma deleted_items (s : Store) (i : Z) :
  state_invariant s → items (deleted i s) = delete i (items s).
Proof.
  intros Hinv. cbn. apply map_eq. intros k. rewrite lookup_fmap.
  destruct (delete i (items s) !! k) as [r|] eqn:Hk; [|done]. cbn. f_equal.
  apply lookup_delete_Some in Hk as [Hne Hk].
  unfold prisma.current_loan_set_null.
  destruct (Item.currentLoanId r) as [l|] eqn:Hcur; [|done].
  destruct (Hinv k r Hk) as (_ & Hopen & _).
  destruct (Hopen l Hcur) as (ln & -> & Hitem & _).
  by rewrite decide_False by congruence.
Qed.

(** C8: deleting an existing item removes the item together with every Loan
    row whose itemId references it, so that afterwards no loan row references
    a missing item; the rows of other items, the categories and the item
    types are unchanged. *)
Theorem delete_item_cascades env req payload db i it :
  integrity db →
  state_invariant (rows db) →
  accepted env req (JStr "deleteItem") payload →
  get_field payload "id" = JNum i →
  items (rows db) !! i = Some it →
  ∃ snapshot db',
    handler env req db = (success snapshot, db') ∧
    items (rows db') = delete i (items (rows db)) ∧
    loans (rows db') = filter (λ kv, Loan.itemId kv.2 ≠ i) (loans (rows db)) ∧
    loans_of (rows db') i = ∅ ∧
    (∀ j, j ≠ i → loans_of (rows db') j = loans_of (rows db) j) ∧
    (∀ l ln, loans (rows db') !! l = Some ln →
             is_Some (items (rows db') !! Loan.itemId ln)) ∧
    itemTypes (rows db') = itemTypes (rows db) ∧
    categories (rows db') = categories (rows db).
Proof.
  intros Hdb Hinv Hreq Hi Hit.
  rewrite (handler_accepted _ _ _ _ _ Hreq). cbn [switch String.eqb Ascii.eqb Bool.eqb].
  rewrite (deleteItem_run payload db i), (item_int4 db i it), Hit by done. cbn [negb].
  set (db' := mkDb (deleted i (rows db)) (seqs db)).
  assert (items (rows db') = delete i (items (rows db))) as Hitems by by apply deleted_items.
  destruct (getSnapshot_ok db') as [snap Hsnap].
  { intros k r. rewrite Hitems. intros [_ Hk]%lookup_delete_Some.
    by apply (item_item_type_id_fkey _ Hdb) in Hk. }
  exists snap, db'. cbn [respond]. rewrite Hsnap. split_and!; try done.
  - unfold loans_of. cbn. apply map_eq. intros l. rewrite lookup_empty.
    apply map_lookup_filter_None. right. intros ln [_ Hne]%map_lookup_filter_Some. done.
  - intros j Hj. unfold loans_of. cbn. apply map_eq. intros l. apply option_eq. intros ln.
    rewrite !map_lookup_filter_Some. cbn. split.
    + intros [[Hl _] Hlj]. done.
    + intros [Hl Hlj]. split_and!; [done|congruence|done].
  - intros l ln Hl. rewrite Hitems. cbn in Hl.
    apply map_lookup_filter_Some in Hl as [Hl Hne]. cbn in Hne.
    rewrite lookup_delete_ne by done. by apply (loan_item_id_fkey _ Hdb) in Hl.
Qed.

Lemma state_invariant_seed : state_invariant (rows seed).
Proof.
  assert (∀ i l, open_loan (rows seed) i l → i = 1 ∧ l = 1) as Hopen.
  { intros i l (ln & Hl & Hi & _).
    apply elem_of_map_to_list in Hl.
    let ll := eval vm_compute in (map_to_list (loans (rows seed))) in
    change (map_to_list (loans (rows seed))) with ll in Hl.
    set_unfold in Hl. destruct_or?; by simplify_eq. }
  intros i it Hit.
  apply elem_of_map_to_list in Hit.
  let ls := eval vm_compute in (map_to_list (items (rows seed))) in
  change (map_to_list (items (rows seed))) with ls in Hit.
  set_unfold in Hit.
  split_and!.
  - destruct_or?; simplify_eq; cbn; split.
    + by intros [? ?].
    + intros [l [? _]%Hopen]. done.
    + by intros [? ?].
    + intros [l [? _]%Hopen]. done.
    + intros _. exists 1. by eexists.
    + by eexists.
  - intros l Hl. destruct_or?; simplify_eq; cbn in Hl; simplify_eq. by eexists.
  - intros l1 l2 [_ ->]%Hopen [_ ->]%Hopen. done.
Qed.

Lemma delete_item_cascades_witness :
  ∃ snapshot db',
    handler demo_env (post "deleteItem" [("id", JNum 1)]%string) seed = (success snapshot, db') ∧
    items (rows db') = delete 1 (items (rows seed)) ∧
    loans_of (rows db') 1 = ∅.
Proof.
  destruct (delete_item_cascades demo_env (post "deleteItem" [("id", JNum 1)]%string)
              (JObj [("id", JNum 1)]%string) seed 1
              (Item.mk "The Hitchhiker's Guide to the Galaxy" 1 None (Some 1) None))
    as (snap & db' & H & Hitems & _ & Hloans & _).
  - apply integrity_seed.
  - apply state_invariant_seed.
  - by apply accepted_post.
  - reflexivity.
  - reflexivity.
  - by exists snap, db'.
Defined.

(** ** The mutations as a step relation on the rows *)

Lemma blank_db v db r db' : blank v db = (r, db') → db' = db.
Proof.
  destruct (blank_cases v db) as [(e & -> & _)|[->|(p & _ & _ & ->)]]; by intros [= _ <-].
Qed.

(** Destructs the next validation of a text field. *)
Ltac on_blank :=
  match goal with
  | |- context [blank ?v ?db] =>
      let H := fresh "Hblank" in
      destruct (blank v db) as [[?|[]] ?] eqn:H; apply blank_db in H as ->; cbn
  end.

Lemma createItemType_step payload db : step (rows db) (rows (createItemType payload db).2).
Proof.
  unfold createItemType, prisma.itemType_create, string_arg. run.
  on_blank; try apply step_stay. on_blank; try apply step_stay.
  destruct (get_field payload "code"); cbn; try apply step_stay.
  destruct (get_field payload "name"); cbn; try apply step_stay.
  repeat case_match; simplify_eq; cbn; try apply step_stay; by apply step_catalogue.
Qed.

Lemma createCategory_step payload db : step (rows db) (rows (createCategory payload db).2).
Proof.
  unfold createCategory, prisma.category_create, string_arg, nullable, prisma.int_arg. run.
  on_blank; try apply step_stay. on_blank; try apply step_stay.
  destruct (get_field payload "code"); cbn; try apply step_stay.
  destruct (get_field payload "name"); cbn; try apply step_stay.
  destruct (get_field payload "parentId"); cbn; try apply step_stay;
    repeat case_match; simplify_eq; cbn; try apply step_stay; by apply step_catalogue.
Qed.

Lemma linkCategory_step payload db : step (rows db) (rows (linkCategory payload db).2).
Proof.
  unfold linkCategory, prisma.item_connect_category, prisma.int_arg. run.
  destruct (get_field payload "itemId"); cbn; try apply step_stay;
    destruct (get_field payload "categoryId"); cbn; try apply step_stay.
  all: repeat case_match; simplify_eq; cbn; try apply step_stay; by apply step_catalogue.
Qed.

Lemma unlinkCategory_step payload db : step (rows db) (rows (unlinkCategory payload db).2).
Proof.
  unfold unlinkCategory, prisma.item_disconnect_category, prisma.int_arg. run.
  destruct (get_field payload "itemId"); cbn; try apply step_stay;
    destruct (get_field payload "categoryId"); cbn; try apply step_stay.
  all: repeat case_match; simplify_eq; cbn; try apply step_stay; by apply step_catalogue.
Qed.

Lemma createItem_step payload db : step (rows db) (rows (createItem payload db).2).
Proof.
  unfold createItem, prisma.item_create, string_arg, nullable, prisma.int_arg. run.
  on_blank; try apply step_stay.
  destruct (get_field payload "itemTypeId"); cbn; try apply step_stay;
    destruct (get_field payload "title"); cbn; try apply step_stay.
  all: destruct (requestedBy_arg _); cbn; try apply step_stay;
    repeat case_match; simplify_eq; cbn in *; try apply step_stay;
    (apply step_createItem; [|done]);
    by match goal with H : ¬ is_Some ?x |- _ => destruct x; [destruct H; eauto|] end.
Qed.

Lemma checkout_step env payload db : step (rows db) (rows (checkout env payload db).2).
Proof.
  destruct (integer_of (get_field payload "itemId")) as [i|] eqn:Hi.
  2: { unfold checkout. rewrite is_number_integer_of, Hi.
       rewrite bool_decide_eq_false_2 by (by intros [??]). apply step_stay. }
  destruct (blank_cases (get_field payload "patronName") db)
    as [(e & Hb & _)|[Hb|(p & Hp & Hne & _)]].
  - unfold checkout. rewrite is_number_integer_of, Hi, bool_decide_eq_true_2 by eauto.
    run. cbn. rewrite Hb. apply step_stay.
  - unfold checkout. rewrite is_number_integer_of, Hi, bool_decide_eq_true_2 by eauto.
    run. cbn. rewrite Hb. apply step_stay.
  - rewrite (checkout_run env payload db i p) by done. cbv zeta.
    repeat case_match; cbn; try apply step_stay. by apply step_checkout.
Qed.

Lemma return_step env payload db : step (rows db) (rows (return_ env payload db).2).
Proof.
  destruct (integer_of (get_field payload "itemId")) as [i|] eqn:Hi.
  2: { unfold return_. rewrite is_number_integer_of, Hi.
       rewrite bool_decide_eq_false_2 by (by intros [??]). apply step_stay. }
  rewrite (return_run env payload db i) by done.
  repeat case_match; cbn; try apply step_stay. by apply step_return.
Qed.

Lemma deleteItem_step payload db : step (rows db) (rows (deleteItem payload db).2).
Proof.
  destruct (integer_of (get_field payload "id")) as [i|] eqn:Hi.
  2: { unfold deleteItem. rewrite is_number_integer_of, Hi.
       rewrite bool_decide_eq_false_2 by (by intros [??]). apply step_stay. }
  rewrite (deleteItem_run payload db i) by done.
  repeat case_match; cbn; try apply step_stay. by eapply step_deleteItem.
Qed.

Lemma switch_step env action payload db : step (rows db) (rows (switch env action payload db).2).
Proof.
  unfold switch. destruct action; try apply step_stay.
  repeat case_match; try apply step_stay;
    auto using createItemType_step, createCategory_step, createItem_step, linkCategory_step,
      unlinkCategory_step, checkout_step, return_step, deleteItem_step.
Qed.

Lemma respond_db x : (respond x).2 = x.2.
Proof.
  destruct x as [[e|[r|]] db']; cbn; try done.
  destruct (getSnapshot db') as [[e|snap] db''] eqn:H; by apply getSnapshot_unchanged in H.
Qed.

(** Whatever the request, the handler either leaves the database alone or
    leaves it as the switch did. *)
Lemma handler_db env req db :
  (handler env req db).2 = db ∨
  ∃ action payload, (handler env req db).2 = (switch env action payload db).2.
Proof.
  unfold handler, try_block.
  destruct (NEXT_PUBLIC_DEMO_AUTH_TOKEN env) as [[|a expected]|]; try by left.
  destruct (String.eqb (method req) "GET").
  { left. run. destruct (getSnapshot db) as [[e|snap] db'] eqn:H.
    - by apply getSnapshot_unchanged in H.
    - by apply getSnapshot_unchanged in H. }
  destruct (negb (String.eqb (method req) "POST")); [by left|].
  destruct (unauthorized _ _); [by left|].
  destruct (body req) eqn:Hbody; try by left.
  all: match goal with
       | |- context [negb (truthy ?a) || negb (truthy ?p)] =>
           destruct (negb (truthy a) || negb (truthy p)); [by left|];
           right; exists a, p
       end.
  all: run; destruct (switch env _ _ db) as [[e|[r|]] db'] eqn:Hsw; cbn; try done.
  all: destruct (getSnapshot db') as [[e|snap] db''] eqn:H;
       by apply getSnapshot_unchanged in H.
Qed.

Lemma handler_step env req db : step (rows db) (rows (handler env req db).2).
Proof.
  destruct (handler_db env req db) as [->|(a & p & ->)]; [apply step_stay|apply switch_step].
Qed.

(** ** The loan invariant is preserved *)

Lemma pointer_invariant_iff s : state_invariant s ↔ pointer_invariant s.
Proof.
  split.
  - intros Hinv i it l Hit. destruct (Hinv i it Hit) as (Hon & Hpt & Huniq). split; [auto|].
    intros Hopen. destruct (proj2 Hon) as [l' Hl']; [by exists l|].
    rewrite Hl'. f_equal. apply Huniq; auto.
  - intros Hinv i it Hit. split_and!.
    + split.
      * intros [l Hl]. exists l. by apply (Hinv i it l Hit).
      * intros [l Hl]. exists l. by apply (Hinv i it l Hit).
    + intros l Hl. by apply (Hinv i it l Hit).
    + intros l1 l2 H1%(Hinv i it l1 Hit) H2%(Hinv i it l2 Hit). congruence.
Qed.

Lemma open_loan_checked_out today i0 it0 p l0 s i l :
  loans s !! l0 = None →
  open_loan (checked_out today i0 it0 p l0 s) i l ↔ (i = i0 ∧ l = l0) ∨ open_loan s i l.
Proof.
  intros Hfresh. unfold open_loan. cbn. split.
  - intros (ln & Hl & Hi & Hopen). rewrite lookup_insert in Hl. case_decide; simplify_eq.
    + by left.
    + right. by exists ln.
  - intros [[-> ->]|(ln & Hl & Hi & Hopen)].
    + eexists. by rewrite lookup_insert_eq.
    + exists ln. rewrite lookup_insert_ne; [done|]. by intros ->; simplify_eq.
Qed.

Lemma open_loan_returned t i0 it0 l0 ln0 s i l :
  open_loan (returned t i0 it0 l0 ln0 s) i l ↔ open_loan s i l ∧ l ≠ l0.
Proof.
  unfold open_loan. cbn. split.
  - intros (ln & Hl & Hi & Hopen). rewrite lookup_insert in Hl. case_decide; simplify_eq.
    split; [by exists ln|done].
  - intros [(ln & Hl & Hi & Hopen) Hne]. exists ln. by rewrite lookup_insert_ne.
Qed.

Lemma open_loan_deleted i0 s i l :
  open_loan (deleted i0 s) i l ↔ open_loan s i l ∧ i ≠ i0.
Proof.
  unfold open_loan. cbn. split.
  - intros (ln & [Hl Hne]%map_lookup_filter_Some & Hi & Hopen). cbn in Hne.
    split; [by exists ln|congruence].
  - intros [(ln & Hl & Hi & Hopen) Hne]. exists ln. split; [|done].
    apply map_lookup_filter_Some. split; [done|]. cbn. congruence.
Qed.

Lemma step_invariant s s' :
  (∀ l ln, loans s !! l = Some ln → is_Some (items s !! Loan.itemId ln)) →
  state_invariant s → step s s' → state_invariant s'.
Proof.
  intros Hfk Hinv Hstep. pose proof (proj1 (pointer_invariant_iff s) Hinv) as Hptr.
  destruct Hstep as [|s' Hitems Hloans|k r Hk Hr|today i0 it0 p l0 Hit0 Hcur0 Hl0
                     |t i0 it0 l0 ln0 Hit0 Hcur0 Hl0|i0 it0 Hit0]; [done|..];
    apply pointer_invariant_iff; intros i it l.
  - unfold open_loan. rewrite Hitems, Hloans. apply Hptr.
  - cbn. rewrite lookup_insert. case_decide; intros Hit; simplify_eq.
    + rewrite Hr. split; [done|]. intros (ln & Hl & Hi & _). cbn in Hl.
      apply Hfk in Hl as [it' Hit']. congruence.
    + by apply Hptr.
  - rewrite open_loan_checked_out by done. cbn. rewrite lookup_insert.
    case_decide; intros Hit; simplify_eq.
    + cbn. split; [intros [= <-]; by left|].
      intros [[_ ->]|Hopen]; [done|].
      apply (Hptr _ _ _ Hit0) in Hopen. congruence.
    + rewrite (Hptr i it l Hit). split; [by right|]. by intros [[? _]|?].
  - rewrite open_loan_returned. cbn. rewrite lookup_insert.
    case_decide; intros Hit; simplify_eq.
    + cbn. split; [done|]. intros [Hopen%(Hptr _ _ _ Hit0) Hne]. congruence.
    + rewrite (Hptr i it l Hit). split; [|by intros [? _]].
      intros Hopen. split; [done|]. intros ->.
      destruct Hopen as (ln & Hl & Hi & _).
      destruct (proj1 (Hptr _ _ _ Hit0) Hcur0) as (ln' & Hl' & Hi' & _). congruence.
  - rewrite open_loan_deleted, (deleted_items s i0 Hinv).
    intros [Hne Hit]%lookup_delete_Some.
    rewrite (Hptr i it l Hit). split; [done|by intros [? _]].
Qed.


(** ** Missing records *)

Lemma linkCategory_run payload db i c :
  integer_of (get_field payload "itemId") = Some i →
  integer_of (get_field payload "categoryId") = Some c →
  linkCategory payload db =
    if negb (int4 i) || negb (int4 c) then (inl P2020, db) else
    match items (rows db) !! i, categories (rows db) !! c with
    | Some _, Some _ =>
        (inr Break, mkDb (set_itemToCategory (λ j, {[ (c, i) ]} ∪ j) (rows db)) (seqs db))
    | _, _ => (inl P2025, db)
    end.
Proof.
  intros Hi Hc. unfold linkCategory. rewrite !is_number_integer_of, Hi, Hc.
  rewrite !bool_decide_eq_true_2 by eauto. cbn [negb].
  unfold mbind at 1, M_bind at 1. rewrite (int_arg_run _ i) by done.
  destruct (int4 i); cbn [negb orb]; [|done].
  unfold mbind at 1, M_bind at 1. rewrite (int_arg_run _ c) by done.
  destruct (int4 c); cbn [negb]; [|done].
  unfold prisma.item_connect_category. run. cbn.
  destruct (items (rows db) !! i); [|done]. by destruct (categories (rows db) !! c).
Qed.

Lemma unlinkCategory_run payload db i c :
  integer_of (get_field payload "itemId") = Some i →
  integer_of (get_field payload "categoryId") = Some c →
  unlinkCategory payload db =
    if negb (int4 i) || negb (int4 c) then (inl P2020, db) else
    match items (rows db) !! i with
    | Some _ =>
        (inr Break, mkDb (set_itemToCategory (λ j, j ∖ {[ (c, i) ]}) (rows db)) (seqs db))
    | None => (inl P2025, db)
    end.
Proof.
  intros Hi Hc. unfold unlinkCategory. rewrite !is_number_integer_of, Hi, Hc.
  rewrite !bool_decide_eq_true_2 by eauto. cbn [negb].
  unfold mbind at 1, M_bind at 1. rewrite (int_arg_run _ i) by done.
  destruct (int4 i); cbn [negb orb]; [|done].
  unfold mbind at 1, M_bind at 1. rewrite (int_arg_run _ c) by done.
  destruct (int4 c); cbn [negb]; [|done].
  unfold prisma.item_disconnect_category. run. cbn. by destruct (items (rows db) !! i).
Qed.

(** A link or unlink with an id outside the INTEGER range answers 400,
    whatever the other id is. *)
Lemma link_out_of_range payload db i :
  (get_field payload "itemId" = JNum i ∨ get_field payload "categoryId" = JNum i) →
  int4 i = false →
  (∃ msg, respond (linkCategory payload db) = (failure 400 msg, db)) ∧
  (∃ msg, respond (unlinkCategory payload db) = (failure 400 msg, db)).
Proof.
  intros Hid Hr.
  destruct (integer_of (get_field payload "itemId")) as [j|] eqn:Hj.
  2: { unfold linkCategory, unlinkCategory. rewrite !is_number_integer_of, Hj.
       rewrite bool_decide_eq_false_2 by (by intros [??]). cbn. by split; eexists. }
  destruct (integer_of (get_field payload "categoryId")) as [c|] eqn:Hc.
  2: { unfold linkCategory, unlinkCategory. rewrite !is_number_integer_of, Hj, Hc.
       rewrite bool_decide_eq_true_2 by eauto.
       rewrite bool_decide_eq_false_2 by (by intros [??]). cbn. by split; eexists. }
  rewrite (linkCategory_run payload db j c), (unlinkCategory_run payload db j c) by done.
  assert (negb (int4 j) || negb (int4 c) = true) as ->.
  { destruct Hid as [Hid|Hid]; rewrite Hid in *; cbn in Hj, Hc; simplify_eq; rewrite Hr; cbn;
      [done|by rewrite orb_true_r]. }
  cbn. by split; eexists.
Qed.

(** A createItem naming an item type that does not exist answers 400,
    whatever the other fields are. *)
Lemma createItem_missing_type payload db t :
  get_field payload "itemTypeId" = JNum t →
  itemTypes (rows db) !! t = None →
  ∃ msg db', respond (createItem payload db) = (failure 400 msg, db') ∧ rows db' = rows db.
Proof.
  intros Ht Hmiss. unfold createItem. rewrite Ht. cbn [is_number negb].
  unfold mbind at 1, M_bind at 1.
  destruct (blank_cases (get_field payload "title") db)
    as [(e & -> & He)|[->|(p & -> & Hne & ->)]].
  { cbn. rewrite He. by eexists _, _. }
  { cbn. by eexists _, _. }
  unfold prisma.item_create, string_arg, nullable, prisma.int_arg. run. cbn.
  destruct (int4 t); cbn; [|by eexists _, _].
  destruct (requestedBy_arg _); cbn; try (by eexists _, _).
  all: destruct (item_id_seq (seqs db) <=? INT_MAX); cbn; [|by eexists _, _].
  all: case_decide; cbn; [by eexists _, _|].
  all: rewrite decide_False by (rewrite Hmiss; by intros [? ?]); cbn; by eexists _, _.
Qed.

(** A checkout naming an item that does not exist answers 400. *)
Lemma checkout_missing_item env payload db i :
  get_field payload "itemId" = JNum i →
  items (rows db) !! i = None →
  ∃ msg db', respond (checkout env payload db) = (failure 400 msg, db') ∧ rows db' = rows db.
Proof.
  intros Hi Hmiss.
  destruct (get_field payload "patronName") as [| | | | |p| |] eqn:Hp;
    try (destruct (checkout_patron_refused env payload db i Hi) as [msg ->];
         [by rewrite Hp|by exists msg, db]).
  destruct (decide (Js.trim p = EmptyString)) as [Hblank|Hne].
  - destruct (checkout_patron_refused env payload db i Hi) as [msg ->].
    + rewrite Hp. by intros ? [= <-].
    + by exists msg, db.
  - rewrite (checkout_run env payload db i p) by done. cbv zeta. rewrite Hmiss.
    repeat case_match; cbn; by eexists _, _.
Qed.

(** C6, as amended: with every id of the request within the INTEGER range, a
    mutation that updates or deletes through a record that does not exist
    (the item of link-category, unlink-category and delete-item, the category
    of link-category) answers "Record not found" with status 404; a missing
    foreign-key target of an insert (the item of a checkout, the itemTypeId
    of create-item) answers status 400, and so does a link-category,
    unlink-category or delete-item with an id outside the INTEGER range.  In
    every case no row changes. *)
Theorem missing_record_status env req action payload db :
  accepted env req (JStr action) payload →
  (∀ i c, action = "linkCategory"%string →
          get_field payload "itemId" = JNum i → get_field payload "categoryId" = JNum c →
          int4 i = true → int4 c = true →
          items (rows db) !! i = None ∨ categories (rows db) !! c = None →
          handler env req db = (failure 404 "Record not found", db)) ∧
  (∀ i c, action = "unlinkCategory"%string →
          get_field payload "itemId" = JNum i → get_field payload "categoryId" = JNum c →
          int4 i = true → int4 c = true →
          items (rows db) !! i = None →
          handler env req db = (failure 404 "Record not found", db)) ∧
  (∀ i, action = "deleteItem"%string →
        get_field payload "id" = JNum i → int4 i = true → items (rows db) !! i = None →
        handler env req db = (failure 404 "Record not found", db)) ∧
  (∀ i, action = "checkout"%string →
        get_field payload "itemId" = JNum i → items (rows db) !! i = None →
        ∃ msg db', handler env req db = (failure 400 msg, db') ∧ rows db' = rows db) ∧
  (∀ t, action = "createItem"%string →
        get_field payload "itemTypeId" = JNum t → itemTypes (rows db) !! t = None →
        ∃ msg db', handler env req db = (failure 400 msg, db') ∧ rows db' = rows db) ∧
  (∀ i, action = "linkCategory"%string ∨ action = "unlinkCategory"%string →
        get_field payload "itemId" = JNum i ∨ get_field payload "categoryId" = JNum i →
        int4 i = false →
        ∃ msg, handler env req db = (failure 400 msg, db)) ∧
  (∀ i, action = "deleteItem"%string →
        get_field payload "id" = JNum i → int4 i = false →
        ∃ msg, handler env req db = (failure 400 msg, db)).
Proof.
  intros Hreq. rewrite (handler_accepted _ _ _ _ _ Hreq). split_and!.
  - intros i c -> Hi Hc Hri Hrc Hmiss. cbn [switch String.eqb Ascii.eqb Bool.eqb].
    rewrite (linkCategory_run payload db i c), Hri, Hrc by done. cbn [negb orb].
    destruct Hmiss as [->| ->]; [done|]. by destruct (items (rows db) !! i).
  - intros i c -> Hi Hc Hri Hrc Hmiss. cbn [switch String.eqb Ascii.eqb Bool.eqb].
    by rewrite (unlinkCategory_run payload db i c), Hri, Hrc, Hmiss by done.
  - intros i -> Hi Hri Hmiss. cbn [switch String.eqb Ascii.eqb Bool.eqb].
    by rewrite (deleteItem_run payload db i), Hri, Hmiss by done.
  - intros i -> Hi Hmiss. cbn [switch String.eqb Ascii.eqb Bool.eqb].
    by apply (checkout_missing_item env payload db i).
  - intros t -> Ht Hmiss. cbn [switch String.eqb Ascii.eqb Bool.eqb].
    by apply (createItem_missing_type payload db t).
  - intros i [-> | ->] Hid Hr; cbn [switch String.eqb Ascii.eqb Bool.eqb];
      by apply (link_out_of_range payload db i).
  - intros i -> Hi Hr. cbn [switch String.eqb Ascii.eqb Bool.eqb].
    rewrite (deleteItem_run payload db i), Hr by done. by eexists.
Qed.

Lemma missing_record_status_witness :
  handler demo_env (post "deleteItem" [("id", JNum 9)]%string) seed
    = (failure 404 "Record not found", seed) ∧
  ∃ msg db',
    handler demo_env (post "createItem" [("title", JStr "Dune"); ("itemTypeId", JNum 9)]%string) seed
      = (failure 400 msg, db') ∧ rows db' = rows seed.
Proof.
  split.
  - destruct (missing_record_status demo_env (post "deleteItem" [("id", JNum 9)]%string)
                "deleteItem" (JObj [("id", JNum 9)]%string) seed)
      as (_ & _ & Hdelete & _); [by apply accepted_post|].
    by apply (Hdelete 9).
  - destruct (missing_record_status demo_env
                (post "createItem" [("title", JStr "Dune"); ("itemTypeId", JNum 9)]%string)
                "createItem" (JObj [("title", JStr "Dune"); ("itemTypeId", JNum 9)]%string) seed)
      as (_ & _ & _ & _ & Hcreate & _); [by apply accepted_post|].
    by apply (Hcreate 9).
Defined.

(** C6 as stated fails: a create-item whose itemTypeId names no item type,
    and a checkout of an item that does not exist, are answered with status
    400, not 404; and so is a delete-item whose id is outside the INTEGER
    range, which names no item either. *)
Lemma missing_foreign_key_counterexample :
  itemTypes (rows seed) !! 9 = None ∧ items (rows seed) !! 9 = None ∧
  status (handler demo_env
            (post "createItem" [("title", JStr "Dune"); ("itemTypeId", JNum 9)]%string) seed).1
    = 400 ∧
  status (handler demo_env
            (post "checkout" [("itemId", JNum 9); ("patronName", JStr "Bob")]%string) seed).1
    = 400 ∧
  items (rows seed) !! 2147483648 = None ∧
  status (handler demo_env (post "deleteItem" [("id", JNum 2147483648)]%string) seed).1
    = 400.
Proof. by vm_compute. Qed.

(** ** The action names *)

Lemma switch_unknown env action payload db :
  (∀ a, a ∈ known_actions → action ≠ JStr a) →
  switch env action payload db = (inr (Return (failure 400 "Unknown action")), db).
Proof.
  intros Hunknown. unfold switch. destruct action as [| | | | |a| |]; try done.
  repeat match goal with
         | |- context [String.eqb a ?k] =>
             destruct (String.eqb_spec a k) as [->|_];
             [exfalso; eapply Hunknown; [|reflexivity]; unfold known_actions; set_solver|]
         end.
  done.
Qed.


(** ** Integrity is preserved *)

Lemma integrity_frame db db' :
  integrity db →
  items (rows db') = items (rows db) →
  loans (rows db') = loans (rows db) →
  (∀ t, is_Some (itemTypes (rows db) !! t) → is_Some (itemTypes (rows db') !! t)) →
  (∀ k r, itemTypes (rows db') !! k = Some r → 1 ≤ k < item_type_id_seq (seqs db')) →
  (∀ k r, categories (rows db') !! k = Some r → 1 ≤ k < category_id_seq (seqs db')) →
  seqs_le (seqs db) (seqs db') →
  item_type_id_seq (seqs db') ≤ INT_MAX + 1 ∧ category_id_seq (seqs db') ≤ INT_MAX + 1 ∧
  item_id_seq (seqs db') ≤ INT_MAX + 1 ∧ loan_id_seq (seqs db') ≤ INT_MAX + 1 →
  integrity db'.
Proof.
  intros Hdb Hitems Hloans Htypes Htk Hck (? & ? & ? & ?) Hend.
  pose proof (serial_start _ Hdb) as [? ?]. pose proof (serial_range _ Hdb).
  split; rewrite ?Hitems, ?Hloans.
  - lia.
  - lia.
  - done.
  - done.
  - intros k r Hk. apply (item_pkey _ Hdb) in Hk. lia.
  - intros k r Hk. apply Htypes. by apply (item_item_type_id_fkey _ Hdb) in Hk.
  - apply Hdb.
  - intros l ln Hk. apply (loan_pkey _ Hdb) in Hk. lia.
  - apply Hdb.
Qed.

(** Destructs the boolean tests of the goal: the range of an [Int] argument
    and the sequence that may be exhausted. *)
Ltac on_bool :=
  repeat match goal with
         | |- context [if ?b then _ else _] =>
             match type of b with bool => destruct b eqn:?; cbn end
         end.

(** Closes the goals where only the catalogue tables or the sequences moved. *)
Ltac framed Hdb :=
  let Hend := fresh "Hend" in
  pose proof (serial_range _ Hdb) as Hend;
  apply (integrity_frame _ _ Hdb); cbn in *;
  [done
  |done
  |try done; intros ?; rewrite ?lookup_insert; try case_decide; eauto
  |try apply Hdb;
   intros ? ?; rewrite ?lookup_insert; try case_decide; intros HK; simplify_eq;
     try apply (item_type_pkey _ Hdb) in HK; lia
  |try apply Hdb;
   intros ? ?; rewrite ?lookup_insert; try case_decide; intros HK; simplify_eq;
     try apply (category_pkey _ Hdb) in HK; lia
  |unfold seqs_le; cbn; lia
  |repeat match goal with H : (_ <=? _) = true |- _ => apply Z.leb_le in H end; lia].

Lemma createItemType_integrity payload db :
  integrity db → integrity (createItemType payload db).2.
Proof.
  intros Hdb. unfold createItemType, prisma.itemType_create, string_arg. run.
  on_blank; try framed Hdb. on_blank; try framed Hdb.
  destruct (get_field payload "code"); cbn; try framed Hdb.
  destruct (get_field payload "name"); cbn; try framed Hdb.
  on_bool; repeat case_decide; cbn; framed Hdb.
Qed.

Lemma createCategory_integrity payload db :
  integrity db → integrity (createCategory payload db).2.
Proof.
  intros Hdb. unfold createCategory, prisma.category_create, string_arg, nullable, prisma.int_arg. run.
  on_blank; try framed Hdb. on_blank; try framed Hdb.
  destruct (get_field payload "code"); cbn; try framed Hdb.
  destruct (get_field payload "name"); cbn; try framed Hdb.
  destruct (get_field payload "parentId"); cbn; try framed Hdb;
    on_bool; repeat case_decide; cbn; framed Hdb.
Qed.

Lemma linkCategory_integrity payload db :
  integrity db → integrity (linkCategory payload db).2.
Proof.
  intros Hdb. unfold linkCategory, prisma.item_connect_category, prisma.int_arg. run.
  destruct (get_field payload "itemId"); cbn; try framed Hdb;
    destruct (get_field payload "categoryId"); cbn; try framed Hdb.
  all: repeat case_match; simplify_eq; cbn; framed Hdb.
Qed.

Lemma unlinkCategory_integrity payload db :
  integrity db → integrity (unlinkCategory payload db).2.
Proof.
  intros Hdb. unfold unlinkCategory, prisma.item_disconnect_category, prisma.int_arg. run.
  destruct (get_field payload "itemId"); cbn; try framed Hdb;
    destruct (get_field payload "categoryId"); cbn; try framed Hdb.
  all: repeat case_match; simplify_eq; cbn; framed Hdb.
Qed.

Lemma item_insert_integrity db r q :
  integrity db →
  Item.currentLoanId r = None →
  is_Some (itemTypes (rows db) !! Item.itemTypeId r) →
  item_id_seq (seqs db) ≤ INT_MAX →
  item_type_id_seq q = item_type_id_seq (seqs db) →
  category_id_seq q = category_id_seq (seqs db) →
  item_id_seq q = item_id_seq (seqs db) + 1 →
  loan_id_seq q = loan_id_seq (seqs db) →
  integrity (mkDb (set_items <[item_id_seq (seqs db) := r]> (rows db)) q).
Proof.
  intros Hdb Hcur Hty Hseq Ht Hc Hq Hl. pose proof (serial_start _ Hdb) as [? ?].
  pose proof (serial_range _ Hdb).
  split; cbn; rewrite ?Ht, ?Hc, ?Hq, ?Hl.
  - lia.
  - lia.
  - apply Hdb.
  - apply Hdb.
  - intros k r'. rewrite lookup_insert. case_decide; intros Hk; simplify_eq; [lia|].
    apply (item_pkey _ Hdb) in Hk. lia.
  - intros k r'. rewrite lookup_insert. case_decide; intros Hk; simplify_eq; [done|].
    by apply (item_item_type_id_fkey _ Hdb) in Hk.
  - intros k r' l. rewrite lookup_insert. case_decide; intros Hk ?; simplify_eq.
    by eapply (item_current_loan_id_fkey _ Hdb).
  - apply Hdb.
  - intros l ln Hk. rewrite lookup_insert. case_decide; [by eexists|].
    by eapply (loan_item_id_fkey _ Hdb).
Qed.

Lemma createItem_integrity payload db :
  integrity db → integrity (createItem payload db).2.
Proof.
  intros Hdb. unfold createItem, prisma.item_create, string_arg, nullable, prisma.int_arg. run.
  on_blank; try framed Hdb.
  destruct (get_field payload "itemTypeId"); cbn; try framed Hdb;
    destruct (get_field payload "title"); cbn; try framed Hdb.
  all: destruct (requestedBy_arg _); cbn; try framed Hdb;
    on_bool; repeat case_decide; cbn; try framed Hdb;
    apply item_insert_integrity; try done; by apply Z.leb_le.
Qed.

Lemma checkout_integrity_any env payload db :
  integrity db → integrity (checkout env payload db).2.
Proof.
  intros Hdb.
  destruct (integer_of (get_field payload "itemId")) as [i|] eqn:Hi.
  2: { unfold checkout. rewrite is_number_integer_of, Hi.
       by rewrite bool_decide_eq_false_2 by (by intros [??]). }
  destruct (blank_cases (get_field payload "patronName") db)
    as [(e & Hb & _)|[Hb|(p & Hp & Hne & _)]].
  - unfold checkout. rewrite is_number_integer_of, Hi, bool_decide_eq_true_2 by eauto.
    run. cbn. by rewrite Hb.
  - unfold checkout. rewrite is_number_integer_of, Hi, bool_decide_eq_true_2 by eauto.
    run. cbn. by rewrite Hb.
  - rewrite (checkout_run env payload db i p) by done. cbv zeta.
    destruct (int4 i); cbn [negb]; [|done].
    destruct (Z.leb_spec (loan_id_seq (seqs db)) INT_MAX) as [Hseq|Hseq]; cbn [negb]; [|done].
    assert (integrity (mkDb (rows db) (seqs (loan_seq_advanced db)))) as Hadv.
    { rewrite loan_seq_advanced_seqs by done. framed Hdb. }
    repeat case_match; cbn; try done.
    by apply (checkout_integrity _ db).
Qed.

Lemma return_integrity_any env payload db :
  integrity db → integrity (return_ env payload db).2.
Proof.
  intros Hdb.
  destruct (integer_of (get_field payload "itemId")) as [i|] eqn:Hi.
  2: { unfold return_. rewrite is_number_integer_of, Hi.
       by rewrite bool_decide_eq_false_2 by (by intros [??]). }
  rewrite (return_run env payload db i) by done.
  repeat case_match; cbn; try done; by apply return_integrity.
Qed.

Lemma deleted_integrity db i :
  integrity db → integrity (mkDb (deleted i (rows db)) (seqs db)).
Proof.
  intros Hdb.
  assert (∀ k r', items (deleted i (rows db)) !! k = Some r' →
            ∃ r, items (rows db) !! k = Some r ∧ k ≠ i ∧
                 r' = prisma.current_loan_set_null (loans (rows db)) i r) as Hitem.
  { intros k r'. cbn. rewrite lookup_fmap.
    destruct (delete i (items (rows db)) !! k) as [r|] eqn:Hk; [|done].
    intros [= <-]. apply lookup_delete_Some in Hk as [? ?]. by exists r. }
  split; cbn [rows seqs].
  - apply Hdb.
  - apply Hdb.
  - apply Hdb.
  - apply Hdb.
  - intros k r' (r & Hk & _ & _)%Hitem. by apply (item_pkey _ Hdb) in Hk.
  - intros k r' (r & Hk & _ & ->)%Hitem.
    apply (item_item_type_id_fkey _ Hdb) in Hk.
    unfold prisma.current_loan_set_null. by repeat case_match.
  - intros k r' l (r & Hk & _ & ->)%Hitem. unfold prisma.current_loan_set_null.
    destruct (Item.currentLoanId r) as [l'|] eqn:Hcur; [|by rewrite Hcur].
    destruct (item_current_loan_id_fkey _ Hdb _ _ _ Hk Hcur) as [ln Hln]. rewrite Hln.
    case_decide; [done|]. rewrite Hcur. intros [= <-]. exists ln.
    cbn. by apply map_lookup_filter_Some.
  - intros l ln. cbn. intros [Hl _]%map_lookup_filter_Some. by apply (loan_pkey _ Hdb) in Hl.
  - intros l ln. cbn [deleted loans]. intros [Hl Hne]%map_lookup_filter_Some. cbn in Hne.
    destruct (loan_item_id_fkey _ Hdb _ _ Hl) as [r Hr]. cbn.
    rewrite lookup_fmap, lookup_delete_ne, Hr by done. by eexists.
Qed.

Lemma deleteItem_integrity payload db :
  integrity db → integrity (deleteItem payload db).2.
Proof.
  intros Hdb.
  destruct (integer_of (get_field payload "id")) as [i|] eqn:Hi.
  2: { unfold deleteItem. rewrite is_number_integer_of, Hi.
       by rewrite bool_decide_eq_false_2 by (by intros [??]). }
  rewrite (deleteItem_run payload db i) by done.
  repeat case_match; cbn; try done. by apply deleted_integrity.
Qed.

Lemma switch_integrity env action payload db :
  integrity db → integrity (switch env action payload db).2.
Proof.
  intros Hdb. unfold switch. destruct action; try done.
  repeat case_match; try done;
    auto using createItemType_integrity, createCategory_integrity, createItem_integrity,
      linkCategory_integrity, unlinkCategory_integrity, checkout_integrity_any,
      return_integrity_any, deleteItem_integrity.
Qed.

Lemma handler_integrity env req db :
  integrity db → integrity (handler env req db).2.
Proof.
  intros Hdb. destruct (handler_db env req db) as [->|(a & p & ->)];
    [done|by apply switch_integrity].
Qed.

(** ** The invariant holds in every reachable state *)

(** C4: every request handled by the dispatcher preserves the state
    invariant: an item's currentLoanId is non-null iff the item is on loan;
    when non-null it points to an open Loan row of that item; and an item has
    at most one open loan.  The schema's integrity is preserved along with
    it, so the two together hold after any sequence of requests. *)
Theorem handler_preserves_invariant env req db :
  integrity db →
  state_invariant (rows db) →
  integrity (handler env req db).2 ∧
  state_invariant (rows (handler env req db).2).
Proof.
  intros Hdb Hinv. split; [by apply handler_integrity|].
  eapply step_invariant; [apply Hdb|done|apply handler_step].
Qed.

Lemma handler_preserves_invariant_witness :
  integrity seed ∧ state_invariant (rows seed) ∧
  state_invariant
    (rows (handler demo_env
             (post "checkout" [("itemId", JNum 2); ("patronName", JStr "Bob")]%string) seed).2).
Proof.
  split_and!; [apply integrity_seed|apply state_invariant_seed|].
  apply handler_preserves_invariant; [apply integrity_seed|apply state_invariant_seed].
Defined.

Lemma integrity_empty : integrity empty_db.
Proof. split; cbn; try done; by intros ? ?; rewrite lookup_empty. Qed.

Lemma state_invariant_empty : state_invariant (rows empty_db).
Proof. intros i it. cbn. by rewrite lookup_empty. Qed.

Lemma reachable_invariant db0 db :
  integrity db0 → state_invariant (rows db0) → reachable db0 db →
  integrity db ∧ state_invariant (rows db).
Proof.
  intros Hdb Hinv. induction 1 as [|env req db _ [IH1 IH2]]; [done|].
  split; [by apply handler_integrity|].
  eapply step_invariant; [apply IH1|done|apply handler_step].
Qed.


(** * Further properties of the handler *)

(** ** How a request can end *)

Lemma seqs_le_refl q : seqs_le q q.
Proof. unfold seqs_le. lia. Qed.

(** Closes the goals on the way a case ends. *)
Ltac ends :=
  split; cbn; [unfold seqs_le; cbn; lia|try done; eauto].

Lemma createItemType_ends payload db : case_ends db (createItemType payload db).
Proof.
  unfold createItemType, prisma.itemType_create, string_arg. run.
  on_blank; try ends. on_blank; try ends.
  destruct (get_field payload "code"); cbn; try ends.
  destruct (get_field payload "name"); cbn; try ends.
  on_bool; repeat case_decide; cbn; ends.
Qed.

Lemma createCategory_ends payload db : case_ends db (createCategory payload db).
Proof.
  unfold createCategory, prisma.category_create, string_arg, nullable, prisma.int_arg. run.
  on_blank; try ends. on_blank; try ends.
  destruct (get_field payload "code"); cbn; try ends.
  destruct (get_field payload "name"); cbn; try ends.
  destruct (get_field payload "parentId"); cbn; try ends;
    on_bool; repeat case_decide; cbn; ends.
Qed.

Lemma createItem_ends payload db : case_ends db (createItem payload db).
Proof.
  unfold createItem, prisma.item_create, string_arg, nullable, prisma.int_arg. run.
  on_blank; try ends.
  destruct (get_field payload "itemTypeId"); cbn; try ends;
    destruct (get_field payload "title"); cbn; try ends.
  all: destruct (requestedBy_arg _); cbn; try ends;
    on_bool; repeat case_decide; cbn; ends.
Qed.

Lemma linkCategory_ends payload db : case_ends db (linkCategory payload db).
Proof.
  unfold linkCategory, prisma.item_connect_category, prisma.int_arg. run.
  destruct (get_field payload "itemId"); cbn; try ends;
    destruct (get_field payload "categoryId"); cbn; try ends.
  all: repeat case_match; simplify_eq; cbn; ends.
Qed.

Lemma unlinkCategory_ends payload db : case_ends db (unlinkCategory payload db).
Proof.
  unfold unlinkCategory, prisma.item_disconnect_category, prisma.int_arg. run.
  destruct (get_field payload "itemId"); cbn; try ends;
    destruct (get_field payload "categoryId"); cbn; try ends.
  all: repeat case_match; simplify_eq; cbn; ends.
Qed.

Lemma checkout_ends env payload db : case_ends db (checkout env payload db).
Proof.
  destruct (integer_of (get_field payload "itemId")) as [i|] eqn:Hi.
  2: { unfold checkout. rewrite is_number_integer_of, Hi.
       rewrite bool_decide_eq_false_2 by (by intros [??]). ends. }
  destruct (blank_cases (get_field payload "patronName") db)
    as [(e & Hb & _)|[Hb|(p & Hp & Hne & _)]].
  - unfold checkout. rewrite is_number_integer_of, Hi, bool_decide_eq_true_2 by eauto.
    run. cbn. rewrite Hb. ends.
  - unfold checkout. rewrite is_number_integer_of, Hi, bool_decide_eq_true_2 by eauto.
    run. cbn. rewrite Hb. ends.
  - rewrite (checkout_run env payload db i p) by done. cbv zeta.
    destruct (int4 i); cbn [negb]; [|ends].
    destruct (Z.leb_spec (loan_id_seq (seqs db)) INT_MAX) as [Hseq|Hseq]; cbn [negb]; [|ends].
    rewrite loan_seq_advanced_seqs by done.
    repeat case_match; cbn; ends.
Qed.

Lemma return_ends env payload db : case_ends db (return_ env payload db).
Proof.
  destruct (integer_of (get_field payload "itemId")) as [i|] eqn:Hi.
  2: { unfold return_. rewrite is_number_integer_of, Hi.
       rewrite bool_decide_eq_false_2 by (by intros [??]). ends. }
  rewrite (return_run env payload db i) by done.
  repeat case_match; cbn; ends.
Qed.

Lemma deleteItem_ends payload db : case_ends db (deleteItem payload db).
Proof.
  destruct (integer_of (get_field payload "id")) as [i|] eqn:Hi.
  2: { unfold deleteItem. rewrite is_number_integer_of, Hi.
       rewrite bool_decide_eq_false_2 by (by intros [??]). ends. }
  rewrite (deleteItem_run payload db i) by done.
  repeat case_match; cbn; ends.
Qed.

Lemma switch_ends env action payload db : case_ends db (switch env action payload db).
Proof.
  unfold switch. destruct action; try ends.
  repeat case_match; try ends;
    auto using createItemType_ends, createCategory_ends, createItem_ends, linkCategory_ends,
      unlinkCategory_ends, checkout_ends, return_ends, deleteItem_ends.
Qed.

Lemma catch_block_shape e :
  ∃ msg, catch_block e = failure 404 msg ∨ catch_block e = failure 400 msg.
Proof.
  destruct e as [code m|m|m|m]; cbn; [|by eexists; right..].
  destruct (String.eqb code "P2025"); eexists; [by left|by right].
Qed.

(** The ways a request goes through the handler. *)
Lemma handler_cases env req db :
  ((¬ ∃ expected, configured env expected) ∧
   handler env req db =
     (failure 500 "Server configuration error: Authentication token not set.", db)) ∨
  ∃ expected, configured env expected ∧
    ((method req = "GET"%string ∧ handler env req db = respond (inr Break, db)) ∨
     (method req ≠ "GET"%string ∧ method req ≠ "POST"%string ∧
      handler env req db = (failure 405 "Method not allowed", db)) ∨
     (method req = "POST"%string ∧ unauthorized (authorization req) expected = true ∧
      handler env req db = (failure 401 "Unauthorized: Invalid or missing token.", db)) ∨
     (method req = "POST"%string ∧ unauthorized (authorization req) expected = false ∧
      ∃ msg, handler env req db = (failure 400 msg, db)) ∨
     (∃ action payload, accepted env req action payload ∧
        handler env req db = respond (switch env action payload db))).
Proof.
  destruct (NEXT_PUBLIC_DEMO_AUTH_TOKEN env) as [[|c tok]|] eqn:Htok.
  1,3: left; split; [intros (expected & H1 & H2); congruence|];
       unfold handler, try_block; by rewrite Htok.
  right. exists (String c tok). assert (configured env (String c tok)) as Hconf by done.
  split; [done|].
  destruct (String.eqb_spec (method req) "GET") as [Hget|Hget].
  { left. split; [done|]. rewrite (handler_GET env req _ db Hconf Hget). done. }
  right.
  destruct (String.eqb_spec (method req) "POST") as [Hpost|Hpost].
  2: { left. split_and!; try done. unfold handler, try_block. rewrite Htok.
       rewrite (proj2 (String.eqb_neq _ _) Hget), (proj2 (String.eqb_neq _ _) Hpost). done. }
  right.
  destruct (unauthorized (authorization req) (String c tok)) eqn:Hun.
  { left. split_and!; try done. by apply (handler_unauthorized env req (String c tok)). }
  right.
  destruct (truthy (get_field (body req) "action")) eqn:Ha;
    [destruct (truthy (get_field (body req) "payload")) eqn:Hp|].
  - right. exists (get_field (body req) "action"), (get_field (body req) "payload").
    assert (accepted env req (get_field (body req) "action") (get_field (body req) "payload"))
      as Hacc.
    { split; [by exists (String c tok)|done]. }
    split; [done|by apply handler_accepted].
  - left. split_and!; try done. unfold handler, try_block.
    rewrite Htok, Hpost, Hun. cbn.
    destruct (body req); cbn in *; try (by eexists); rewrite Ha, Hp; by eexists.
  - left. split_and!; try done. unfold handler, try_block.
    rewrite Htok, Hpost, Hun. cbn.
    destruct (body req); cbn in *; try (by eexists); rewrite Ha; by eexists.
Qed.

Lemma respond_shape db x :
  case_ends db x →
  (∃ code msg, (respond x).1 = failure code msg ∧ (code = 400 ∨ code = 404)) ∨
  (∃ snapshot, (respond x).1 = success snapshot).
Proof.
  destruct x as [[e|[r|]] db']; cbn.
  - intros _. left. destruct (catch_block_shape e) as [msg [->| ->]]; eauto.
  - intros (_ & _ & msg & ->). left. eauto.
  - intros _. destruct (getSnapshot db') as [[e|snap] db'']; cbn; [|by right; eexists].
    left. destruct (catch_block_shape e) as [msg [->| ->]]; eauto.
Qed.

Lemma respond_Break_shape db :
  (∃ code msg, (respond (inr Break, db)).1 = failure code msg ∧ (code = 400 ∨ code = 404)) ∨
  (∃ snapshot, (respond (inr Break, db)).1 = success snapshot).
Proof. apply (respond_shape db). split; [apply seqs_le_refl|done]. Qed.

(** Membership in a list given by its elements. *)
Ltac listed := set_unfold; tauto.

(** X1: the handler answers only with the statuses 200, 400, 401, 404, 405
    and 500; the body has ok = true exactly with status 200, and then carries
    a snapshot and no message, otherwise a message and no snapshot. *)
Theorem handler_status_codes env req db :
  let r := (handler env req db).1 in
  status r ∈ [200; 400; 401; 404; 405; 500] ∧
  (Types.ok (json_body r) = true ↔ status r = 200) ∧
  (Types.ok (json_body r) = true →
     is_Some (Types.snapshot (json_body r)) ∧ Types.message (json_body r) = None) ∧
  (Types.ok (json_body r) = false →
     is_Some (Types.message (json_body r)) ∧ Types.snapshot (json_body r) = None).
Proof.
  cbv zeta.
  assert ((∃ code msg, (handler env req db).1 = failure code msg ∧
             code ∈ [400; 401; 404; 405; 500]) ∨
          (∃ snapshot, (handler env req db).1 = success snapshot)) as Hshape.
  { destruct (handler_cases env req db)
      as [[_ ->]|(tok & _ & [[_ ->]|[(_ & _ & ->)|[(_ & _ & ->)|[(_ & _ & msg & ->)
          |(a & p & _ & ->)]]]])].
    - left. eexists _, _. split; [done|listed].
    - destruct (respond_Break_shape db) as [(code & msg & -> & [-> | ->])|[snap ->]];
        [left; eexists _, _; split; [done|listed]..|right; by eexists].
    - left. eexists _, _. split; [done|listed].
    - left. eexists _, _. split; [done|listed].
    - left. eexists _, _. split; [done|listed].
    - destruct (respond_shape db _ (switch_ends env a p db))
        as [(code & msg & -> & [-> | ->])|[snap ->]];
        [left; eexists _, _; split; [done|listed]..|right; by eexists]. }
  destruct Hshape as [(code & msg & -> & Hcode)|[snap ->]]; cbn.
  - split_and!; [|split; [done|] |done|by eauto].
    + set_unfold in Hcode. set_unfold. tauto.
    + intros ->. set_unfold in Hcode. by destruct_or!.
  - split_and!; [listed|done|by eauto|done].
Qed.


Lemma respond_status db x :
  case_ends db x →
  status (respond x).1 = 200 ∨ status (respond x).1 = 400 ∨ status (respond x).1 = 404.
Proof.
  intros Hx. destruct (respond_shape db x Hx) as [(code & msg & -> & [-> | ->])|[snap ->]];
    cbn; auto.
Qed.

(** X2: status 500 is answered exactly when the token is not configured, 405
    exactly when it is configured and the method is neither GET nor POST, and
    401 exactly when it is configured and a POST does not carry it. *)
Theorem gate_statuses env req db :
  let r := (handler env req db).1 in
  (status r = 500 ↔ ¬ ∃ expected, configured env expected) ∧
  (∀ expected, configured env expected →
     (status r = 405 ↔ method req ≠ "GET"%string ∧ method req ≠ "POST"%string) ∧
     (status r = 401 ↔
        method req = "POST"%string ∧ unauthorized (authorization req) expected = true)).
Proof.
  cbv zeta.
  destruct (handler_cases env req db) as [[Hun ->]|(tok & Hconf & Hcases)].
  { split; [done|]. intros expected Hexp. destruct Hun. by exists expected. }
  assert (∀ expected, configured env expected → expected = tok) as Huniq.
  { intros expected [H1 _]. destruct Hconf as [H2 _]. congruence. }
  assert (∃ expected, configured env expected) as Hex by by exists tok.
  destruct Hcases as [[Hget Heq]|[(Hget & Hpost & Heq)|[(Hpost & Hauth & Heq)
                     |[(Hpost & Hauth & msg & Heq)|(a & p & Hacc & Heq)]]]]; rewrite Heq.
  - destruct (respond_status db (inr Break, db)) as [Hs|[Hs|Hs]];
      [split; [apply seqs_le_refl|done]|..]; rewrite Hs.
    all: split; [split; [done|tauto]|].
    all: intros expected ->%Huniq; split; (split; [done|intros [? ?]; congruence]).
  - cbn. split; [split; [done|tauto]|].
    intros expected ->%Huniq. split; [done|]. split; [done|]. intros [? _]. done.
  - cbn. split; [split; [done|tauto]|].
    intros expected ->%Huniq. split; [|done]. split; [done|]. intros [_ ?]. done.
  - cbn. split; [split; [done|tauto]|].
    intros expected ->%Huniq. split; (split; [done|intros [? ?]; congruence]).
  - destruct Hacc as ((tok' & Htok' & Hne' & Hauth) & Hpost & _).
    assert (tok' = tok) as -> by by apply Huniq.
    destruct (respond_status db _ (switch_ends env a p db)) as [Hs|[Hs|Hs]]; rewrite Hs.
    all: split; [split; [done|tauto]|].
    all: intros expected ->%Huniq; split; (split; [done|intros [? ?]; congruence]).
Qed.

Lemma gate_statuses_witness :
  configured demo_env "demo-token" ∧
  status (handler demo_env (mkRequest "PUT" None JUndefined) seed).1 = 405.
Proof.
  split; [done|].
  destruct (gate_statuses demo_env (mkRequest "PUT" None JUndefined) seed) as [_ H].
  destruct (H "demo-token"%string) as [H405 _]; [done|].
  by apply H405.
Defined.

(** X3: a request that is answered with ok = false has changed no row of any
    table. *)
Theorem failure_leaves_rows env req db :
  integrity db →
  Types.ok (json_body (handler env req db).1) = false →
  rows (handler env req db).2 = rows db.
Proof.
  intros Hdb.
  destruct (handler_cases env req db)
    as [[_ ->]|(tok & _ & [[_ ->]|[(_ & _ & ->)|[(_ & _ & ->)|[(_ & _ & msg & ->)
        |(a & p & _ & ->)]]]])]; try done.
  - rewrite respond_db. done.
  - pose proof (switch_ends env a p db) as [_ Hends].
    pose proof (switch_integrity env a p db Hdb) as Hdb'.
    rewrite respond_db.
    destruct (switch env a p db) as [[e|[r|]] db']; cbn in *; try done.
    + by destruct Hends as [-> _].
    + destruct (respond_Break db' Hdb') as (snap & -> & _). done.
Qed.

Lemma failure_leaves_rows_witness :
  rows (handler demo_env
          (post "checkout" [("itemId", JNum 1); ("patronName", JStr "Bob")]%string) seed).2
  = rows seed.
Proof. apply failure_leaves_rows; [apply integrity_seed|reflexivity]. Defined.

(** X4: a request that is answered with ok = true carries the snapshot of
    the database as the request leaves it. *)
Theorem success_carries_current_snapshot env req db :
  Types.ok (json_body (handler env req db).1) = true →
  ∃ snapshot,
    (handler env req db).1 = success snapshot ∧
    getSnapshot (handler env req db).2 = (inr snapshot, (handler env req db).2).
Proof.
  assert (∀ x, case_ends db x → Types.ok (json_body (respond x).1) = true →
            ∃ snapshot, (respond x).1 = success snapshot ∧
                        getSnapshot (respond x).2 = (inr snapshot, (respond x).2)) as Hresp.
  { intros [[e|[r|]] db'] [_ Hends] Hok; cbn in *.
    - by destruct (catch_block_shape e) as [msg [Hc|Hc]]; rewrite Hc in Hok.
    - by destruct Hends as (_ & msg & ->).
    - destruct (getSnapshot db') as [[e|snap] db''] eqn:Hsnap; cbn in *.
      + by destruct (catch_block_shape e) as [msg [Hc|Hc]]; rewrite Hc in Hok.
      + pose proof (getSnapshot_unchanged _ _ _ Hsnap) as ->. by exists snap. }
  destruct (handler_cases env req db)
    as [[_ ->]|(tok & _ & [[_ ->]|[(_ & _ & ->)|[(_ & _ & ->)|[(_ & _ & msg & ->)
        |(a & p & _ & ->)]]]])]; try done.
  - apply Hresp. split; [apply seqs_le_refl|done].
  - apply Hresp, switch_ends.
Qed.

Lemma success_carries_current_snapshot_witness :
  ∃ snapshot,
    (handler demo_env (post "return" [("itemId", JNum 1)]%string) seed).1 = success snapshot ∧
    getSnapshot (handler demo_env (post "return" [("itemId", JNum 1)]%string) seed).2
      = (inr snapshot, (handler demo_env (post "return" [("itemId", JNum 1)]%string) seed).2).
Proof. apply success_carries_current_snapshot. reflexivity. Defined.


(** ** The bearer check *)

Lemma string_app_cons (a : ascii) (s r : string) : String a s +:+ r = String a (s +:+ r).
Proof. reflexivity. Qed.

Lemma string_app_nil (r : string) : EmptyString +:+ r = r.
Proof. reflexivity. Qed.

Lemma prefix_app (p s : string) : String.prefix p s = true ↔ ∃ r, s = p +:+ r.
Proof.
  revert s. induction p as [|a p IH]; intros s; cbn.
  - split; [intros _; by exists s|by destruct s].
  - destruct s as [|b s]; cbn.
    + split; [done|by intros [r ?]].
    + destruct (Ascii.ascii_dec a b) as [->|Hne].
      * rewrite IH. split; intros [r Hr]; exists r; rewrite string_app_cons in *; congruence.
      * split; [done|]. intros [r Hr]. rewrite string_app_cons in Hr. congruence.
Qed.

(** The first piece of a split holds no separator, and the rest of the
    string, if any, starts right after the separator that ends it. *)
Lemma split_head (sep : ascii) (s : string) :
  ∃ hd tl, Js.split sep s = hd :: tl ∧ contains sep hd = false ∧
           ((s = hd ∧ tl = []) ∨ ∃ rest, s = hd +:+ String sep rest ∧ tl = Js.split sep rest).
Proof.
  induction s as [|a s (hd & tl & IH & Hhd & Hrest)]; cbn.
  { exists EmptyString, []. split_and!; [done..|by left]. }
  destruct (Ascii.eqb_spec a sep) as [->|Hne].
  - exists EmptyString, (Js.split sep s). split_and!; [done..|]. right. by exists s.
  - rewrite IH. exists (String a hd), tl. split_and!; [done| |].
    + cbn. rewrite Hhd. by rewrite (proj2 (Ascii.eqb_neq _ _) Hne).
    + destruct Hrest as [[-> ->]|(rest & -> & ->)]; [by left|right; by exists rest].
Qed.

Lemma split_nospace (sep : ascii) (a : string) :
  contains sep a = false →
  Js.split sep a = [a] ∧ ∀ b, Js.split sep (a +:+ String sep b) = a :: Js.split sep b.
Proof.
  induction a as [|c a IH]; cbn.
  - intros _. split; [done|]. intros b. rewrite string_app_nil. cbn. by rewrite Ascii.eqb_refl.
  - intros [Hc Ha]%orb_false_elim. rewrite Hc. destruct (IH Ha) as [-> IHb].
    split; [done|]. intros b. rewrite string_app_cons. cbn. by rewrite Hc, IHb.
Qed.

(** X5: a header passes the bearer check exactly when the configured token
    holds no space and the header is "Bearer " followed by the token, alone or
    followed by a space and anything; so a configured token that holds a
    space is matched by no header at all. *)
Theorem bearer_check (h expected : string) :
  unauthorized (Some h) expected = false ↔
  contains " " expected = false ∧
  (h = "Bearer " +:+ expected ∨ ∃ rest, h = "Bearer " +:+ expected +:+ " " +:+ rest).
Proof.
  unfold unauthorized, Js.startsWith. split.
  - intros [[Hne Hpre]%orb_false_elim Htok]%orb_false_elim.
    apply negb_false_iff, prefix_app in Hpre as [h' ->].
    rewrite !string_app_cons, string_app_nil in Htok. cbn in Htok.
    destruct (split_head " " h') as (hd & tl & Hsplit & Hhd & Hrest).
    rewrite Hsplit in Htok. cbn in Htok.
    apply negb_false_iff, String.eqb_eq in Htok as ->.
    split; [done|].
    destruct Hrest as [[-> _]|(rest & -> & _)]; [by left|right; by exists rest].
  - intros [Hsp Hh]. destruct (split_nospace " " expected Hsp) as [Hone Hmore].
    destruct Hh as [->|[rest ->]]; rewrite !string_app_cons, !string_app_nil; cbn.
    + rewrite Hone. cbn. rewrite String.eqb_refl. by destruct expected.
    + rewrite Hmore. cbn. rewrite String.eqb_refl. by destruct expected.
Qed.

(** ** The validation of text fields *)

Lemma trimStart_cases (s : string) :
  (Js.trimStart s = EmptyString ∧ all_ws s = true) ∨
  (∃ a r, Js.trimStart s = String a r ∧ Js.is_ws a = false ∧ all_ws s = false).
Proof.
  induction s as [|a s IH]; cbn; [by left|].
  destruct (Js.is_ws a) eqn:Ha; cbn; [done|]. right. by exists a, s.
Qed.

Lemma trimEnd_empty (s : string) : Js.trimEnd s = EmptyString ↔ all_ws s = true.
Proof.
  induction s as [|a s IH]; cbn; [done|].
  destruct (Js.trimEnd s) as [|b t] eqn:Ht.
  - assert (all_ws s = true) as -> by by apply IH.
    rewrite andb_true_r. by destruct (Js.is_ws a).
  - split; [done|]. intros [_ Hs]%andb_true_iff. by apply IH in Hs.
Qed.

Lemma trim_empty (s : string) : Js.trim s = EmptyString ↔ all_ws s = true.
Proof.
  unfold Js.trim. rewrite trimEnd_empty.
  destruct (trimStart_cases s) as [[-> ->]|(a & r & -> & Ha & ->)]; [done|].
  cbn. by rewrite Ha.
Qed.

(** X6: a text field passes the validation exactly when it is a string with a
    character that is not white space; a falsy value or a string of white
    space only is reported as missing, and any other value raises an
    exception.  The database is not touched. *)
Theorem text_field_validation (v : json) (db : Db) :
  (blank v db = (inr false, db) ↔ ∃ s, v = JStr s ∧ all_ws s = false) ∧
  (blank v db = (inr true, db) ↔ truthy v = false ∨ ∃ s, v = JStr s ∧ all_ws s = true) ∧
  ((∃ e, blank v db = (inl e, db)) ↔ truthy v = true ∧ ∀ s, v ≠ JStr s).
Proof.
  destruct v as [| |[]|n| |s| |].
  7: { rewrite blank_JStr.
       destruct (all_ws s) eqn:Hws.
       - rewrite bool_decide_eq_true_2 by by apply trim_empty.
         split_and!.
         + split; [done|]. intros (s' & [= <-] & ?). congruence.
         + split; [right; by exists s|done].
         + split; [by intros [e ?]|]. intros [_ H]. by destruct (H s).
       - rewrite bool_decide_eq_false_2
           by (rewrite trim_empty; congruence).
         split_and!.
         + split; [by exists s|done].
         + split; [done|]. intros [Ht|(s' & [= <-] & ?)]; [|congruence].
           cbn in Ht. destruct s; [done|]. done.
         + split; [by intros [e ?]|]. intros [_ H]. by destruct (H s). }
  all: unfold blank; cbn [truthy negb]; run.
  all: try (split_and!; [split; [done|by intros (? & ? & ?)]
                         |split; [by left|done]
                         |split; [by intros [? ?]|by intros [? _]]]).
  all: try (split_and!; [split; [done|by intros (? & ? & ?)]
                         |split; [done|by intros [?|(? & ? & ?)]]
                         |split; [done|by eexists]]).
  destruct (n =? 0) eqn:Hn; cbn [negb].
  - split_and!; [split; [done|by intros (? & ? & ?)]
                |split; [by left|done]
                |split; [by intros [? ?]|by intros [? _]]].
  - split_and!; [split; [done|by intros (? & ? & ?)]
                |split; [done|by intros [?|(? & ? & ?)]]
                |split; [done|by eexists]].
Qed.


(** ** The create actions *)

Lemma blank_text (s : string) (db : Db) :
  all_ws s = false → blank (JStr s) db = (inr false, db).
Proof.
  intros Hs. apply blank_ok. rewrite trim_empty. congruence.
Qed.

Lemma createItemType_run payload db c n :
  get_field payload "code" = JStr c → get_field payload "name" = JStr n →
  all_ws c = false → all_ws n = false →
  createItemType payload db =
    if negb (item_type_id_seq (seqs db) <=? INT_MAX) then (inl sequence_exhausted, db) else
    let id := item_type_id_seq (seqs db) in
    let q := seqs (nextval_item_type db).2 in
    if decide (is_Some (itemTypes (rows db) !! id)) then (inl P2002, mkDb (rows db) q)
    else if decide (map_Exists (λ _ r, ItemType.code r = c) (itemTypes (rows db)))
    then (inl P2002, mkDb (rows db) q)
    else (inr Break, mkDb (set_itemTypes <[id := ItemType.mk c n]> (rows db)) q).
Proof.
  intros Hc Hn Hcs Hns. unfold createItemType. rewrite Hc, Hn.
  unfold mbind at 1, M_bind at 1. rewrite blank_text by done.
  unfold mbind at 1, M_bind at 1. rewrite blank_text by done.
  unfold prisma.itemType_create, string_arg. run. cbn.
  destruct (item_type_id_seq (seqs db) <=? INT_MAX); cbn; [|done].
  by repeat case_decide.
Qed.

(** X7: createItemType with a code and a name that pass the validation adds
    exactly one item type, under the next id of the sequence, when no item
    type has the code yet and the sequence has a value left, and the new type
    is in the snapshot answered; when the code is taken, and when the
    sequence is exhausted, the answer is 400 and no row changes. *)
Theorem create_item_type env req payload db c n :
  accepted env req (JStr "createItemType") payload →
  integrity db →
  get_field payload "code" = JStr c → get_field payload "name" = JStr n →
  all_ws c = false → all_ws n = false →
  ((¬ ∃ k r, itemTypes (rows db) !! k = Some r ∧ ItemType.code r = c) →
   item_type_id_seq (seqs db) ≤ INT_MAX →
     ∃ snapshot db',
       handler env req db = (success snapshot, db') ∧
       itemTypes (rows db) !! item_type_id_seq (seqs db) = None ∧
       rows db' =
         set_itemTypes <[item_type_id_seq (seqs db) := ItemType.mk c n]> (rows db) ∧
       Types.ItemType.mk (item_type_id_seq (seqs db)) c n ∈ Types.itemTypes snapshot) ∧
  ((∃ k r, itemTypes (rows db) !! k = Some r ∧ ItemType.code r = c) →
     ∃ msg db', handler env req db = (failure 400 msg, db') ∧ rows db' = rows db) ∧
  (INT_MAX < item_type_id_seq (seqs db) →
     ∃ msg, handler env req db = (failure 400 msg, db)).
Proof.
  intros Hreq Hdb Hc Hn Hcs Hns.
  assert (itemTypes (rows db) !! item_type_id_seq (seqs db) = None) as Hfresh.
  { destruct (itemTypes (rows db) !! _) eqn:Hk; [|done].
    apply (item_type_pkey _ Hdb) in Hk. lia. }
  rewrite (handler_accepted _ _ _ _ _ Hreq). cbn [switch String.eqb Ascii.eqb Bool.eqb].
  rewrite (createItemType_run payload db c n) by done. cbv zeta.
  split_and!.
  - intros Hcode Hseq. rewrite (proj2 (Z.leb_le _ _) Hseq). cbn [negb].
    rewrite decide_False by (rewrite Hfresh; by intros [? ?]).
    rewrite decide_False by done.
    set (db' := mkDb _ _).
    destruct (getSnapshot_ok db') as [snap Hsnap].
    { intros i it Hit. cbn in *. rewrite lookup_insert. case_decide; [by eexists|].
      by apply (item_item_type_id_fkey _ Hdb) in Hit. }
    exists snap, db'. cbn [respond]. rewrite Hsnap. split_and!; [done..|].
    apply getSnapshot_inr in Hsnap as (sel & _ & ->). cbn.
    apply list_elem_of_fmap. exists (item_type_id_seq (seqs db), ItemType.mk c n).
    split; [done|]. apply elem_of_map_to_list. apply lookup_insert_eq.
  - intros Hcode. destruct (_ <=? _); cbn [negb]; [|cbn; by eexists _, _].
    rewrite decide_False by (rewrite Hfresh; by intros [? ?]).
    rewrite decide_True by done. cbn. by eexists _, _.
  - intros Hseq. rewrite (proj2 (Z.leb_gt _ _) Hseq). cbn. by eexists.
Qed.

Lemma create_item_type_witness :
  ∃ snapshot db',
    handler demo_env (post "createItemType" [("code", JStr "DVD"); ("name", JStr "Dvd")]%string) seed
      = (success snapshot, db') ∧
    Types.ItemType.mk 3 "DVD" "Dvd" ∈ Types.itemTypes snapshot.
Proof.
  destruct (create_item_type demo_env
              (post "createItemType" [("code", JStr "DVD"); ("name", JStr "Dvd")]%string)
              (JObj [("code", JStr "DVD"); ("name", JStr "Dvd")]%string) seed "DVD" "Dvd")
    as [Hfree _].
  - by apply accepted_post.
  - apply integrity_seed.
  - reflexivity.
  - reflexivity.
  - reflexivity.
  - reflexivity.
  - destruct Hfree as (snap & db' & H & _ & _ & Hin).
    + intros (k & r & Hk & Hr). apply elem_of_map_to_list in Hk.
      revert Hk.
      let l := eval vm_compute in (map_to_list (itemTypes (rows seed))) in
      change (map_to_list (itemTypes (rows seed))) with l.
      intros Hk. set_unfold in Hk. destruct_or?; by simplify_eq.
    + by vm_compute.
    + by exists snap, db'.
Defined.

Lemma optional_id_int (v : json) (po : option Z) :
  optional_id v = Some po → optional_int v = Some po.
Proof. destruct v; cbn; by intros [= <-]. Qed.

Lemma nullable_optional_int (v : json) (po : option Z) (db : Db) :
  optional_int v = Some po →
  nullable prisma.int_arg v db =
    (match po with
     | Some p => if int4 p then inr po else inl P2020
     | None => inr None
     end, db).
Proof. destruct v; cbn; intros [= <-]; try done; by case_match. Qed.

Lemma createCategory_run payload db c n po :
  get_field payload "code" = JStr c → get_field payload "name" = JStr n →
  all_ws c = false → all_ws n = false →
  optional_int (get_field payload "parentId") = Some po →
  createCategory payload db =
    if negb (from_option int4 true po) then (inl P2020, db) else
    if negb (category_id_seq (seqs db) <=? INT_MAX) then (inl sequence_exhausted, db) else
    let id := category_id_seq (seqs db) in
    let q := seqs (nextval_category db).2 in
    if decide (is_Some (categories (rows db) !! id)) then (inl P2002, mkDb (rows db) q)
    else if decide (map_Exists (λ _ r, Category.code r = c) (categories (rows db)))
    then (inl P2002, mkDb (rows db) q)
    else
      let s' := set_categories <[id := Category.mk c n po]> (rows db) in
      match po with
      | Some p =>
          if decide (is_Some (categories s' !! p)) then (inr Break, mkDb s' q)
          else (inl P2003, mkDb (rows db) q)
      | None => (inr Break, mkDb s' q)
      end.
Proof.
  intros Hc Hn Hcs Hns Hp. unfold createCategory. rewrite Hc, Hn.
  unfold mbind at 1, M_bind at 1. rewrite blank_text by done.
  unfold mbind at 1, M_bind at 1. rewrite blank_text by done.
  unfold string_arg. run. rewrite (nullable_optional_int _ po) by done.
  destruct po as [p|]; cbn [from_option].
  - destruct (int4 p) eqn:Hr; cbn [negb]; [|done].
    unfold prisma.category_create. run. cbn.
    destruct (category_id_seq (seqs db) <=? INT_MAX); cbn; [|done].
    by repeat case_decide.
  - unfold prisma.category_create. run. cbn.
    destruct (category_id_seq (seqs db) <=? INT_MAX); cbn; [|done].
    by repeat case_decide.
Qed.

(** X8: createCategory with a code and a name that pass the validation and a
    code no category has yet adds exactly one category under the next id, as
    long as the sequence has a value left, with parentId null when the field
    is absent or null and with the given parent when that category exists;
    it answers 400 without changing a row when the parent is neither an
    existing category nor the id the new category gets, when the code is
    taken, and when the sequence is exhausted. *)
Theorem create_category env req payload db c n po :
  accepted env req (JStr "createCategory") payload →
  integrity db →
  get_field payload "code" = JStr c → get_field payload "name" = JStr n →
  all_ws c = false → all_ws n = false →
  optional_id (get_field payload "parentId") = Some po →
  ((¬ ∃ k r, categories (rows db) !! k = Some r ∧ Category.code r = c) →
   (∀ p, po = Some p → is_Some (categories (rows db) !! p)) →
   category_id_seq (seqs db) ≤ INT_MAX →
     ∃ snapshot db',
       handler env req db = (success snapshot, db') ∧
       categories (rows db) !! category_id_seq (seqs db) = None ∧
       rows db' =
         set_categories <[category_id_seq (seqs db) := Category.mk c n po]> (rows db) ∧
       Types.Category.mk (category_id_seq (seqs db)) c n po ∈ Types.categories snapshot) ∧
  (∀ p, po = Some p → categories (rows db) !! p = None → p ≠ category_id_seq (seqs db) →
     ∃ msg db', handler env req db = (failure 400 msg, db') ∧ rows db' = rows db) ∧
  ((∃ k r, categories (rows db) !! k = Some r ∧ Category.code r = c) →
     ∃ msg db', handler env req db = (failure 400 msg, db') ∧ rows db' = rows db) ∧
  (INT_MAX < category_id_seq (seqs db) →
     ∃ msg, handler env req db = (failure 400 msg, db)).
Proof.
  intros Hreq Hdb Hc Hn Hcs Hns Hp.
  assert (categories (rows db) !! category_id_seq (seqs db) = None) as Hfresh.
  { destruct (categories (rows db) !! _) eqn:Hk; [|done].
    apply (category_pkey _ Hdb) in Hk. lia. }
  rewrite (handler_accepted _ _ _ _ _ Hreq). cbn [switch String.eqb Ascii.eqb Bool.eqb].
  rewrite (createCategory_run payload db c n po) by (done || by apply optional_id_int).
  cbv zeta.
  split_and!.
  - intros Hcode Hparent Hseq.
    assert (from_option int4 true po = true) as ->.
    { destruct po as [p|]; [|done]. destruct (Hparent p eq_refl) as [cat Hcat].
      by apply (category_int4 db p cat). }
    rewrite (proj2 (Z.leb_le _ _) Hseq). cbn [negb].
    rewrite decide_False by (rewrite Hfresh; by intros [? ?]).
    rewrite decide_False by done.
    pose (db' := mkDb (set_categories
                         <[category_id_seq (seqs db) := Category.mk c n po]> (rows db))
                   (seqs (nextval_category db).2)).
    assert (∃ snapshot db'',
              respond (inr Break, db') = (success snapshot, db'') ∧
              categories (rows db) !! category_id_seq (seqs db) = None ∧
              rows db'' = rows db' ∧
              Types.Category.mk (category_id_seq (seqs db)) c n po
                ∈ Types.categories snapshot) as Hgoal.
    { destruct (getSnapshot_ok db') as [snap Hsnap]; [apply Hdb|].
      exists snap, db'. cbn [respond]. rewrite Hsnap. split_and!; [done..|].
      apply getSnapshot_inr in Hsnap as (sel & _ & ->). cbn.
      apply list_elem_of_fmap. exists (category_id_seq (seqs db), Category.mk c n po).
      split; [done|]. apply elem_of_map_to_list. apply lookup_insert_eq. }
    destruct po as [p|]; [|exact Hgoal].
    rewrite decide_True; [exact Hgoal|]. cbn.
    rewrite lookup_insert. case_decide; [by eexists|]. by apply Hparent.
  - intros p -> Hmiss Hne. cbn [from_option].
    destruct (int4 p); cbn [negb]; [|cbn; by eexists _, _].
    destruct (_ <=? _); cbn [negb]; [|cbn; by eexists _, _].
    case_decide; [cbn; by eexists _, _|].
    case_decide; [cbn; by eexists _, _|].
    rewrite decide_False.
    + cbn. by eexists _, _.
    + cbn. rewrite lookup_insert_ne by done. rewrite Hmiss. by intros [? ?].
  - intros Hcode. destruct (negb _); [cbn; by eexists _, _|].
    destruct (negb _); [cbn; by eexists _, _|].
    rewrite decide_False by (rewrite Hfresh; by intros [? ?]).
    rewrite decide_True by done. cbn. by eexists _, _.
  - intros Hseq. destruct (negb _); [cbn; by eexists|].
    rewrite (proj2 (Z.leb_gt _ _) Hseq). cbn. by eexists.
Qed.

Lemma create_category_witness :
  ∃ snapshot db',
    handler demo_env
      (post "createCategory" [("code", JStr "DUNE"); ("name", JStr "Dune"); ("parentId", JNum 2)]%string)
      seed = (success snapshot, db') ∧
    Types.Category.mk 3 "DUNE" "Dune" (Some 2) ∈ Types.categories snapshot.
Proof.
  destruct (create_category demo_env
              (post "createCategory"
                 [("code", JStr "DUNE"); ("name", JStr "Dune"); ("parentId", JNum 2)]%string)
              (JObj [("code", JStr "DUNE"); ("name", JStr "Dune"); ("parentId", JNum 2)]%string)
              seed "DUNE" "Dune" (Some 2))
    as [Hfree _].
  - by apply accepted_post.
  - apply integrity_seed.
  - reflexivity.
  - reflexivity.
  - reflexivity.
  - reflexivity.
  - reflexivity.
  - destruct Hfree as (snap & db' & H & _ & _ & Hin).
    + intros (k & r & Hk & Hr). apply elem_of_map_to_list in Hk.
      revert Hk.
      let l := eval vm_compute in (map_to_list (categories (rows seed))) in
      change (map_to_list (categories (rows seed))) with l.
      intros Hk. set_unfold in Hk. destruct_or?; by simplify_eq.
    + intros p [= <-]. by eexists.
    + by vm_compute.
    + by exists snap, db'.
Defined.

Lemma nullable_optional_text (v : json) (r : option string) (db : Db) :
  optional_text v = Some r → nullable string_arg (requestedBy_arg v) db = (inr r, db).
Proof.
  destruct v as [| | | | |s| |]; cbn; try (intros [= <-]; done).
  rewrite length_eqb_0. intros [= <-]. destruct (all_ws s) eqn:Hs.
  - by rewrite bool_decide_eq_true_2 by by apply trim_empty.
  - by rewrite bool_decide_eq_false_2 by (rewrite trim_empty; congruence).
Qed.

Lemma createItem_run payload db t ty r :
  get_field payload "title" = JStr t → all_ws t = false →
  integer_of (get_field payload "itemTypeId") = Some ty →
  optional_text (get_field payload "requestedBy") = Some r →
  createItem payload db =
    if negb (int4 ty) then (inl P2020, db) else
    if negb (item_id_seq (seqs db) <=? INT_MAX) then (inl sequence_exhausted, db) else
    let id := item_id_seq (seqs db) in
    let q := seqs (nextval_item db).2 in
    if decide (is_Some (items (rows db) !! id)) then (inl P2002, mkDb (rows db) q)
    else if decide (is_Some (itemTypes (rows db) !! ty))
    then (inr Break, mkDb (set_items <[id := Item.mk t ty r None None]> (rows db)) q)
    else (inl P2003, mkDb (rows db) q).
Proof.
  intros Ht Hts Hty Hr. unfold createItem. rewrite Ht, is_number_integer_of, Hty.
  rewrite bool_decide_eq_true_2 by eauto.
  unfold mbind at 1, M_bind at 1. rewrite blank_text by done. cbn [is_number negb].
  unfold string_arg. unfold mbind at 1, M_bind at 1, mret at 1, M_ret at 1.
  unfold mbind at 1, M_bind at 1. rewrite (int_arg_run _ ty) by done.
  destruct (int4 ty); cbn [negb]; [|done].
  unfold mbind at 1, M_bind at 1. rewrite (nullable_optional_text _ r) by done.
  unfold prisma.item_create. run. cbn.
  destruct (item_id_seq (seqs db) <=? INT_MAX); cbn; [|done].
  by repeat case_decide.
Qed.

(** X9: createItem with a title that passes the validation and the id of an
    existing item type adds exactly one item, under the next id, AVAILABLE
    (currentLoanId null), as long as the sequence has a value left; its
    requestedBy is null when the field is absent, null or a string of white
    space only, and the given string otherwise.  With the sequence exhausted
    the answer is 400 and nothing changes. *)
Theorem create_item env req payload db t ty r :
  accepted env req (JStr "createItem") payload →
  integrity db →
  get_field payload "title" = JStr t → all_ws t = false →
  get_field payload "itemTypeId" = JNum ty →
  is_Some (itemTypes (rows db) !! ty) →
  optional_text (get_field payload "requestedBy") = Some r →
  (item_id_seq (seqs db) ≤ INT_MAX →
   ∃ snapshot db',
     handler env req db = (success snapshot, db') ∧
     items (rows db) !! item_id_seq (seqs db) = None ∧
     rows db' = set_items <[item_id_seq (seqs db) := Item.mk t ty r None None]> (rows db) ∧
     ∃ x, x ∈ Types.items snapshot ∧ Types.Item.id x = item_id_seq (seqs db) ∧
          Types.Item.title x = t ∧ Types.Item.requestedBy x = r ∧
          Types.Item.currentLoan x = None) ∧
  (INT_MAX < item_id_seq (seqs db) →
   ∃ msg, handler env req db = (failure 400 msg, db)).
Proof.
  intros Hreq Hdb Ht Hts Hty Htype Hr.
  assert (items (rows db) !! item_id_seq (seqs db) = None) as Hfresh.
  { destruct (items (rows db) !! _) eqn:Hk; [|done]. apply (item_pkey _ Hdb) in Hk. lia. }
  assert (int4 ty = true) as Hrange.
  { destruct Htype as [tyrow Htyrow]. by apply (item_type_int4 db ty tyrow). }
  rewrite (handler_accepted _ _ _ _ _ Hreq). cbn [switch String.eqb Ascii.eqb Bool.eqb].
  rewrite (createItem_run payload db t ty r), Hrange by done. cbn [negb]. cbv zeta.
  split; intros Hseq.
  2: { rewrite (proj2 (Z.leb_gt _ _) Hseq). cbn. by eexists. }
  rewrite (proj2 (Z.leb_le _ _) Hseq). cbn [negb].
  rewrite decide_False by (rewrite Hfresh; by intros [? ?]).
  rewrite decide_True by done.
  set (row := Item.mk t ty r None None).
  set (db' := mkDb _ _).
  assert (integrity db') as Hdb'.
  { apply item_insert_integrity; try done; unfold nextval_item;
      by rewrite (proj2 (Z.leb_le _ _) Hseq). }
  destruct (getSnapshot_ok db') as [snap Hsnap]; [apply Hdb'|].
  exists snap, db'. cbn [respond]. rewrite Hsnap. split_and!; [done..|].
  apply getSnapshot_inr in Hsnap as (sel & Hsel & ->). cbn [Types.items].
  assert ((item_id_seq (seqs db), row) ∈ item_rows (rows db')) as Hin.
  { apply elem_of_item_rows. apply lookup_insert_eq. }
  apply list_elem_of_lookup in Hin as [k Hk].
  destruct (Forall2_lookup_l _ _ _ _ _ Hsel Hk) as (y & Hy & Hsely).
  exists (isoItem y). split; [apply list_elem_of_fmap; exists y; split; [done|];
                              by eapply list_elem_of_lookup_2|].
  unfold select_item in Hsely. destruct Htype as [tyrow Htyrow].
  cbn in Hsely. rewrite Htyrow in Hsely. by injection Hsely as <-.
Qed.

Lemma create_item_witness :
  ∃ snapshot db' x,
    handler demo_env
      (post "createItem"
         [("title", JStr "Dune"); ("itemTypeId", JNum 1); ("requestedBy", JStr "  ")]%string)
      seed = (success snapshot, db') ∧
    x ∈ Types.items snapshot ∧ Types.Item.id x = 4 ∧ Types.Item.requestedBy x = None.
Proof.
  destruct (create_item demo_env
              (post "createItem"
                 [("title", JStr "Dune"); ("itemTypeId", JNum 1); ("requestedBy", JStr "  ")]%string)
              (JObj [("title", JStr "Dune"); ("itemTypeId", JNum 1);
                     ("requestedBy", JStr "  ")]%string)
              seed "Dune" 1 None)
    as [Hok _].
  - by apply accepted_post.
  - apply integrity_seed.
  - reflexivity.
  - reflexivity.
  - reflexivity.
  - by eexists.
  - reflexivity.
  - destruct Hok as (snap & db' & H & _ & _ & x & Hx & Hid & _ & Hrb & _); [by vm_compute|].
    by exists snap, db', x.
Defined.


(** ** Category links *)

Lemma selected_categories (s : Store) (k : Z) (it : Item.t) (y : Types.Item.t Z) :
  select_item s (k, it) = inr y →
  ∀ ref, ref ∈ Types.Item.categories y ↔
         ∃ c cat, categories s !! c = Some cat ∧ (c, k) ∈ itemToCategory s ∧
                  ref = Types.Ref.mk c (Category.name cat).
Proof.
  unfold select_item. destruct (itemTypes s !! Item.itemTypeId it); [|done].
  intros [= <-] ref. cbn. rewrite list_elem_of_fmap. split.
  - intros ([c cat] & -> & [Hlink Hin%elem_of_map_to_list]%list_elem_of_filter).
    by exists c, cat.
  - intros (c & cat & Hcat & Hlink & ->). exists (c, cat). split; [done|].
    apply list_elem_of_filter. split; [done|]. by apply elem_of_map_to_list.
Qed.

(** The snapshot item of a row of the items table. *)
Lemma snapshot_item (db : Db) snap (k : Z) (it : Item.t) :
  getSnapshot db = (inr snap, db) →
  items (rows db) !! k = Some it →
  ∃ y, select_item (rows db) (k, it) = inr y ∧ isoItem y ∈ Types.items snap.
Proof.
  intros (sel & Hsel & ->)%getSnapshot_inr Hit. cbn [Types.items].
  assert ((k, it) ∈ item_rows (rows db)) as Hin by by apply elem_of_item_rows.
  apply list_elem_of_lookup in Hin as [n Hn].
  destruct (Forall2_lookup_l _ _ _ _ _ Hsel Hn) as (y & Hy & Hsely).
  exists y. split; [done|]. apply list_elem_of_fmap. exists y. split; [done|].
  by eapply list_elem_of_lookup_2.
Qed.

Lemma store_eta (s : Store) :
  mkStore (itemTypes s) (categories s) (items s) (loans s) (itemToCategory s) = s.
Proof. by destruct s. Qed.

(** X10: linkCategory on an existing item and an existing category answers
    200, adds the pair to the links and nothing else, and the category then
    shows among the item's categories in the snapshot answered; linking a
    pair that is linked already changes no row. *)
Theorem link_category env req payload db i c it cat :
  accepted env req (JStr "linkCategory") payload →
  integrity db →
  get_field payload "itemId" = JNum i → get_field payload "categoryId" = JNum c →
  items (rows db) !! i = Some it → categories (rows db) !! c = Some cat →
  ∃ snapshot db',
    handler env req db = (success snapshot, db') ∧
    rows db' = set_itemToCategory (λ j, {[ (c, i) ]} ∪ j) (rows db) ∧
    ((c, i) ∈ itemToCategory (rows db) → rows db' = rows db) ∧
    ∃ x, x ∈ Types.items snapshot ∧ Types.Item.id x = i ∧
         Types.Ref.mk c (Category.name cat) ∈ Types.Item.categories x.
Proof.
  intros Hreq Hdb Hi Hc Hit Hcat.
  rewrite (handler_accepted _ _ _ _ _ Hreq). cbn [switch String.eqb Ascii.eqb Bool.eqb].
  rewrite (linkCategory_run payload db i c) by done.
  rewrite (item_int4 db i it), (category_int4 db c cat) by done. cbn [negb orb].
  rewrite Hit, Hcat.
  set (db' := mkDb _ _).
  destruct (getSnapshot_ok db') as [snap Hsnap]; [apply Hdb|].
  exists snap, db'. cbn [respond]. rewrite Hsnap. split_and!; [done..| |].
  - intros Hin. cbn. unfold set_itemToCategory.
    replace ({[(c, i)]} ∪ itemToCategory (rows db)) with (itemToCategory (rows db))
      by set_solver.
    apply store_eta.
  - destruct (snapshot_item db' snap i it Hsnap Hit) as (y & Hy & Hin).
    destruct (select_item_inr _ _ _ _ Hy) as [Hid _].
    exists (isoItem y). split; [done|]. split; [done|].
    cbn. apply (selected_categories _ _ _ _ Hy). exists c, cat.
    split_and!; [done| |done]. cbn. set_solver.
Qed.

Lemma link_category_witness :
  ∃ snapshot db' x,
    handler demo_env (post "linkCategory" [("itemId", JNum 2); ("categoryId", JNum 1)]%string) seed
      = (success snapshot, db') ∧
    x ∈ Types.items snapshot ∧ Types.Item.id x = 2 ∧
    Types.Ref.mk 1 "Fiction" ∈ Types.Item.categories x.
Proof.
  destruct (link_category demo_env
              (post "linkCategory" [("itemId", JNum 2); ("categoryId", JNum 1)]%string)
              (JObj [("itemId", JNum 2); ("categoryId", JNum 1)]%string) seed 2 1
              (Item.mk "Laptop Pro X" 2 (Some "Ford Prefect"%string) None None)
              (Category.mk "FICT" "Fiction" None))
    as (snap & db' & H & _ & _ & x & Hx & Hid & Hcat).
  - by apply accepted_post.
  - apply integrity_seed.
  - reflexivity.
  - reflexivity.
  - reflexivity.
  - reflexivity.
  - by exists snap, db', x.
Defined.

(** X11: unlinkCategory on an existing item, with a category id within the
    INTEGER range, answers 200 and removes the pair from the links, whether
    or not the category exists or was linked: it changes no row when the pair
    was not linked, and it undoes a linkCategory of a pair that was not
    linked before.  With a category id outside the INTEGER range it answers
    400 and nothing changes. *)
Theorem unlink_category env req1 req2 payload db i c it :
  accepted env req2 (JStr "unlinkCategory") payload →
  integrity db →
  get_field payload "itemId" = JNum i → get_field payload "categoryId" = JNum c →
  items (rows db) !! i = Some it →
  (int4 c = true →
   (∃ snapshot db',
      handler env req2 db = (success snapshot, db') ∧
      rows db' = set_itemToCategory (λ j, j ∖ {[ (c, i) ]}) (rows db) ∧
      ((c, i) ∉ itemToCategory (rows db) → rows db' = rows db)) ∧
   (accepted env req1 (JStr "linkCategory") payload →
    (c, i) ∉ itemToCategory (rows db) →
    rows (handler env req2 (handler env req1 db).2).2 = rows db)) ∧
  (int4 c = false → ∃ msg, handler env req2 db = (failure 400 msg, db)).
Proof.
  intros Hreq Hdb Hi Hc Hit.
  pose proof (item_int4 db i it Hdb Hit) as Hri.
  split; intros Hrc.
  2: { rewrite (handler_accepted _ _ _ _ _ Hreq). cbn [switch String.eqb Ascii.eqb Bool.eqb].
       rewrite (unlinkCategory_run payload db i c), Hri, Hrc by done. cbn. by eexists. }
  assert (∀ db0, integrity db0 → items (rows db0) !! i = Some it →
            ∃ snapshot db',
              handler env req2 db0 = (success snapshot, db') ∧
              rows db' = set_itemToCategory (λ j, j ∖ {[ (c, i) ]}) (rows db0)) as Hun.
  { intros db0 Hdb0 Hit0.
    rewrite (handler_accepted _ _ _ _ _ Hreq). cbn [switch String.eqb Ascii.eqb Bool.eqb].
    rewrite (unlinkCategory_run payload db0 i c), Hri, Hrc by done. cbn [negb orb].
    rewrite Hit0.
    set (db' := mkDb _ _).
    destruct (getSnapshot_ok db') as [snap Hsnap]; [apply Hdb0|].
    exists snap, db'. cbn [respond]. by rewrite Hsnap. }
  split.
  - destruct (Hun db Hdb Hit) as (snap & db' & Heq & Hrows).
    exists snap, db'. split_and!; [done..|].
    intros Hnot. rewrite Hrows. unfold set_itemToCategory.
    replace (itemToCategory (rows db) ∖ {[(c, i)]}) with (itemToCategory (rows db))
      by set_solver.
    apply store_eta.
  - intros Hreq1 Hnot.
    pose proof (handler_integrity env req1 db Hdb) as Hdb1.
    assert (rows (handler env req1 db).2
            = match categories (rows db) !! c with
              | Some _ => set_itemToCategory (λ j, {[ (c, i) ]} ∪ j) (rows db)
              | None => rows db
              end) as Hrows1.
    { rewrite (handler_accepted _ _ _ _ _ Hreq1), respond_db.
      cbn [switch String.eqb Ascii.eqb Bool.eqb].
      rewrite (linkCategory_run payload db i c), Hri, Hrc by done. cbn [negb orb].
      rewrite Hit. by destruct (categories (rows db) !! c). }
    destruct (Hun (handler env req1 db).2 Hdb1) as (snap & db' & -> & Hrows).
    { rewrite Hrows1. by destruct (categories (rows db) !! c). }
    cbn [snd]. rewrite Hrows, Hrows1. unfold set_itemToCategory.
    destruct (categories (rows db) !! c); cbn.
    + replace (({[(c, i)]} ∪ itemToCategory (rows db)) ∖ {[(c, i)]})
        with (itemToCategory (rows db)) by set_solver.
      apply store_eta.
    + replace (itemToCategory (rows db) ∖ {[(c, i)]}) with (itemToCategory (rows db))
        by set_solver.
      apply store_eta.
Qed.

Lemma unlink_category_witness :
  rows (handler demo_env
          (post "unlinkCategory" [("itemId", JNum 2); ("categoryId", JNum 1)]%string)
          (handler demo_env
             (post "linkCategory" [("itemId", JNum 2); ("categoryId", JNum 1)]%string)
             seed).2).2
  = rows seed.
Proof.
  destruct (unlink_category demo_env
              (post "linkCategory" [("itemId", JNum 2); ("categoryId", JNum 1)]%string)
              (post "unlinkCategory" [("itemId", JNum 2); ("categoryId", JNum 1)]%string)
              (JObj [("itemId", JNum 2); ("categoryId", JNum 1)]%string) seed 2 1
              (Item.mk "Laptop Pro X" 2 (Some "Ford Prefect"%string) None None))
    as [Hin _].
  - by apply accepted_post.
  - apply integrity_seed.
  - reflexivity.
  - reflexivity.
  - reflexivity.
  - destruct Hin as [_ Hundo]; [reflexivity|].
    apply Hundo; [by apply accepted_post|]. by vm_compute.
Defined.


(** ** Closed loans *)

Lemma step_closed_loans (s s' : Store) :
  state_invariant s → step s s' →
  ∀ l ln, loans s !! l = Some ln → is_Some (Loan.returnedAt ln) →
          loans s' !! l = Some ln ∨
          (loans s' !! l = None ∧ items s' !! Loan.itemId ln = None).
Proof.
  intros Hinv Hstep l ln Hl Hclosed.
  destruct Hstep as [|s' Hitems Hloans|k r Hk Hr|today i0 it0 p l0 Hit0 Hcur0 Hl0
                     |t i0 it0 l0 ln0 Hit0 Hcur0 Hl0|i0 it0 Hit0].
  - by left.
  - left. by rewrite Hloans.
  - by left.
  - left. cbn. rewrite lookup_insert_ne; [done|]. intros ->. congruence.
  - left. cbn. rewrite lookup_insert_ne; [done|]. intros ->.
    destruct (Hinv i0 it0 Hit0) as (_ & Hopen & _).
    destruct (Hopen l Hcur0) as (ln' & Hl' & _ & Hnone).
    assert (ln' = ln) as -> by congruence. rewrite Hnone in Hclosed. by destruct Hclosed.
  - cbn. destruct (decide (Loan.itemId ln = i0)) as [Heq|Hne].
    + right. split.
      * apply map_lookup_filter_None. right. intros ln' Hl' Hne. cbn in Hne. congruence.
      * by rewrite lookup_fmap, Heq, lookup_delete_eq.
    + left. by apply map_lookup_filter_Some.
Qed.

(** X12: a closed loan is immutable: whatever the request, a Loan row with a
    non-null returnedAt is afterwards either the same row, or gone together
    with its item. *)
Theorem closed_loans_immutable env req db l ln :
  state_invariant (rows db) →
  loans (rows db) !! l = Some ln →
  is_Some (Loan.returnedAt ln) →
  loans (rows (handler env req db).2) !! l = Some ln ∨
  (loans (rows (handler env req db).2) !! l = None ∧
   items (rows (handler env req db).2) !! Loan.itemId ln = None).
Proof.
  intros Hinv Hl Hclosed.
  by apply (step_closed_loans (rows db) _ Hinv (handler_step env req db)).
Qed.

Lemma closed_loans_immutable_witness :
  let db0 := (handler demo_env (post "return" [("itemId", JNum 1)]%string) seed).2 in
  let db1 := (handler demo_env
                (post "checkout" [("itemId", JNum 1); ("patronName", JStr "Bob")]%string) db0).2 in
  loans (rows db1) !! 1 = Some (Loan.mk 1 "Arthur Dent" 20301 (Some 1754042400000)).
Proof.
  cbv zeta.
  set (db0 := (handler demo_env (post "return" [("itemId", JNum 1)]%string) seed).2).
  destruct (closed_loans_immutable demo_env
              (post "checkout" [("itemId", JNum 1); ("patronName", JStr "Bob")]%string)
              db0 1 (Loan.mk 1 "Arthur Dent" 20301 (Some 1754042400000)))
    as [H|[_ H]].
  - eapply step_invariant; [apply integrity_seed|apply state_invariant_seed|apply handler_step].
  - reflexivity.
  - by eexists.
  - exact H.
  - by vm_compute in H.
Defined.

(** ** deleteItem and the category links *)

(** X13: deleting an existing item also removes every category link of that
    item and no other link, leaves categories and item types alone, and the
    item is no longer in the snapshot answered. *)
Theorem delete_item_unlinks env req payload db i it :
  accepted env req (JStr "deleteItem") payload →
  integrity db →
  get_field payload "id" = JNum i →
  items (rows db) !! i = Some it →
  ∃ snapshot db',
    handler env req db = (success snapshot, db') ∧
    (∀ c, (c, i) ∉ itemToCategory (rows db')) ∧
    (∀ c j, j ≠ i → (c, j) ∈ itemToCategory (rows db') ↔ (c, j) ∈ itemToCategory (rows db)) ∧
    categories (rows db') = categories (rows db) ∧
    itemTypes (rows db') = itemTypes (rows db) ∧
    i ∉ Types.Item.id <$> Types.items snapshot.
Proof.
  intros Hreq Hdb Hi Hit.
  rewrite (handler_accepted _ _ _ _ _ Hreq). cbn [switch String.eqb Ascii.eqb Bool.eqb].
  rewrite (deleteItem_run payload db i), (item_int4 db i it), Hit by done. cbn [negb].
  set (db' := mkDb (deleted i (rows db)) (seqs db)).
  destruct (getSnapshot_ok db') as [snap Hsnap]; [apply (deleted_integrity db i Hdb)|].
  exists snap, db'. cbn [respond]. rewrite Hsnap. split_and!; try done.
  - intros c. cbn. rewrite elem_of_filter. cbn. by intros [? _].
  - intros c j Hj. cbn. rewrite elem_of_filter. cbn. tauto.
  - apply getSnapshot_inr in Hsnap as (sel & Hsel & ->). cbn [Types.items].
    rewrite (selected_ids _ _ _ Hsel). rewrite list_elem_of_fmap.
    intros ([k r] & -> & Hin%elem_of_item_rows). cbn in Hin.
    by rewrite lookup_fmap, lookup_delete_eq in Hin.
Qed.

Lemma delete_item_unlinks_witness :
  ∃ snapshot db',
    handler demo_env (post "deleteItem" [("id", JNum 1)]%string) seed = (success snapshot, db') ∧
    (∀ c, (c, 1) ∉ itemToCategory (rows db')) ∧
    1 ∉ Types.Item.id <$> Types.items snapshot.
Proof.
  destruct (delete_item_unlinks demo_env (post "deleteItem" [("id", JNum 1)]%string)
              (JObj [("id", JNum 1)]%string) seed 1
              (Item.mk "The Hitchhiker's Guide to the Galaxy" 1 None (Some 1) None))
    as (snap & db' & H & Hlinks & _ & _ & _ & Hgone).
  - by apply accepted_post.
  - apply integrity_seed.
  - reflexivity.
  - reflexivity.
  - by exists snap, db'.
Defined.

(** ** What the snapshot says of an item *)

(** X14: every item of a snapshot is a row of the items table, with its
    title and requestedBy, the id and name of its item type, and exactly the
    categories it is linked to, each with its name. *)
Theorem snapshot_item_details (db : Db) snap x :
  getSnapshot db = (inr snap, db) →
  x ∈ Types.items snap →
  ∃ it ty,
    items (rows db) !! Types.Item.id x = Some it ∧
    itemTypes (rows db) !! Item.itemTypeId it = Some ty ∧
    Types.Item.title x = Item.title it ∧
    Types.Item.requestedBy x = Item.requestedBy it ∧
    Types.Item.itemType x = Types.Ref.mk (Item.itemTypeId it) (ItemType.name ty) ∧
    ∀ ref, ref ∈ Types.Item.categories x ↔
           ∃ c cat, categories (rows db) !! c = Some cat ∧
                    (c, Types.Item.id x) ∈ itemToCategory (rows db) ∧
                    ref = Types.Ref.mk c (Category.name cat).
Proof.
  intros (sel & Hsel & ->)%getSnapshot_inr Hx. cbn [Types.items] in Hx.
  apply list_elem_of_fmap in Hx as (y & -> & Hy).
  apply list_elem_of_lookup in Hy as [n Hn].
  destruct (Forall2_lookup_r _ _ _ _ _ Hsel Hn) as ([k it] & Hrow & Hy).
  apply list_elem_of_lookup_2, elem_of_item_rows in Hrow.
  pose proof (selected_categories _ _ _ _ Hy) as Hcats.
  unfold select_item in Hy.
  destruct (itemTypes (rows db) !! Item.itemTypeId it) as [ty|] eqn:Hty; [|done].
  injection Hy as <-. cbn in *. by exists it, ty.
Qed.

Lemma snapshot_item_details_witness :
  ∃ snap x it,
    getSnapshot seed = (inr snap, seed) ∧ x ∈ Types.items snap ∧
    items (rows seed) !! Types.Item.id x = Some it ∧
    Types.Item.title x = Item.title it.
Proof.
  destruct (getSnapshot_ok seed) as [snap Hsnap]; [apply integrity_seed|].
  destruct (snapshot_item seed snap 2 _ Hsnap eq_refl) as (y & _ & Hin).
  destruct (snapshot_item_details seed snap (isoItem y) Hsnap Hin)
    as (it & ty & Hit & _ & Htitle & _).
  by exists snap, (isoItem y), it.
Defined.


(** * The shared client *)

Lemma reload_with_global (n : nat) (c k : nat) (e : option string) :
  e ≠ Some "production"%string →
  PrismaModule.reload n (PrismaModule.mkProcess (Some c) k e)
  = (replicate n c, PrismaModule.mkProcess (Some c) k e).
Proof.
  intros He. induction n as [|n IH]; [done|].
  cbn. unfold PrismaModule.load. cbn. rewrite decide_False by done. by rewrite IH.
Qed.

Lemma reload_production (n : nat) (k : nat) :
  PrismaModule.reload n (PrismaModule.mkProcess None k (Some "production"%string))
  = (seq k n, PrismaModule.mkProcess None (k + n) (Some "production"%string)).
Proof.
  revert k. induction n as [|n IH]; intros k.
  - cbn. by rewrite Nat.add_0_r.
  - cbn. unfold PrismaModule.load. cbn. rewrite decide_True by done. rewrite IH.
    f_equal. f_equal. lia.
Qed.

(** X15: outside production, however often the module is evaluated again,
    it exports one and the same client every time and constructs at most one
    (none when the global already holds one); in production with no global
    set, every evaluation constructs a client of its own. *)
Theorem shared_client (n : nat) (p : PrismaModule.Process) :
  (PrismaModule.NODE_ENV p ≠ Some "production"%string →
   ∃ c,
     (PrismaModule.reload (S n) p).1 = replicate (S n) c ∧
     PrismaModule.globalForPrisma (PrismaModule.reload (S n) p).2 = Some c ∧
     (∀ c', PrismaModule.globalForPrisma p = Some c' → c = c') ∧
     PrismaModule.constructed (PrismaModule.reload (S n) p).2
       = match PrismaModule.globalForPrisma p with
         | Some _ => PrismaModule.constructed p
         | None => S (PrismaModule.constructed p)
         end) ∧
  (PrismaModule.NODE_ENV p = Some "production"%string →
   PrismaModule.globalForPrisma p = None →
   (PrismaModule.reload n p).1 = seq (PrismaModule.constructed p) n ∧
   NoDup (PrismaModule.reload n p).1 ∧
   PrismaModule.constructed (PrismaModule.reload n p).2
     = (PrismaModule.constructed p + n)%nat).
Proof.
  destruct p as [g k e].
  cbn [PrismaModule.NODE_ENV PrismaModule.globalForPrisma PrismaModule.constructed]. split.
  - intros He. destruct g as [c|].
    + exists c. rewrite reload_with_global by done. cbn. split_and!; try done. congruence.
    + exists k. cbn [PrismaModule.reload]. unfold PrismaModule.load.
      cbn [PrismaModule.NODE_ENV PrismaModule.globalForPrisma PrismaModule.constructed].
      rewrite decide_False by done. rewrite reload_with_global by done. done.
  - intros -> ->. rewrite reload_production. cbn. split_and!; [done| |done].
    apply NoDup_seq.
Qed.

Lemma shared_client_witness :
  ∃ c,
    (PrismaModule.reload 3 (PrismaModule.mkProcess None 0 (Some "development"%string))).1
      = replicate 3 c ∧
    PrismaModule.constructed
      (PrismaModule.reload 3 (PrismaModule.mkProcess None 0 (Some "development"%string))).2
      = 1%nat.
Proof.
  destruct (shared_client 2 (PrismaModule.mkProcess None 0 (Some "development"%string)))
    as [Hdev _].
  destruct Hdev as (c & Hc & _ & _ & Hn); [done|].
  by exists c.
Defined.


(** * The page *)

Lemma getSnapshot_rows (db1 db2 : Db) s :
  rows db1 = rows db2 →
  getSnapshot db1 = (inr s, db1) → getSnapshot db2 = (inr s, db2).
Proof.
  intros Hrows. unfold getSnapshot, statement. rewrite Hrows.
  destruct (traverse _ _); [done|]. intros [= <- _]. by rewrite db_eta.
Qed.

(** The loan a snapshot item carries, read from the rows. *)
Lemma snapshot_item_loan (db : Db) snap x :
  getSnapshot db = (inr snap, db) →
  x ∈ Types.items snap →
  ∃ it,
    items (rows db) !! Types.Item.id x = Some it ∧
    Types.Item.currentLoan x =
      match Item.currentLoanId it with
      | Some l =>
          (λ ln, Types.Loan.mk l (Loan.patronName ln)
                   (Date.toISOString (Date.of_day (Loan.checkoutDate ln))))
            <$> loans (rows db) !! l
      | None => None
      end.
Proof.
  intros (sel & Hsel & ->)%getSnapshot_inr Hx. cbn [Types.items] in Hx.
  apply list_elem_of_fmap in Hx as (y & -> & Hy).
  apply list_elem_of_lookup in Hy as [n Hn].
  destruct (Forall2_lookup_r _ _ _ _ _ Hsel Hn) as ([k it] & Hrow & Hy).
  apply list_elem_of_lookup_2, elem_of_item_rows in Hrow.
  apply select_item_inr in Hy as [Hid Hloan].
  exists it. rewrite isoItem_id, Hid. split; [done|].
  unfold isoItem. cbn [Types.Item.currentLoan]. rewrite Hloan.
  destruct (Item.currentLoanId it) as [l|]; [|done].
  by destruct (loans (rows db) !! l).
Qed.

(** Every row of the items table has its item in the snapshot. *)
Lemma snapshot_has_item (db : Db) snap (k : Z) (it : Item.t) :
  getSnapshot db = (inr snap, db) →
  items (rows db) !! k = Some it →
  ∃ x, x ∈ Types.items snap ∧ Types.Item.id x = k.
Proof.
  intros Hsnap Hit. destruct (snapshot_item db snap k it Hsnap Hit) as (y & Hy & Hin).
  exists (isoItem y). split; [done|]. by apply select_item_inr in Hy as [? _].
Qed.

(** An answer either reports a failure and no row has changed, or carries
    the snapshot of the database as it now is. *)
Lemma handler_outcome env req db :
  integrity db →
  (Types.ok (json_body (handler env req db).1) = false ∧
   rows (handler env req db).2 = rows db) ∨
  (∃ snapshot,
     (handler env req db).1 = success snapshot ∧
     getSnapshot (handler env req db).2 = (inr snapshot, (handler env req db).2)).
Proof.
  intros Hdb.
  assert (∀ x, case_ends db x → integrity x.2 →
            (Types.ok (json_body (respond x).1) = false ∧ rows (respond x).2 = rows db) ∨
            (∃ snapshot, (respond x).1 = success snapshot ∧
                         getSnapshot (respond x).2 = (inr snapshot, (respond x).2))) as Hresp.
  { intros [[e|[r|]] db'] [_ Hends] Hdb'; cbn in *.
    - left. by destruct (catch_block_shape e) as [msg [-> | ->]].
    - left. by destruct Hends as (-> & msg & ->).
    - right. destruct (respond_Break db' Hdb') as (snap & Hsnap & _).
      rewrite Hsnap. by exists snap. }
  destruct (handler_cases env req db)
    as [[_ ->]|(tok & _ & [[_ ->]|[(_ & _ & ->)|[(_ & _ & ->)|[(_ & _ & msg & ->)
        |(a & p & _ & ->)]]]])]; try (by left).
  - apply Hresp; [split; [apply seqs_le_refl|done]|done].
  - apply Hresp; [apply switch_ends|by apply switch_integrity].
Qed.

(** X16: the page never shows a stale view: if its snapshot, when set, is the
    snapshot of the database, this is still so after any submit and after a
    refresh; the error is cleared exactly when the answer is ok, and busy is
    reset. *)
Theorem page_in_sync env action payload st db :
  integrity db →
  Home.in_sync st db →
  (Home.in_sync (Home.submit env action payload st db).1
                (Home.submit env action payload st db).2 ∧
   Home.busy (Home.submit env action payload st db).1 = false ∧
   (Home.error (Home.submit env action payload st db).1 = None ↔
    Types.ok (json_body (handler env (Home.submit_request env action payload) db).1) = true)) ∧
  (Home.in_sync (Home.refresh env st db).1 (Home.refresh env st db).2 ∧
   Home.busy (Home.refresh env st db).1 = false).
Proof.
  intros Hdb Hsync.
  assert (∀ req fallback,
            let res := handler env req db in
            Home.in_sync (Home.receive fallback (json_body res.1) st) res.2 ∧
            Home.busy (Home.receive fallback (json_body res.1) st) = false ∧
            (Home.error (Home.receive fallback (json_body res.1) st) = None ↔
             Types.ok (json_body res.1) = true)) as Hreq.
  { intros req fallback. cbv zeta.
    destruct (handler_outcome env req db Hdb) as [[Hfail Hrows]|(snap & Heq & Hsnap)].
    - unfold Home.receive. rewrite Hfail. cbn. split_and!; [|done|done].
      intros s Hs. apply (getSnapshot_rows db); [done|]. by apply Hsync.
    - unfold Home.receive. rewrite Heq. cbn. split_and!; [|done|done].
      intros s [= <-]. done. }
  unfold Home.submit, Home.refresh. split.
  - specialize (Hreq (Home.submit_request env action payload) "Request failed"%string).
    by destruct (handler env _ db).
  - specialize (Hreq (mkRequest "GET" None JUndefined) "Failed to load"%string).
    destruct (handler env _ db). cbn in *. by destruct Hreq as (? & ? & _).
Qed.

Lemma page_in_sync_witness :
  ∃ s, getSnapshot seed = (inr s, seed) ∧
       Home.in_sync
         (Home.submit demo_env "return" (Home.onReturn None)
            (Home.mkState (Some s) false None) seed).1
         (Home.submit demo_env "return" (Home.onReturn None)
            (Home.mkState (Some s) false None) seed).2.
Proof.
  destruct (getSnapshot_ok seed) as [s Hs]; [apply integrity_seed|].
  exists s. split; [done|].
  apply page_in_sync; [apply integrity_seed|]. by intros ? [= <-].
Defined.


(** The request of [submit] reaches the switch when the configured token
    holds no space. *)
Lemma submit_accepted env expected action payload :
  configured env expected → contains " " expected = false → action ≠ EmptyString →
  accepted env (Home.submit_request env action payload) (JStr action) (JObj payload).
Proof.
  intros [Htok Hne] Hsp Ha. split.
  - exists expected. split_and!; [done..|].
    unfold Home.submit_request. rewrite Htok. cbn [default authorization].
    unfold unauthorized, Js.startsWith. rewrite !string_app_cons, string_app_nil. cbn.
    destruct (split_nospace " " expected Hsp) as [-> _]. cbn.
    rewrite String.eqb_refl. by destruct expected.
  - split_and!; try done. cbn. by destruct action.
Qed.

Lemma submit_unauthorized env expected action payload :
  configured env expected → contains " " expected = true →
  unauthorized (authorization (Home.submit_request env action payload)) expected = true.
Proof.
  intros [Htok Hne] Hsp.
  unfold Home.submit_request. rewrite Htok. cbn [default authorization].
  unfold unauthorized, Js.startsWith. rewrite !string_app_cons, string_app_nil. cbn.
  destruct (split_head " " expected) as (hd & tl & -> & Hhd & _). cbn.
  destruct (String.eqb_spec hd expected) as [->|_]; [congruence|].
  by rewrite orb_true_r.
Qed.

(** X17: what the page sends is authorized exactly when the configured token
    holds no space: then every submit reaches the switch, and otherwise every
    submit is answered 401, which the page shows as its error while its
    snapshot and the database stay as they were. *)
Theorem submit_authorization env expected action payload st db :
  configured env expected →
  action ≠ EmptyString →
  (contains " " expected = false →
   accepted env (Home.submit_request env action payload) (JStr action) (JObj payload)) ∧
  (contains " " expected = true →
   Home.submit env action payload st db
   = (Home.mkState (Home.snap st) false (Some "Unauthorized: Invalid or missing token."%string),
      db)).
Proof.
  intros Hconf Ha. split; intros Hsp.
  - by apply (submit_accepted env expected).
  - unfold Home.submit.
    rewrite (handler_unauthorized env (Home.submit_request env action payload) expected db Hconf eq_refl
               (submit_unauthorized env expected action payload Hconf Hsp)).
    done.
Qed.

Lemma submit_authorization_witness :
  accepted demo_env (Home.submit_request demo_env "return" (Home.onReturn (Some 1)))
    (JStr "return") (JObj (Home.onReturn (Some 1))).
Proof.
  destruct (submit_authorization demo_env "demo-token" "return" (Home.onReturn (Some 1))
              (Home.mkState None false None) seed) as [H _]; [done|done|].
  by apply H.
Defined.

(** An item of the snapshot against its row: no loan when currentLoanId is
    null, and otherwise the loan that currentLoanId names. *)
Lemma snapshot_item_state (db : Db) s x :
  integrity db →
  getSnapshot db = (inr s, db) →
  x ∈ Types.items s →
  ∃ it, items (rows db) !! Types.Item.id x = Some it ∧
        match Item.currentLoanId it with
        | None => Types.Item.currentLoan x = None
        | Some l => ∃ ln, loans (rows db) !! l = Some ln ∧
            Types.Item.currentLoan x =
              Some (Types.Loan.mk l (Loan.patronName ln)
                      (Date.toISOString (Date.of_day (Loan.checkoutDate ln))))
        end.
Proof.
  intros Hdb Hsnap Hx. destruct (snapshot_item_loan db s x Hsnap Hx) as (it & Hit & Hcur).
  exists it. split; [done|]. destruct (Item.currentLoanId it) as [l|] eqn:Hl; [|done].
  destruct (item_current_loan_id_fkey _ Hdb _ _ _ Hit Hl) as [ln Hln].
  exists ln. split; [done|]. by rewrite Hcur, Hln.
Qed.

(** X18: when the page is in sync with the database, the checkout form offers
    exactly the items whose currentLoanId is null and the return form exactly
    the items whose currentLoanId is non-null; the badge of an item reads
    "Available" in the first case and "Loaned to" with the patron name of its
    current loan in the second. *)
Theorem forms_offer_by_state st db s :
  integrity db →
  Home.in_sync st db →
  Home.snap st = Some s →
  (∀ i, i ∈ Types.Item.id <$> Home.availableItems (Home.snap st) ↔
        ∃ it, items (rows db) !! i = Some it ∧ Item.currentLoanId it = None) ∧
  (∀ i, i ∈ Types.Item.id <$> Home.withLoans (Types.items s) ↔
        ∃ it l, items (rows db) !! i = Some it ∧ Item.currentLoanId it = Some l) ∧
  (∀ x it, x ∈ Types.items s → items (rows db) !! Types.Item.id x = Some it →
     match Item.currentLoanId it with
     | None => Home.loan_badge x = "Available"%string
     | Some l => ∃ ln, loans (rows db) !! l = Some ln ∧
                       Home.loan_badge x = "Loaned to " +:+ Loan.patronName ln
     end).
Proof.
  intros Hdb Hsync Hs. pose proof (Hsync s Hs) as Hsnap.
  pose proof (λ x, snapshot_item_state db s x Hdb Hsnap) as Hloan.
  split_and!.
  - intros i. rewrite Hs. unfold Home.availableItems. rewrite list_elem_of_fmap. split.
    + intros (x & -> & [Hnone Hx]%list_elem_of_filter).
      destruct (Hloan x Hx) as (it & Hit & Hcur). exists it. split; [done|].
      destruct (Item.currentLoanId it); [|done]. destruct Hcur as (ln & _ & Hsome). congruence.
    + intros (it & Hit & Hcur).
      destruct (snapshot_has_item db s i it Hsnap Hit) as (x & Hx & <-).
      exists x. split; [done|]. apply list_elem_of_filter. split; [|done].
      destruct (Hloan x Hx) as (it' & Hit' & Hcur'). assert (it' = it) as -> by congruence.
      by rewrite Hcur in Hcur'.
  - intros i. unfold Home.withLoans. rewrite list_elem_of_fmap. split.
    + intros (x & -> & [Hsome Hx]%list_elem_of_filter).
      destruct (Hloan x Hx) as (it & Hit & Hcur). exists it.
      destruct (Item.currentLoanId it) as [l|]; [by exists l|].
      rewrite Hcur in Hsome. by destruct Hsome.
    + intros (it & l & Hit & Hcur).
      destruct (snapshot_has_item db s i it Hsnap Hit) as (x & Hx & <-).
      exists x. split; [done|]. apply list_elem_of_filter. split; [|done].
      destruct (Hloan x Hx) as (it' & Hit' & Hcur'). assert (it' = it) as -> by congruence.
      rewrite Hcur in Hcur'. destruct Hcur' as (ln & _ & ->). by eexists.
  - intros x it Hx Hit. destruct (Hloan x Hx) as (it' & Hit' & Hcur').
    assert (it' = it) as -> by congruence. unfold Home.loan_badge.
    destruct (Item.currentLoanId it) as [l|].
    + destruct Hcur' as (ln & Hln & ->). by exists ln.
    + by rewrite Hcur'.
Qed.

Lemma forms_offer_by_state_witness :
  ∃ s, getSnapshot seed = (inr s, seed) ∧
       1 ∈ Types.Item.id <$> Home.withLoans (Types.items s) ∧
       2 ∈ Types.Item.id <$> Home.availableItems (Some s).
Proof.
  destruct (getSnapshot_ok seed) as [s Hs]; [apply integrity_seed|].
  exists s. split; [done|].
  destruct (forms_offer_by_state (Home.mkState (Some s) false None) seed s)
    as (Hav & Hwl & _); [apply integrity_seed|by intros ? [= <-]|done|].
  split.
  - apply Hwl. by eexists _, _.
  - apply Hav. by eexists.
Defined.


(** X19: with a configured token that holds no space and a loan id sequence
    that has a value left, an item picked in the checkout form of a page that
    is in sync, sent with a patron name that is not blank, ends on loan: the
    submit reports no error, and in the snapshot the page then holds the item
    is present, badged "Loaned to" that patron, listed in the return form and
    no longer in the checkout form. *)
Theorem offered_checkout_succeeds env expected st db x p :
  integrity db →
  loan_id_seq (seqs db) ≤ INT_MAX →
  configured env expected → contains " " expected = false →
  Home.in_sync st db →
  x ∈ Home.availableItems (Home.snap st) →
  Js.trim p ≠ EmptyString →
  ∃ s',
    (Home.submit env "checkout" (Home.onCheckout (Some (Types.Item.id x)) p) st db).1
      = Home.mkState (Some s') false None ∧
    (∃ y, y ∈ Types.items s' ∧ Types.Item.id y = Types.Item.id x) ∧
    ∀ y, y ∈ Types.items s' → Types.Item.id y = Types.Item.id x →
      Home.loan_badge y = "Loaned to " +:+ p ∧
      y ∈ Home.withLoans (Types.items s') ∧
      y ∉ Home.availableItems (Some s').
Proof.
  intros Hdb Hseq Hconf Hsp Hsync Hx Hne. unfold Home.availableItems in Hx.
  destruct (Home.snap st) as [s|] eqn:Hs; [|by apply elem_of_nil in Hx].
  apply list_elem_of_filter in Hx as [Hnone Hx].
  destruct (snapshot_item_state db s x Hdb (Hsync s Hs) Hx) as (it & Hit & Hcur).
  destruct (Item.currentLoanId it) as [l|] eqn:Hcid;
    [destruct Hcur as (? & _ & ?); congruence|].
  set (i := Types.Item.id x) in *. unfold Home.submit.
  rewrite (handler_accepted env _ (JStr "checkout") (JObj (Home.onCheckout (Some i) p)) db)
    by by apply (submit_accepted env expected).
  cbn [switch String.eqb Ascii.eqb Bool.eqb].
  rewrite (checkout_available env _ db i it p) by done.
  pose proof (checkout_integrity (Date.day_of (now env)) db i it p Hdb Hseq Hit) as Hdb'.
  destruct (respond_Break _ Hdb') as (s' & Hs' & ->).
  exists s'. split; [done|].
  set (db' := mkDb _ _) in *. set (l := loan_id_seq (seqs db)) in *.
  assert (items (rows db') !! i = Some (Item.with_currentLoanId (Some l) it)) as Hit'
    by apply lookup_insert_eq.
  assert (loans (rows db') !! l = Some (Loan.mk i p (Date.day_of (now env)) None)) as Hl'
    by apply lookup_insert_eq.
  split; [by apply (snapshot_has_item db' s' i _ Hs' Hit')|].
  intros y Hy Hid.
  destruct (snapshot_item_state db' s' y Hdb' Hs' Hy) as (it' & Hy' & Hloan).
  rewrite Hid, Hit' in Hy'. injection Hy' as <-. cbn [Item.currentLoanId Item.with_currentLoanId] in Hloan.
  destruct Hloan as (ln & Hln & Hloan). rewrite Hl' in Hln. injection Hln as <-.
  split_and!.
  - unfold Home.loan_badge. by rewrite Hloan.
  - apply list_elem_of_filter. split; [by rewrite Hloan|done].
  - intros [Hn _]%list_elem_of_filter. congruence.
Qed.

Lemma offered_checkout_succeeds_witness :
  ∃ s x s',
    getSnapshot seed = (inr s, seed) ∧
    x ∈ Home.availableItems (Some s) ∧ Types.Item.id x = 2 ∧
    (Home.submit demo_env "checkout" (Home.onCheckout (Some 2) "Bob")
       (Home.mkState (Some s) false None) seed).1
      = Home.mkState (Some s') false None.
Proof.
  destruct (getSnapshot_ok seed) as [s Hs]; [apply integrity_seed|].
  destruct (snapshot_has_item seed s 2 _ Hs (eq_refl : items (rows seed) !! 2 = Some _))
    as (x & Hx & Hid).
  assert (x ∈ Home.availableItems (Some s)) as Hav.
  { apply list_elem_of_filter. split; [|done].
    destruct (snapshot_item_state seed s x integrity_seed Hs Hx) as (it & Hit & Hcur).
    rewrite Hid in Hit. injection Hit as <-. exact Hcur. }
  destruct (offered_checkout_succeeds demo_env "demo-token" (Home.mkState (Some s) false None)
              seed x "Bob") as (s' & Hs' & _);
    [apply integrity_seed|by vm_compute|done|done| |done|done|].
  { by intros ? [= <-]. }
  rewrite Hid in Hs'. by exists s, x, s'.
Defined.

(** X20: with a configured token that holds no space, an item picked in the
    return form of a page that is in sync is returned: the submit reports no
    error, and in the snapshot the page then holds the item is present, badged
    "Available", listed in the checkout form and no longer in the return
    form. *)
Theorem offered_return_succeeds env expected st db s x :
  integrity db →
  configured env expected → contains " " expected = false →
  Home.in_sync st db →
  Home.snap st = Some s →
  x ∈ Home.withLoans (Types.items s) →
  ∃ s',
    (Home.submit env "return" (Home.onReturn (Some (Types.Item.id x))) st db).1
      = Home.mkState (Some s') false None ∧
    (∃ y, y ∈ Types.items s' ∧ Types.Item.id y = Types.Item.id x) ∧
    ∀ y, y ∈ Types.items s' → Types.Item.id y = Types.Item.id x →
      Home.loan_badge y = "Available"%string ∧
      y ∈ Home.availableItems (Some s') ∧
      y ∉ Home.withLoans (Types.items s').
Proof.
  intros Hdb Hconf Hsp Hsync Hs [Hsome Hx]%list_elem_of_filter.
  destruct (snapshot_item_state db s x Hdb (Hsync s Hs) Hx) as (it & Hit & Hcur).
  destruct (Item.currentLoanId it) as [l|] eqn:Hcid;
    [|rewrite Hcur in Hsome; by destruct Hsome].
  destruct Hcur as (ln & Hln & _).
  set (i := Types.Item.id x) in *. unfold Home.submit.
  rewrite (handler_accepted env _ (JStr "return") (JObj (Home.onReturn (Some i))) db)
    by by apply (submit_accepted env expected).
  cbn [switch String.eqb Ascii.eqb Bool.eqb].
  rewrite (return_run env _ db i), (item_int4 db i it) by done. cbn [negb].
  rewrite Hit, Hcid, Hln.
  destruct (Z.eqb_spec l 0) as [->|_]; [apply (loan_pkey _ Hdb) in Hln; lia|].
  pose proof (return_integrity (now env) db i it l ln Hdb Hit Hln) as Hdb'.
  destruct (respond_Break _ Hdb') as (s' & Hs' & ->).
  exists s'. split; [done|].
  set (db' := mkDb _ _) in *.
  assert (items (rows db') !! i = Some (Item.with_currentLoanId None it)) as Hit'
    by apply lookup_insert_eq.
  split; [by apply (snapshot_has_item db' s' i _ Hs' Hit')|].
  intros y Hy Hid.
  destruct (snapshot_item_state db' s' y Hdb' Hs' Hy) as (it' & Hy' & Hloan).
  rewrite Hid, Hit' in Hy'. injection Hy' as <-. cbn [Item.currentLoanId Item.with_currentLoanId] in Hloan.
  split_and!.
  - unfold Home.loan_badge. by rewrite Hloan.
  - apply list_elem_of_filter. by split.
  - intros [Hn _]%list_elem_of_filter. rewrite Hloan in Hn. by destruct Hn.
Qed.

Lemma offered_return_succeeds_witness :
  ∃ s x s',
    getSnapshot seed = (inr s, seed) ∧
    x ∈ Home.withLoans (Types.items s) ∧ Types.Item.id x = 1 ∧
    (Home.submit demo_env "return" (Home.onReturn (Some 1))
       (Home.mkState (Some s) false None) seed).1
      = Home.mkState (Some s') false None.
Proof.
  destruct (getSnapshot_ok seed) as [s Hs]; [apply integrity_seed|].
  destruct (snapshot_has_item seed s 1 _ Hs (eq_refl : items (rows seed) !! 1 = Some _))
    as (x & Hx & Hid).
  assert (x ∈ Home.withLoans (Types.items s)) as Hwl.
  { apply list_elem_of_filter. split; [|done].
    destruct (snapshot_item_state seed s x integrity_seed Hs Hx) as (it & Hit & Hcur).
    rewrite Hid in Hit. injection Hit as <-. destruct Hcur as (ln & _ & ->). by eexists. }
  destruct (offered_return_succeeds demo_env "demo-token" (Home.mkState (Some s) false None)
              seed s x) as (s' & Hs' & _); [apply integrity_seed|done|done| |done|done|].
  { by intros ? [= <-]. }
  rewrite Hid in Hs'. by exists s, x, s'.
Defined.


(** X21: with a configured token that holds no space, a form sent with no
    item selected asks for item 0, which no row can be, so the request is
    refused: for checkout, return, link and unlink the page shows an error,
    keeps its snapshot, and no row changes. *)
Theorem no_selection_refused env expected st db action payload p c :
  integrity db →
  configured env expected → contains " " expected = false →
  (action, payload) ∈
    [("checkout"%string, Home.onCheckout None p);
     ("return"%string, Home.onReturn None);
     ("linkCategory"%string, Home.onLink None c);
     ("unlinkCategory"%string, Home.onLink None c)] →
  is_Some (Home.error (Home.submit env action payload st db).1) ∧
  Home.snap (Home.submit env action payload st db).1 = Home.snap st ∧
  Home.busy (Home.submit env action payload st db).1 = false ∧
  rows (Home.submit env action payload st db).2 = rows db.
Proof.
  intros Hdb Hconf Hsp Hin.
  assert (items (rows db) !! 0 = None) as Hmiss.
  { destruct (items (rows db) !! 0) as [it|] eqn:Hit; [|done].
    apply (item_pkey _ Hdb) in Hit. lia. }
  assert (action ≠ EmptyString) as Ha.
  { intros ->. set_unfold. intuition congruence. }
  unfold Home.submit.
  rewrite (handler_accepted env _ (JStr action) (JObj payload) db)
    by by apply (submit_accepted env expected).
  assert (∃ code msg db', respond (switch env (JStr action) (JObj payload) db)
                          = (failure code msg, db') ∧ rows db' = rows db) as Hfail.
  { set_unfold. destruct Hin as [[= -> ->]|[[= -> ->]|[[= -> ->]|[[= -> ->]|[]]]]];
      cbn [switch String.eqb Ascii.eqb Bool.eqb].
    - destruct (checkout_missing_item env (JObj (Home.onCheckout None p)) db 0 eq_refl Hmiss)
        as (msg & db' & -> & Hrows). by eexists _, _, _.
    - rewrite (return_run env _ db 0) by done. rewrite Hmiss. by eexists _, _, _.
    - rewrite (linkCategory_run _ db 0 (Home.Number c)) by done. rewrite Hmiss.
      destruct (int4 (Home.Number c)); by eexists _, _, _.
    - rewrite (unlinkCategory_run _ db 0 (Home.Number c)) by done. rewrite Hmiss.
      destruct (int4 (Home.Number c)); by eexists _, _, _. }
  destruct Hfail as (code & msg & db' & -> & Hrows). by cbn.
Qed.

Lemma no_selection_refused_witness :
  is_Some (Home.error (Home.submit demo_env "return" (Home.onReturn None)
                         (Home.mkState None false None) seed).1).
Proof.
  apply (no_selection_refused demo_env "demo-token" (Home.mkState None false None) seed
           "return" (Home.onReturn None) "" None);
    [apply integrity_seed|done|done|set_unfold; tauto].
Defined.


(** ** Each action name runs its own mutation *)

Lemma blank_false v db db' :
  blank v db = (inr false, db') → ∃ p, v = JStr p ∧ all_ws p = false ∧ db' = db.
Proof.
  intros H.
  destruct (blank_cases v db) as [(e & Hb & _)|[Hb|(p & -> & Hne & Hb)]];
    rewrite Hb in H; simplify_eq.
  exists p. split_and!; [done| |done].
  destruct (all_ws p) eqn:Hp; [|done]. by apply trim_empty in Hp.
Qed.

(** Peels the next validation of a text field off a case that ends in [break]. *)
Ltac text_field H c Hc Hcs :=
  unfold mbind at 1, M_bind at 1 in H;
  match type of H with
  | context [blank ?v ?db] =>
      let Hb := fresh "Hb" in
      destruct (blank v db) as [[?|[]] ?] eqn:Hb; try done;
      apply blank_false in Hb as (c & Hc & Hcs & ->)
  end.

Lemma createItemType_mutation env payload db db' :
  createItemType payload db = (inr Break, db') →
  mutation env payload "createItemType" (rows db) (rows db').
Proof.
  intros H. pose proof H as H'. unfold createItemType in H'.
  text_field H' c Hc Hcs. text_field H' n Hn Hns. clear H'.
  rewrite (createItemType_run payload db c n) in H by done.
  destruct (negb _); [done|]. cbv zeta in H.
  repeat case_decide; simplify_eq. cbn.
  apply mutation_createItemType; [|done..].
  by destruct (itemTypes (rows db) !! _); [exfalso; eauto|].
Qed.

Lemma createCategory_mutation env payload db db' :
  createCategory payload db = (inr Break, db') →
  mutation env payload "createCategory" (rows db) (rows db').
Proof.
  intros H. pose proof H as H'. unfold createCategory in H'.
  text_field H' c Hc Hcs. text_field H' n Hn Hns.
  destruct (optional_int (get_field payload "parentId")) as [po|] eqn:Hpo.
  2: { exfalso. rewrite Hc, Hn in H'. unfold string_arg in H'. run.
       destruct (get_field payload "parentId"); by simplify_eq. }
  clear H'.
  rewrite (createCategory_run payload db c n po) in H by done.
  destruct (negb _); [done|]. destruct (negb _); [done|]. cbv zeta in H.
  assert (categories (rows db) !! category_id_seq (seqs db) = None) as Hfresh.
  { destruct (categories (rows db) !! _) eqn:Hk; [|done].
    rewrite decide_True in H by eauto. done. }
  repeat case_decide; destruct po; repeat case_decide; simplify_eq; cbn;
    by apply mutation_createCategory.
Qed.

Lemma createItem_mutation env payload db db' :
  createItem payload db = (inr Break, db') →
  mutation env payload "createItem" (rows db) (rows db').
Proof.
  intros H. pose proof H as H'. unfold createItem in H'.
  text_field H' t Ht Hts.
  destruct (integer_of (get_field payload "itemTypeId")) as [ty|] eqn:Hty.
  2: { rewrite is_number_integer_of, Hty in H'.
       by rewrite bool_decide_eq_false_2 in H' by (by intros [??]). }
  destruct (optional_text (get_field payload "requestedBy")) as [r|] eqn:Hr.
  2: { exfalso. rewrite is_number_integer_of, Hty, Ht in H'.
       rewrite bool_decide_eq_true_2 in H' by eauto. unfold string_arg in H'. run.
       cbn [negb] in H'. rewrite (int_arg_run _ ty) in H' by done.
       destruct (int4 ty); [|done].
       destruct (get_field payload "requestedBy"); cbn in Hr, H'; by simplify_eq. }
  clear H'.
  rewrite (createItem_run payload db t ty r) in H by done.
  destruct (negb _); [done|]. destruct (negb _); [done|]. cbv zeta in H.
  repeat case_decide; simplify_eq. cbn.
  apply mutation_createItem; [|done..].
  by destruct (items (rows db) !! _); [exfalso; eauto|].
Qed.

Lemma linkCategory_mutation env payload db db' :
  linkCategory payload db = (inr Break, db') →
  mutation env payload "linkCategory" (rows db) (rows db').
Proof.
  intros H.
  destruct (integer_of (get_field payload "itemId")) as [i|] eqn:Hi.
  2: { unfold linkCategory in H. rewrite is_number_integer_of, Hi in H.
       by rewrite bool_decide_eq_false_2 in H by (by intros [??]). }
  destruct (integer_of (get_field payload "categoryId")) as [c|] eqn:Hc.
  2: { unfold linkCategory in H. rewrite !is_number_integer_of, Hi, Hc in H.
       rewrite bool_decide_eq_true_2 in H by eauto.
       by rewrite bool_decide_eq_false_2 in H by (by intros [??]). }
  rewrite (linkCategory_run payload db i c) in H by done.
  destruct (negb _ || negb _); [done|].
  destruct (items (rows db) !! i) eqn:Hit; [|done].
  destruct (categories (rows db) !! c) eqn:Hcat; [|done].
  simplify_eq. cbn. by apply mutation_linkCategory.
Qed.

Lemma unlinkCategory_mutation env payload db db' :
  unlinkCategory payload db = (inr Break, db') →
  mutation env payload "unlinkCategory" (rows db) (rows db').
Proof.
  intros H.
  destruct (integer_of (get_field payload "itemId")) as [i|] eqn:Hi.
  2: { unfold unlinkCategory in H. rewrite is_number_integer_of, Hi in H.
       by rewrite bool_decide_eq_false_2 in H by (by intros [??]). }
  destruct (integer_of (get_field payload "categoryId")) as [c|] eqn:Hc.
  2: { unfold unlinkCategory in H. rewrite !is_number_integer_of, Hi, Hc in H.
       rewrite bool_decide_eq_true_2 in H by eauto.
       by rewrite bool_decide_eq_false_2 in H by (by intros [??]). }
  rewrite (unlinkCategory_run payload db i c) in H by done.
  destruct (negb _ || negb _); [done|].
  destruct (items (rows db) !! i) eqn:Hit; [|done].
  simplify_eq. cbn. by apply mutation_unlinkCategory.
Qed.

Lemma checkout_mutation env payload db db' :
  checkout env payload db = (inr Break, db') →
  mutation env payload "checkout" (rows db) (rows db').
Proof.
  intros H.
  destruct (integer_of (get_field payload "itemId")) as [i|] eqn:Hi.
  2: { unfold checkout in H. rewrite is_number_integer_of, Hi in H.
       by rewrite bool_decide_eq_false_2 in H by (by intros [??]). }
  destruct (blank_cases (get_field payload "patronName") db)
    as [(e & Hb & _)|[Hb|(p & Hp & Hne & _)]].
  1, 2: unfold checkout in H; rewrite is_number_integer_of, Hi in H;
    rewrite bool_decide_eq_true_2 in H by eauto; cbn [negb] in H;
    unfold mbind at 1, M_bind at 1 in H; by rewrite Hb in H.
  rewrite (checkout_run env payload db i p) in H by done.
  destruct (negb _); [done|]. destruct (negb _); [done|]. cbv zeta in H.
  destruct (loans (rows db) !! loan_id_seq (seqs db)) eqn:Hl; [done|].
  destruct (items (rows db) !! i) as [it|] eqn:Hit; [|done].
  destruct (Item.currentLoanId it) eqn:Hcur; [done|].
  case_decide; simplify_eq. cbn. by apply mutation_checkout.
Qed.

Lemma return_mutation env payload db db' :
  return_ env payload db = (inr Break, db') →
  mutation env payload "return" (rows db) (rows db').
Proof.
  intros H.
  destruct (integer_of (get_field payload "itemId")) as [i|] eqn:Hi.
  2: { unfold return_ in H. rewrite is_number_integer_of, Hi in H.
       by rewrite bool_decide_eq_false_2 in H by (by intros [??]). }
  rewrite (return_run env payload db i) in H by done.
  destruct (negb _); [done|].
  destruct (items (rows db) !! i) as [it|] eqn:Hit; [|done].
  destruct (Item.currentLoanId it) as [l|] eqn:Hcur; [|done].
  destruct (l =? 0); [done|].
  destruct (loans (rows db) !! l) as [ln|] eqn:Hl; [|done].
  simplify_eq. cbn. by apply mutation_return.
Qed.

Lemma deleteItem_mutation env payload db db' :
  deleteItem payload db = (inr Break, db') →
  mutation env payload "deleteItem" (rows db) (rows db').
Proof.
  intros H.
  destruct (integer_of (get_field payload "id")) as [i|] eqn:Hi.
  2: { unfold deleteItem in H. rewrite is_number_integer_of, Hi in H.
       by rewrite bool_decide_eq_false_2 in H by (by intros [??]). }
  rewrite (deleteItem_run payload db i) in H by done.
  destruct (negb _); [done|].
  destruct (items (rows db) !! i) as [it|] eqn:Hit; [|done].
  simplify_eq. cbn. by apply mutation_deleteItem.
Qed.

Lemma switch_mutation env a payload db db' :
  a ∈ known_actions →
  switch env (JStr a) payload db = (inr Break, db') →
  mutation env payload a (rows db) (rows db').
Proof.
  intros Ha. unfold known_actions in Ha. set_unfold in Ha.
  destruct_or!; subst a; cbn [switch String.eqb Ascii.eqb Bool.eqb];
    eauto using createItemType_mutation, createCategory_mutation, createItem_mutation,
      linkCategory_mutation, unlinkCategory_mutation, checkout_mutation, return_mutation,
      deleteItem_mutation.
Qed.

(** C7, as amended: the dispatcher executes the corresponding mutation for
    exactly the eight action names createItemType, createCategory,
    createItem, linkCategory, unlinkCategory, checkout, return and
    deleteItem.  A request that reaches the dispatcher under one of these
    names either fails without changing a row, or is answered with status 200
    and has changed the rows as the mutation of that very name does, with the
    arguments of its payload; each of the names has a request that is
    answered with status 200 and changes the rows; and every request other
    than a GET that names no one of them is answered with a structured error
    and leaves the database as it was. *)
Theorem known_actions_exactly :
  (∀ env req a payload db,
     integrity db → a ∈ known_actions → accepted env req (JStr a) payload →
     (Types.ok (json_body (handler env req db).1) = false ∧
      rows (handler env req db).2 = rows db) ∨
     (status (handler env req db).1 = 200 ∧
      mutation env payload a (rows db) (rows (handler env req db).2))) ∧
  (∀ a, a ∈ known_actions →
        ∃ env req db,
          integrity db ∧
          get_field (body req) "action" = JStr a ∧
          status (handler env req db).1 = 200 ∧
          rows (handler env req db).2 ≠ rows db) ∧
  (∀ env req db,
     method req ≠ "GET"%string →
     (∀ a, a ∈ known_actions → get_field (body req) "action" ≠ JStr a) →
     ∃ code msg,
       handler env req db = (failure code msg, db) ∧ code ∈ [500; 405; 401; 400]).
Proof.
  split_and!.
  - intros env req a payload db Hdb Ha Hreq. rewrite (handler_accepted _ _ _ _ _ Hreq).
    pose proof (switch_ends env (JStr a) payload db) as [_ Hends].
    pose proof (switch_integrity env (JStr a) payload db Hdb) as Hdb'.
    destruct (switch env (JStr a) payload db) as [[e|[r|]] db'] eqn:Hsw; cbn in Hends, Hdb'.
    + left. cbn. split; [|done]. by destruct (catch_block_shape e) as [msg [-> | ->]].
    + left. by destruct Hends as [-> [msg ->]].
    + right. destruct (respond_Break db' Hdb') as (snap & _ & ->).
      split; [done|]. by apply switch_mutation.
  - intros a Ha. unfold known_actions in Ha. set_unfold in Ha.
    destruct_or!; subst a.
    + exists demo_env, (post "createItemType" [("code", JStr "DVD"); ("name", JStr "Dvd")]%string), seed.
      split_and!; [apply integrity_seed|done|by vm_compute|].
      intros Heq. apply (f_equal (λ s, size (itemTypes s))) in Heq. by vm_compute in Heq.
    + exists demo_env, (post "createCategory" [("code", JStr "HIST"); ("name", JStr "History")]%string), seed.
      split_and!; [apply integrity_seed|done|by vm_compute|].
      intros Heq. apply (f_equal (λ s, size (categories s))) in Heq. by vm_compute in Heq.
    + exists demo_env, (post "createItem" [("title", JStr "Dune"); ("itemTypeId", JNum 1)]%string), seed.
      split_and!; [apply integrity_seed|done|by vm_compute|].
      intros Heq. apply (f_equal (λ s, size (items s))) in Heq. by vm_compute in Heq.
    + exists demo_env, (post "linkCategory" [("itemId", JNum 2); ("categoryId", JNum 1)]%string), seed.
      split_and!; [apply integrity_seed|done|by vm_compute|].
      intros Heq. apply (f_equal (λ s, size (itemToCategory s))) in Heq. by vm_compute in Heq.
    + exists demo_env, (post "unlinkCategory" [("itemId", JNum 1); ("categoryId", JNum 1)]%string), seed.
      split_and!; [apply integrity_seed|done|by vm_compute|].
      intros Heq. apply (f_equal (λ s, size (itemToCategory s))) in Heq. by vm_compute in Heq.
    + exists demo_env, (post "checkout" [("itemId", JNum 2); ("patronName", JStr "Bob")]%string), seed.
      split_and!; [apply integrity_seed|done|by vm_compute|].
      intros Heq. apply (f_equal (λ s, size (loans s))) in Heq. by vm_compute in Heq.
    + exists demo_env, (post "return" [("itemId", JNum 1)]%string), seed.
      split_and!; [apply integrity_seed|done|by vm_compute|].
      intros Heq. apply (f_equal (λ s, Loan.returnedAt <$> loans s !! 1)) in Heq.
      by vm_compute in Heq.
    + exists demo_env, (post "deleteItem" [("id", JNum 3)]%string), seed.
      split_and!; [apply integrity_seed|done|by vm_compute|].
      intros Heq. apply (f_equal (λ s, size (items s))) in Heq. by vm_compute in Heq.
  - intros env req db Hget Hunknown. unfold handler, try_block.
    destruct (NEXT_PUBLIC_DEMO_AUTH_TOKEN env) as [[|c expected]|];
      try (eexists _, _; split; [reflexivity|listed]).
    rewrite (proj2 (String.eqb_neq _ _) Hget).
    destruct (negb (String.eqb (method req) "POST"));
      [eexists _, _; split; [reflexivity|listed]|].
    destruct (unauthorized _ _); [eexists _, _; split; [reflexivity|listed]|].
    destruct (body req) eqn:Hbody; try (eexists _, _; split; [reflexivity|listed]).
    all: match goal with
         | |- context [negb (truthy ?a) || negb (truthy ?p)] =>
             destruct (negb (truthy a) || negb (truthy p));
             [eexists _, _; split; [reflexivity|listed]|]
         end.
    all: run; rewrite switch_unknown by done; cbn.
    all: eexists _, _; split; [reflexivity|listed].
Qed.

Lemma known_actions_exactly_witness :
  mutation demo_env (JObj [("code", JStr "DVD"); ("name", JStr "Dvd")]%string) "createItemType"
    (rows seed)
    (rows (handler demo_env
             (post "createItemType" [("code", JStr "DVD"); ("name", JStr "Dvd")]%string) seed).2) ∧
  handler demo_env
    (post "create-item-type" [("code", JStr "DVD"); ("name", JStr "Dvd")]%string) seed
  = (failure 400 "Unknown action", seed).
Proof.
  destruct known_actions_exactly as (Hknown & _ & Hother). split.
  - destruct (Hknown demo_env
                (post "createItemType" [("code", JStr "DVD"); ("name", JStr "Dvd")]%string)
                "createItemType" (JObj [("code", JStr "DVD"); ("name", JStr "Dvd")]%string) seed)
      as [[Hok _]|[_ Hm]].
    + apply integrity_seed.
    + unfold known_actions. set_unfold. tauto.
    + by apply accepted_post.
    + by vm_compute in Hok.
    + exact Hm.
  - destruct (Hother demo_env
                (post "create-item-type" [("code", JStr "DVD"); ("name", JStr "Dvd")]%string) seed)
      as (code & msg & Heq & _).
    + done.
    + intros a Ha. unfold known_actions in Ha. set_unfold in Ha.
      destruct_or!; by subst a.
    + reflexivity.
Defined.

(** C7 as stated fails twice over.  The action names of the specification
    are not the names the switch compares with: a request naming
    create-item-type runs no mutation and is answered "Unknown action".  And
    a request that names an unknown action is not always answered with an
    error: a GET is answered with the snapshot whatever its body names. *)
Lemma spec_action_name_counterexample :
  "create-item-type"%string ∈ spec_action_names ∧
  handler demo_env
    (post "create-item-type" [("code", JStr "DVD"); ("name", JStr "Dvd")]%string) seed
  = (failure 400 "Unknown action", seed) ∧
  status (handler demo_env
            (post "createItemType" [("code", JStr "DVD"); ("name", JStr "Dvd")]%string) seed).1
  = 200 ∧
  ("no-such-action"%string ∉ known_actions) ∧
  status (handler demo_env
            (mkRequest "GET" None
               (JObj [("action", JStr "no-such-action"); ("payload", JObj [])]%string)) seed).1
  = 200 ∧
  Types.ok (json_body
              (handler demo_env
                 (mkRequest "GET" None
                    (JObj [("action", JStr "no-such-action"); ("payload", JObj [])]%string))
                 seed).1)
  = true.
Proof.
  split_and!; [unfold spec_action_names; listed|by vm_compute|by vm_compute| |
               by vm_compute|by vm_compute].
  unfold known_actions. set_unfold. intros H. destruct_or!; done.
Qed.
